(** * Mental Omega Arsenal: the catalog loader, the search index, the lookup
      facade and the settings store of [mental_omega_arsenal_layout2.py]

    The development embeds [DataManager] and [ThemeManager] of the Python
    source.  Python objects that are mutated in place ([self.units],
    [self.faction_units], the console) are threaded explicitly as a record;
    a statement that can raise returns a [result].  Python dictionaries keep
    their insertion order, which the code observes through [values()] and
    [items()], so they are association lists with the update discipline of
    [dict]: assignment to a present key replaces the value in place,
    assignment to an absent key appends. *)

From Stdlib Require Import List String Ascii Bool Arith ZArith Lia.
From Stdlib Require Import Sorted Permutation PrimFloat DecimalString.
Import ListNotations.
Open Scope string_scope.
Open Scope list_scope.

Set Implicit Arguments.
Set Warnings "-register-all,-inexact-float".

(** ** Exceptions and results *)

Inductive exn : Type :=
| KeyError (key : string)
| IndexError (msg : string)
| JSONDecodeError (msg : string)
| OtherException (msg : string).

Inductive result (A : Type) : Type :=
| Ok (a : A)
| Raise (e : exn).

Arguments Ok {A} a.
Arguments Raise {A} e.

Definition bind {A B : Type} (m : result A) (k : A -> result B) : result B :=
  match m with
  | Ok a => k a
  | Raise e => Raise e
  end.

Notation "x <- m ;; k" := (bind m (fun x => k))
  (at level 61, m at next level, right associativity).

(** [for x in xs: body] over a state that a body may abort by raising. *)
Fixpoint for_each {A S : Type} (xs : list A) (body : A -> S -> result S)
  (s : S) : result S :=
  match xs with
  | [] => Ok s
  | x :: xs' => s' <- body x s ;; for_each xs' body s'
  end.

(** ** Python [str] helpers *)

Module Str.

Definition space : ascii := " "%char.

(** [s.replace(" ", by)]: every blank is replaced. *)
Fixpoint replace_space (by_ : string) (s : string) : string :=
  match s with
  | EmptyString => EmptyString
  | String c s' =>
      if Ascii.eqb c space then (by_ ++ replace_space by_ s')%string
      else String c (replace_space by_ s')
  end.

(** [" " in s]. *)
Fixpoint has_space (s : string) : bool :=
  match s with
  | EmptyString => false
  | String c s' => Ascii.eqb c space || has_space s'
  end.

(** White space as [str.split()] sees it, on the ASCII range. *)
Definition is_space (c : ascii) : bool :=
  let n := nat_of_ascii c in
  (((9 <=? n) && (n <=? 13)) || ((28 <=? n) && (n <=? 32)))%nat.

Fixpoint lstrip (s : string) : string :=
  match s with
  | EmptyString => EmptyString
  | String c s' => if is_space c then lstrip s' else s
  end.

Fixpoint take_word (s : string) : string :=
  match s with
  | EmptyString => EmptyString
  | String c s' => if is_space c then EmptyString else String c (take_word s')
  end.

(** [s.split()[0]]: the first blank-delimited word; [IndexError] when the
    string holds no word. *)
Definition split_first (s : string) : result string :=
  match lstrip s with
  | EmptyString => Raise (IndexError "list index out of range")
  | w => Ok (take_word w)
  end.

(** [s.lower()] on the ASCII letters. *)
Definition lower_char (c : ascii) : ascii :=
  let n := nat_of_ascii c in
  if ((65 <=? n) && (n <=? 90))%nat then ascii_of_nat (n + 32) else c.

Fixpoint lower (s : string) : string :=
  match s with
  | EmptyString => EmptyString
  | String c s' => String (lower_char c) (lower s')
  end.

(** [q in s]: [q] occurs in [s] as a contiguous run of characters. *)
Fixpoint contains (q s : string) : bool :=
  String.prefix q s ||
  match s with
  | EmptyString => false
  | String _ s' => contains q s'
  end.

(** [str(n)] for a non-negative count. *)
Definition of_nat (n : nat) : string :=
  NilZero.string_of_uint (Nat.to_uint n).

(** [sep.join(parts)]. *)
Definition join (sep : string) (parts : list string) : string :=
  String.concat sep parts.

End Str.

(** ** Python [dict] with string keys *)

Module PyDict.
Section Dict.
Variable V : Type.

Definition t : Type := list (string * V).

Definition empty : t := [].

Fixpoint get (d : t) (k : string) : option V :=
  match d with
  | [] => None
  | (k', v) :: d' => if String.eqb k' k then Some v else get d' k
  end.

(** [k in d] *)
Definition mem (d : t) (k : string) : bool :=
  match get d k with
  | Some _ => true
  | None => false
  end.

(** [d[k]] *)
Definition getitem (d : t) (k : string) : result V :=
  match get d k with
  | Some v => Ok v
  | None => Raise (KeyError k)
  end.

(** [d.get(k, default)] *)
Definition get_default (d : t) (k : string) (default : V) : V :=
  match get d k with
  | Some v => v
  | None => default
  end.

(** [d[k] = v] *)
Fixpoint set (d : t) (k : string) (v : V) : t :=
  match d with
  | [] => [(k, v)]
  | (k', v') :: d' =>
      if String.eqb k' k then (k', v) :: d' else (k', v') :: set d' k v
  end.

Fixpoint remove (d : t) (k : string) : t :=
  match d with
  | [] => []
  | (k', v') :: d' =>
      if String.eqb k' k then d' else (k', v') :: remove d' k
  end.

(** [del d[k]] *)
Definition delitem (d : t) (k : string) : result t :=
  if mem d k then Ok (remove d k) else Raise (KeyError k).

Definition keys (d : t) : list string := map fst d.
Definition values (d : t) : list V := map snd d.
Definition items (d : t) : list (string * V) := d.

(** [d.update(other)] for a mapping [other] *)
Definition update (d other : t) : t :=
  fold_left (fun acc kv => set acc (fst kv) (snd kv)) other d.

(** The keys of a dictionary are pairwise distinct. *)
Definition wf (d : t) : Prop := NoDup (keys d).
End Dict.

Arguments empty {V}.
End PyDict.

Definition dict (V : Type) : Type := PyDict.t V.

(** ** JSON documents as [json.load] returns them *)

Inductive json : Type :=
| JNull
| JBool (b : bool)
| JInt (z : Z)
| JFloat (f : float)
| JStr (s : string)
| JList (l : list json)
| JObject (members : list (string * json)).

(** ** Constants and configuration *)

Record FactionData : Type := {
  icon : string;
  subfactions : dict string   (* subfaction name -> icon *)
}.

Definition FACTION_HIERARCHY : dict FactionData :=
  [ ("Allied Nations",
     {| icon := "Allicon";
        subfactions := [ ("United States", "USAicon");
                         ("European Alliance", "EAicon");
                         ("Pacific Front", "PFicon") ] |});
    ("Soviet Union",
     {| icon := "Sovicon";
        subfactions := [ ("Russia", "Russiaicon");
                         ("Latin Confederation", "Confederationicon");
                         ("China", "Chinaicon") ] |});
    ("Epsilon Army",
     {| icon := "Yuricon";
        subfactions := [ ("PsiCorps", "PCicon");
                         ("Scorpion Cell", "SCicon");
                         ("Epsilon Headquarters", "HQicon") ] |});
    ("Foehn Revolt",
     {| icon := "Foeicon";
        subfactions := [ ("Haihead", "HHicon");
                         ("Last Bastion", "LBicon");
                         ("Wings of Coronia", "WCicon") ] |}) ].

Definition UNIT_CATEGORIES : list string :=
  [ "Structures"; "Defenses"; "Infantry"; "Vehicles"; "Aircraft";
    "Support powers" ].

(** ** Data classes *)

Module UnitData.
Record t : Type := {
  name : string;
  faction : string;
  subfaction : string;
  category : string;
  infobox_data : json;
  icon_filename : json;
  icon_url : json;
  article_tables : json
}.
End UnitData.

Module SearchItem.
Record t : Type := {
  name : string;
  faction : string;
  subfaction : string;
  category : string;
  unit_data : UnitData.t
}.
End SearchItem.

(** ** The file system the loader reads

    A path is its list of components.  [exists_] is [Path.exists];
    [glob_json d] lists what [d.glob("*.json")] yields, in the order the
    platform yields it, each entry with the stem of its file name and with
    what [open] followed by [json.load] does on it. *)

Definition Path : Type := list string.

(** [str(path)] *)
Definition path_str (p : Path) : string := Str.join "/" p.

(** What the [try] block of the loader meets on one file: an exception of
    [open] or [json.load] (or of [data.get] on a document that is not an
    object), or an object.  [UnitData.name] is declared [str]: the member
    [unit_name], when present, is a string and is kept apart from the other
    members.  An object whose [unit_name] is not a string is not described
    here: the loader would keep that value as the name, and [sorted] or
    [lower()] could raise on it after the [try] block. *)
Inductive file_outcome : Type :=
| Raises (e : exn)
| Parsed (unit_name : option string) (data : dict json).

Record JsonFile : Type := {
  stem : string;
  outcome : file_outcome
}.

Record FileSystem : Type := {
  exists_ : Path -> bool;
  glob_json : Path -> list JsonFile
}.

Definition file_path (dir : Path) (f : JsonFile) : Path :=
  dir ++ [(stem f ++ ".json")%string].

(** ** DataManager *)

Inductive event : Type :=
| Print (line : string)
| Traceback (e : exn)
| ShowError (title message : string).

(** [Dict[str, Dict[str, Dict[str, List[UnitData]]]]] *)
Definition catalog : Type := dict (dict (dict (list UnitData.t))).

Record DataManager : Type := {
  units : dict UnitData.t;
  search_index : list SearchItem.t;
  faction_units : catalog;
  console : list event
}.

Definition set_units (self : DataManager) (u : dict UnitData.t) :=
  {| units := u; search_index := search_index self;
     faction_units := faction_units self; console := console self |}.

Definition set_search_index (self : DataManager) (i : list SearchItem.t) :=
  {| units := units self; search_index := i;
     faction_units := faction_units self; console := console self |}.

Definition set_faction_units (self : DataManager) (fu : catalog) :=
  {| units := units self; search_index := search_index self;
     faction_units := fu; console := console self |}.

Definition emit (ev : event) (self : DataManager) : DataManager :=
  {| units := units self; search_index := search_index self;
     faction_units := faction_units self; console := console self ++ [ev] |}.

Definition print (line : string) (self : DataManager) : DataManager :=
  emit (Print line) self.

(** The fields as [__init__] sets them before it calls [_load_data]. *)
Definition new_manager : DataManager :=
  {| units := PyDict.empty; search_index := [];
     faction_units := PyDict.empty; console := [] |}.

(** Statements on the nested catalog.  Each reads the outer dictionaries
    with [d[k]] (which can raise) and writes the changed inner object back
    in place. *)

(** [self.faction_units[f] = {}] *)
Definition assign_faction (f : string) (fu : catalog) : catalog :=
  PyDict.set fu f PyDict.empty.

(** [self.faction_units[f][s] = {}] *)
Definition assign_subfaction (f s : string) (fu : catalog) : result catalog :=
  subs <- PyDict.getitem fu f ;;
  Ok (PyDict.set fu f (PyDict.set subs s PyDict.empty)).

(** [self.faction_units[f][s][c] = l] *)
Definition assign_bucket (f s c : string) (l : list UnitData.t)
  (fu : catalog) : result catalog :=
  subs <- PyDict.getitem fu f ;;
  cats <- PyDict.getitem subs s ;;
  Ok (PyDict.set fu f (PyDict.set subs s (PyDict.set cats c l))).

(** [self.faction_units[f][s][c]] *)
Definition read_bucket (f s c : string) (fu : catalog)
  : result (list UnitData.t) :=
  subs <- PyDict.getitem fu f ;;
  cats <- PyDict.getitem subs s ;;
  PyDict.getitem cats c.

(** [self.faction_units[f][s][c].extend(l)] *)
Definition extend_bucket (f s c : string) (l : list UnitData.t)
  (fu : catalog) : result catalog :=
  subs <- PyDict.getitem fu f ;;
  cats <- PyDict.getitem subs s ;;
  b <- PyDict.getitem cats c ;;
  Ok (PyDict.set fu f (PyDict.set subs s (PyDict.set cats c (b ++ l)))).

(** [del self.faction_units[f][s]] *)
Definition delete_subfaction (f s : string) (fu : catalog) : result catalog :=
  subs <- PyDict.getitem fu f ;;
  subs' <- PyDict.delitem subs s ;;
  Ok (PyDict.set fu f subs').

(** Lift a catalog statement to the manager. *)
Definition on_catalog (stmt : catalog -> result catalog)
  (self : DataManager) : result DataManager :=
  fu <- stmt (faction_units self) ;;
  Ok (set_faction_units self fu).

(** *** Sorting and deduplication as the loader does them *)

(** [sorted(l, key=key)] on string keys: a stable sort, so records of equal
    key keep the order they had. *)
Section Sorted.
Variable A : Type.
Variable key : A -> string.

Fixpoint insert_by (x : A) (l : list A) : list A :=
  match l with
  | [] => [x]
  | y :: l' =>
      if String.leb (key x) (key y) then x :: y :: l'
      else y :: insert_by x l'
  end.

Fixpoint sorted_by (l : list A) : list A :=
  match l with
  | [] => []
  | x :: l' => insert_by x (sorted_by l')
  end.
End Sorted.

(** One turn of the loop over a merged bucket: [seen] is the set of names
    met so far, [unique_units] the records kept. *)
Definition dedupe_step (acc : list string * list UnitData.t)
  (unit : UnitData.t) : list string * list UnitData.t :=
  let (seen, unique_units) := acc in
  if existsb (String.eqb (UnitData.name unit)) seen then acc
  else (UnitData.name unit :: seen, unique_units ++ [unit]).

Definition unique_units_of (bucket : list UnitData.t) : list UnitData.t :=
  snd (fold_left dedupe_step bucket ([], [])).

(** *** [_load_category_units] *)

Definition exn_str (e : exn) : string :=
  match e with
  | KeyError k => ("'" ++ k ++ "'")%string
  | IndexError m => m
  | JSONDecodeError m => m
  | OtherException m => m
  end.

Definition make_unit (json_file : JsonFile) (unit_name : option string)
  (data : dict json) (faction subfaction category : string) : UnitData.t :=
  {| UnitData.name :=
       match unit_name with Some n => n | None => stem json_file end;
     UnitData.faction := faction;
     UnitData.subfaction := subfaction;
     UnitData.category := category;
     UnitData.infobox_data := PyDict.get_default data "infobox_data" (JObject []);
     UnitData.icon_filename := PyDict.get_default data "icon_filename" (JStr "");
     UnitData.icon_url := PyDict.get_default data "icon_url" (JStr "");
     UnitData.article_tables := PyDict.get_default data "article_tables" (JList [])
  |}.

(** [f"{faction}_{subfaction}_{category}_{unit.name}"] *)
Definition unit_key (u : UnitData.t) : string :=
  (UnitData.faction u ++ "_" ++ UnitData.subfaction u ++ "_" ++
   UnitData.category u ++ "_" ++ UnitData.name u)%string.

(** The body of the loop over the files of one category directory. *)
Definition load_json_file (category_dir : Path)
  (faction subfaction category : string)
  (st : DataManager * nat) (json_file : JsonFile) : DataManager * nat :=
  let (self, units_loaded) := st in
  let shown := path_str (file_path category_dir json_file) in
  match outcome json_file with
  | Parsed unit_name data =>
      let unit := make_unit json_file unit_name data faction subfaction category in
      let self := set_units self (PyDict.set (units self) (unit_key unit) unit) in
      let fu := faction_units self in
      match PyDict.get fu faction with
      | Some subs =>
          match PyDict.get subs subfaction with
          | Some cats =>
              match PyDict.get cats category with
              | Some bucket =>
                  (set_faction_units self
                     (PyDict.set fu faction
                        (PyDict.set subs subfaction
                           (PyDict.set cats category (bucket ++ [unit])))),
                   S units_loaded)
              | None =>
                  (print ("Category " ++ category ++ " not found for " ++
                          faction ++ "/" ++ subfaction)%string self,
                   units_loaded)
              end
          | None =>
              (print ("Subfaction " ++ subfaction ++ " not found for " ++
                      faction)%string self, units_loaded)
          end
      | None =>
          (print ("Faction " ++ faction ++ " not found in faction_units")%string
             self, units_loaded)
      end
  | Raises (JSONDecodeError m) =>
      (print ("JSON decode error in " ++ shown ++ ": " ++ m)%string self,
       units_loaded)
  | Raises (KeyError k) =>
      (print ("KeyError in " ++ shown ++ ": " ++ exn_str (KeyError k))%string
         self, units_loaded)
  | Raises e =>
      (emit (Traceback e)
         (print ("Error loading " ++ shown ++ ": " ++ exn_str e)%string self),
       units_loaded)
  end.

Definition load_category (fs : FileSystem) (directory : Path)
  (faction subfaction : string) (self : DataManager) (category : string)
  : DataManager :=
  let category_dir := directory ++ [Str.replace_space "_" category] in
  if negb (exists_ fs category_dir) then self
  else
    let (self, units_loaded) :=
      fold_left (load_json_file category_dir faction subfaction category)
        (glob_json fs category_dir) (self, 0) in
    if (0 <? units_loaded)%nat then
      print ("Loaded " ++ Str.of_nat units_loaded ++ " " ++ category ++
             " for " ++ subfaction)%string self
    else self.

Definition _load_category_units (fs : FileSystem) (directory : Path)
  (faction subfaction : string) (self : DataManager) : DataManager :=
  fold_left (load_category fs directory faction subfaction)
    UNIT_CATEGORIES self.

(** *** [_load_units_from_directory] *)

Definition temp_subfaction : string := "_base_faction_".

(** The first variant of a name that exists under [parent]. *)
Fixpoint first_existing (fs : FileSystem) (parent : Path)
  (variants : list string) : option Path :=
  match variants with
  | [] => None
  | variant :: rest =>
      let potential_dir := parent ++ [variant] in
      if exists_ fs potential_dir then Some potential_dir
      else first_existing fs parent rest
  end.

Definition faction_variants (faction_name : string) : list string :=
  [ faction_name;
    Str.replace_space "_" faction_name;
    Str.replace_space "" faction_name ].

Definition subfaction_variants (subfaction_name : string)
  : result (list string) :=
  first_word <- (if Str.has_space subfaction_name
                 then Str.split_first subfaction_name
                 else Ok subfaction_name) ;;
  Ok [ subfaction_name;
       Str.replace_space "_" subfaction_name;
       Str.replace_space "" subfaction_name;
       first_word ].

(** [for category, units in base_faction_units.items():
       self.faction_units[f][s][category].extend(units)] *)
Definition inherit_base (faction_name subfaction_name : string)
  (base_faction_units : dict (list UnitData.t)) (self : DataManager)
  : result DataManager :=
  for_each (PyDict.items base_faction_units)
    (fun item self =>
       on_catalog
         (extend_bucket faction_name subfaction_name (fst item) (snd item))
         self)
    self.

(** The "Remove duplicates and sort" loop. *)
Definition dedupe_and_sort (faction_name subfaction_name : string)
  (self : DataManager) : result DataManager :=
  for_each UNIT_CATEGORIES
    (fun category self =>
       bucket <- read_bucket faction_name subfaction_name category
                   (faction_units self) ;;
       let unique_units := unique_units_of bucket in
       on_catalog
         (assign_bucket faction_name subfaction_name category
            (sorted_by UnitData.name unique_units))
         self)
    self.

Definition load_subfaction (fs : FileSystem) (faction_dir : Path)
  (faction_name : string) (base_faction_units : dict (list UnitData.t))
  (subfaction_name : string) (self : DataManager) : result DataManager :=
  variants <- subfaction_variants subfaction_name ;;
  match first_existing fs (faction_dir ++ ["subfaction"]) variants with
  | Some subfaction_dir =>
      let self :=
        print ("Loading subfaction: " ++ subfaction_name ++ " from " ++
               path_str subfaction_dir)%string self in
      let self :=
        _load_category_units fs subfaction_dir faction_name subfaction_name
          self in
      self <- inherit_base faction_name subfaction_name base_faction_units
                self ;;
      dedupe_and_sort faction_name subfaction_name self
  | None =>
      let self :=
        print ("Subfaction directory not found for " ++ subfaction_name)%string
          self in
      inherit_base faction_name subfaction_name base_faction_units self
  end.

(** [base_faction_units[category] = ...[temp_subfaction][category].copy()]
    for every category. *)
Definition copy_base (faction_name : string) (fu : catalog)
  : result (dict (list UnitData.t)) :=
  for_each UNIT_CATEGORIES
    (fun category base_faction_units =>
       bucket <- read_bucket faction_name temp_subfaction category fu ;;
       Ok (PyDict.set base_faction_units category bucket))
    PyDict.empty.

Definition load_faction (fs : FileSystem) (base_path : Path)
  (entry : string * FactionData) (self : DataManager) : result DataManager :=
  let (faction_name, faction_data) := entry in
  match first_existing fs base_path (faction_variants faction_name) with
  | None =>
      Ok (print ("Faction directory not found: " ++ faction_name)%string self)
  | Some faction_dir =>
      let self :=
        print ("Loading faction: " ++ faction_name ++ " from " ++
               path_str faction_dir)%string self in
      self <- on_catalog (assign_subfaction faction_name temp_subfaction)
                self ;;
      self <- for_each UNIT_CATEGORIES
                (fun category =>
                   on_catalog
                     (assign_bucket faction_name temp_subfaction category []))
                self ;;
      let self :=
        _load_category_units fs faction_dir faction_name temp_subfaction
          self in
      base_faction_units <- copy_base faction_name (faction_units self) ;;
      self <- on_catalog (delete_subfaction faction_name temp_subfaction)
                self ;;
      for_each (PyDict.keys (subfactions faction_data))
        (load_subfaction fs faction_dir faction_name base_faction_units)
        self
  end.

Definition _load_units_from_directory (fs : FileSystem) (base_path : Path)
  (self : DataManager) : result DataManager :=
  for_each (PyDict.items FACTION_HIERARCHY) (load_faction fs base_path) self.

(** *** [_build_search_index], [_load_data] *)

Definition search_item_of (unit : UnitData.t) : SearchItem.t :=
  {| SearchItem.name := UnitData.name unit;
     SearchItem.faction := UnitData.faction unit;
     SearchItem.subfaction := UnitData.subfaction unit;
     SearchItem.category := UnitData.category unit;
     SearchItem.unit_data := unit |}.

Definition _build_search_index (self : DataManager) : DataManager :=
  let index := map search_item_of (PyDict.values (units self)) in
  set_search_index self
    (sorted_by (fun x => Str.lower (SearchItem.name x)) index).

(** The three nested loops that create the empty buckets. *)
Definition init_structure (self : DataManager) : result DataManager :=
  for_each (PyDict.items FACTION_HIERARCHY)
    (fun entry self =>
       let faction := fst entry in
       let self :=
         set_faction_units self (assign_faction faction (faction_units self)) in
       for_each (PyDict.keys (subfactions (snd entry)))
         (fun subfaction self =>
            self <- on_catalog (assign_subfaction faction subfaction) self ;;
            for_each UNIT_CATEGORIES
              (fun category =>
                 on_catalog (assign_bucket faction subfaction category []))
              self)
         self)
    self.

Definition data_path : Path := ["sterilized data box"].

Definition _load_data (fs : FileSystem) (self : DataManager)
  : result DataManager :=
  if negb (exists_ fs data_path) then
    Ok (emit (ShowError "Data Error"
                ("Data directory not found: " ++ path_str data_path)%string)
          self)
  else
    self <- init_structure self ;;
    self <- _load_units_from_directory fs data_path self ;;
    Ok (_build_search_index self).

(** [DataManager()] *)
Definition DataManager_init (fs : FileSystem) : result DataManager :=
  _load_data fs new_manager.

(** *** [search_units], [get_units_for_path] *)

Definition matches (query : string) (item : SearchItem.t) : bool :=
  Str.contains query (Str.lower (SearchItem.name item)) ||
  Str.contains query (Str.lower (SearchItem.faction item)) ||
  Str.contains query (Str.lower (SearchItem.subfaction item)) ||
  Str.contains query (Str.lower (SearchItem.category item)).

Definition search_units (self : DataManager) (query : string)
  : list SearchItem.t :=
  match query with
  | EmptyString => []
  | _ =>
      let query := Str.lower query in
      filter (matches query) (search_index self)
  end.

Definition get_units_for_path (self : DataManager) (faction : string)
  (subfaction category : option string) : result (list UnitData.t) :=
  let fu := faction_units self in
  if negb (PyDict.mem fu faction) then Ok []
  else
    match subfaction with
    | None =>
        subs <- PyDict.getitem fu faction ;;
        Ok (List.concat (map (fun sub => List.concat (PyDict.values sub))
                      (PyDict.values subs)))
    | Some subfaction =>
        subs <- PyDict.getitem fu faction ;;
        if negb (PyDict.mem subs subfaction) then Ok []
        else
          match category with
          | None =>
              cats <- PyDict.getitem subs subfaction ;;
              Ok (List.concat (PyDict.values cats))
          | Some category =>
              cats <- PyDict.getitem subs subfaction ;;
              if negb (PyDict.mem cats category) then Ok []
              else PyDict.getitem cats category
          end
    end.

(** ** ThemeManager and the settings file *)

Definition DEFAULT_THEME : dict json :=
  [ ("bg", JStr "#1e1e1e"); ("fg", JStr "#ffffff");
    ("select_bg", JStr "#404040"); ("select_fg", JStr "#ffffff");
    ("button_bg", JStr "#2d2d2d"); ("button_fg", JStr "#ffffff");
    ("button_active_bg", JStr "#505050"); ("title_bg", JStr "#2d2d30");
    ("title_fg", JStr "#ffffff"); ("border", JStr "#3c3c3c");
    ("accent", JStr "#007acc"); ("hover", JStr "#505050") ].

Definition DEFAULT_CUSTOM_SETTINGS : dict json :=
  [ ("opacity", JFloat 0.9%float); ("font_family", JStr "Segoe UI");
    ("font_size", JInt 10); ("font_weight", JStr "normal");
    ("icon_scale", JFloat 1.0%float); ("ui_scale", JFloat 1.0%float);
    ("bold_text", JBool false) ].

Record ThemeManager : Type := {
  current_theme : dict json;
  custom_settings : dict json
}.

(** What [mental_omega_settings.json] holds: nothing that [open] and
    [json.load] get through, or a JSON document.  [json.dump] followed by
    [json.load] gives back the document it was given, so the file is kept as
    the document itself.  [writable] tells whether [open(..., 'w')]
    succeeds; when it does not the file is left as it was.  A write that
    fails after the file was opened is not described. *)
Inductive file_content : Type :=
| Unreadable
| Document (settings : json).

Record Disk : Type := {
  settings_file : option file_content;
  writable : bool
}.

(** [d.update(other)] for a value read from the file.  An object is merged
    key by key; any other value is taken to raise ([save_settings] writes
    objects only). *)
Definition update_from (d : dict json) (other : json) : result (dict json) :=
  match other with
  | JObject members => Ok (PyDict.update d members)
  | _ => Raise (OtherException "cannot update from a value that is not an object")
  end.

Definition load_settings (disk : Disk) (self : ThemeManager) : ThemeManager :=
  match settings_file disk with
  | None => self
  | Some Unreadable => self
  | Some (Document (JObject settings)) =>
      match update_from (current_theme self)
              (PyDict.get_default settings "theme" (JObject [])) with
      | Raise _ => self
      | Ok theme =>
          let self := {| current_theme := theme;
                         custom_settings := custom_settings self |} in
          match update_from (custom_settings self)
                  (PyDict.get_default settings "custom" (JObject [])) with
          | Raise _ => self
          | Ok custom =>
              {| current_theme := current_theme self;
                 custom_settings := custom |}
          end
      end
  | Some (Document _) => self
  end.

Definition save_settings (self : ThemeManager) (disk : Disk) : Disk :=
  if writable disk then
    let settings :=
      JObject [ ("theme", JObject (current_theme self));
                ("custom", JObject (custom_settings self)) ] in
    {| settings_file := Some (Document settings); writable := true |}
  else disk.

(** [ThemeManager()] *)
Definition ThemeManager_init (disk : Disk) : ThemeManager :=
  load_settings disk
    {| current_theme := DEFAULT_THEME;
       custom_settings := DEFAULT_CUSTOM_SETTINGS |}.

(** ** What the statements below observe *)

(** The bucket of a (faction, subfaction, category) path, if the path is in
    the catalog. *)
Definition bucket (fu : catalog) (f s c : string)
  : option (list UnitData.t) :=
  match PyDict.get fu f with
  | Some subs =>
      match PyDict.get subs s with
      | Some cats => PyDict.get cats c
      | None => None
      end
  | None => None
  end.

Definition at3 (F S C f s c : string) : bool :=
  String.eqb F f && String.eqb S s && String.eqb C c.

(** The records the loader builds from the files of a listing that parse,
    in the order of the listing. *)
Definition parsed_units (faction subfaction category : string)
  (files : list JsonFile) : list UnitData.t :=
  flat_map
    (fun json_file =>
       match outcome json_file with
       | Parsed unit_name data =>
           [make_unit json_file unit_name data faction subfaction category]
       | Raises _ => []
       end)
    files.

(** The records loaded for one category from the category folder of
    [directory]. *)
Definition category_units (fs : FileSystem) (directory : Path)
  (faction subfaction category : string) : list UnitData.t :=
  let category_dir := directory ++ [Str.replace_space "_" category] in
  if exists_ fs category_dir
  then parsed_units faction subfaction category (glob_json fs category_dir)
  else [].

(** The directory the loader settles on for a faction and for one of its
    subfactions. *)
Definition faction_dir (fs : FileSystem) (faction_name : string)
  : option Path :=
  first_existing fs data_path (faction_variants faction_name).

Definition subfaction_dir (fs : FileSystem) (fdir : Path)
  (subfaction_name : string) : option Path :=
  match subfaction_variants subfaction_name with
  | Ok variants => first_existing fs (fdir ++ ["subfaction"]) variants
  | Raise _ => None
  end.

(** The base-faction records of a category: those loaded directly under
    the faction directory. *)
Definition base_units (fs : FileSystem) (fdir : Path)
  (faction_name category : string) : list UnitData.t :=
  category_units fs fdir faction_name temp_subfaction category.

(** [faction_name] is declared in the hierarchy with [subfaction_name] as
    one of its subfactions. *)
Definition declared (faction_name subfaction_name : string) : Prop :=
  exists faction_data,
    In (faction_name, faction_data) (PyDict.items FACTION_HIERARCHY) /\
    In subfaction_name (PyDict.keys (subfactions faction_data)).

Definition has_name (n : string) (u : UnitData.t) : bool :=
  String.eqb (UnitData.name u) n.

(** [q] occurs in [s]. *)
Definition substring_of (q s : string) : Prop :=
  exists a b : string, s = (a ++ q ++ b)%string.

(** [l1] is [l2] with some elements left out, the others in their order. *)
Inductive subsequence {A : Type} : list A -> list A -> Prop :=
| subseq_nil : subsequence [] []
| subseq_skip x l1 l2 : subsequence l1 l2 -> subsequence l1 (x :: l2)
| subseq_keep x l1 l2 : subsequence l1 l2 -> subsequence (x :: l1) (x :: l2).

Definition name_le (a b : UnitData.t) : Prop :=
  String.leb (UnitData.name a) (UnitData.name b) = true.

Definition lower_name_le (a b : SearchItem.t) : Prop :=
  String.leb (Str.lower (SearchItem.name a)) (Str.lower (SearchItem.name b))
  = true.

(** ** A concrete data directory

    [tree dirs listings] is the file system in which exactly the paths of
    [dirs] exist and a directory lists the files [listings] gives it. *)

Fixpoint path_eqb (p q : Path) : bool :=
  match p, q with
  | [], [] => true
  | a :: p', b :: q' => String.eqb a b && path_eqb p' q'
  | _, _ => false
  end.

Definition tree (dirs : list Path) (listings : list (Path * list JsonFile))
  : FileSystem :=
  {| exists_ := fun p => existsb (path_eqb p) dirs;
     glob_json := fun p =>
       match find (fun entry => path_eqb (fst entry) p) listings with
       | Some entry => snd entry
       | None => []
       end |}.

Definition unit_file (file_stem unit_name : string) : JsonFile :=
  {| stem := file_stem; outcome := Parsed (Some unit_name) [] |}.

Definition broken_file (file_stem : string) : JsonFile :=
  {| stem := file_stem;
     outcome := Raises (JSONDecodeError "Expecting value: line 1 column 1 (char 0)") |}.

Definition soviet_dir : Path := ["sterilized data box"; "Soviet Union"].

(** The Soviet Union with two base units of its own (one of them in two
    files, and a file that does not parse), a directory for Russia, and no
    directory for the other subfactions. *)
Definition example_fs : FileSystem :=
  tree
    [ data_path; soviet_dir; soviet_dir ++ ["Infantry"];
      soviet_dir ++ ["subfaction"; "Russia"];
      soviet_dir ++ ["subfaction"; "Russia"; "Infantry"] ]
    [ (soviet_dir ++ ["Infantry"],
       [ unit_file "tesla_trooper" "Tesla Trooper";
         broken_file "draft";
         unit_file "conscript" "Conscript";
         unit_file "conscript_old" "Conscript" ]);
      (soviet_dir ++ ["subfaction"; "Russia"; "Infantry"],
       [ unit_file "tesla_trooper" "Tesla Trooper";
         unit_file "flak_trooper" "Flak Trooper" ]) ].

Definition example_unit (name faction subfaction category : string)
  : UnitData.t :=
  {| UnitData.name := name; UnitData.faction := faction;
     UnitData.subfaction := subfaction; UnitData.category := category;
     UnitData.infobox_data := JObject []; UnitData.icon_filename := JStr "";
     UnitData.icon_url := JStr ""; UnitData.article_tables := JList [] |}.

(** The manager that [DataManager()] builds on [example_fs]. *)
Definition example_loaded : DataManager :=
  Eval vm_compute in
    match DataManager_init example_fs with
    | Ok st => st
    | Raise _ => new_manager
    end.

Definition soviet_data : FactionData :=
  {| icon := "Sovicon";
     subfactions := [ ("Russia", "Russiaicon");
                      ("Latin Confederation", "Confederationicon");
                      ("China", "Chinaicon") ] |}.

(** Settings with the opacity moved away from its default, and a disk
    without a settings file. *)
Definition example_settings : ThemeManager :=
  {| current_theme := DEFAULT_THEME;
     custom_settings :=
       PyDict.set DEFAULT_CUSTOM_SETTINGS "opacity" (JFloat 0.75%float) |}.

Definition empty_disk : Disk :=
  {| settings_file := None; writable := true |}.

(** ** Notions used to state and prove the properties *)

(** [fu'] is [fu] with the bucket at (F, S, C), when there is one, changed
    by [g]. *)
Definition bucket_effect (fu fu' : catalog) (F S C : string)
  (g : list UnitData.t -> list UnitData.t) : Prop :=
  forall f s c,
    bucket fu' f s c =
    if at3 F S C f s c then option_map g (bucket fu f s c)
    else bucket fu f s c.

Definition look3 (st : DataManager) (k : string * string * string)
  : option (list UnitData.t) :=
  bucket (faction_units st) (fst (fst k)) (snd (fst k)) (snd k).

(** [fu'] is [fu] with the buckets of (F, S) changed by [g]. *)
Definition sub_effect (fu fu' : catalog) (F S : string)
  (g : string -> list UnitData.t -> list UnitData.t) : Prop :=
  forall f s c,
    bucket fu' f s c =
    if String.eqb F f && String.eqb S s
    then option_map (g c) (bucket fu f s c)
    else bucket fu f s c.

Definition on_categories (h : string -> list UnitData.t -> list UnitData.t)
  (c : string) (b : list UnitData.t) : list UnitData.t :=
  if existsb (String.eqb c) UNIT_CATEGORIES then h c b else b.

(** The dictionary of base-faction records, one entry per category. *)
Definition base_dict (B : string -> list UnitData.t)
  : dict (list UnitData.t) :=
  map (fun c => (c, B c)) UNIT_CATEGORIES.

(** What loading subfaction [S] does to its bucket of category [c], given
    the base-faction records [B c]. *)
Definition sub_transform (fs : FileSystem) (fdir : Path) (F : string)
  (B : string -> list UnitData.t) (S c : string) (b : list UnitData.t)
  : list UnitData.t :=
  match subfaction_dir fs fdir S with
  | Some sdir =>
      sorted_by UnitData.name
        (unique_units_of ((b ++ category_units fs sdir F S c) ++ B c))
  | None => b ++ B c
  end.

(** What loading faction [F] does to the bucket (F, s, c). *)
Definition faction_transform (fs : FileSystem) (F s c : string)
  (b : list UnitData.t) : list UnitData.t :=
  match faction_dir fs F with
  | Some fdir => sub_transform fs fdir F (base_units fs fdir F) s c b
  | None => b
  end.

(** The catalog without the temporary subfaction. *)
Definition look_declared (st : DataManager) (k : string * string * string)
  : option (list UnitData.t) :=
  if String.eqb (snd (fst k)) temp_subfaction then None
  else bucket (faction_units st) (fst (fst k)) (snd (fst k)) (snd k).

Definition faction_region (entry : string * FactionData)
  (k : string * string * string) : bool :=
  String.eqb (fst entry) (fst (fst k)) &&
  existsb (String.eqb (snd (fst k))) (PyDict.keys (subfactions (snd entry))).

(** The bucket the load leaves at a declared path. *)
Definition expected_bucket (fs : FileSystem) (F s c : string)
  : list UnitData.t :=
  match faction_dir fs F with
  | None => []
  | Some fdir =>
      match subfaction_dir fs fdir s with
      | Some sdir =>
          sorted_by UnitData.name
            (unique_units_of
               (category_units fs sdir F s c ++ base_units fs fdir F c))
      | None => base_units fs fdir F c
      end
  end.

(** A loop on a state observed through [look]: the turn for [a] changes
    what is observed at the keys of its region [R a] by [g a]. *)
Section Regions.
Variables (St K V A : Type).
Variable look : St -> K -> option V.
Variable R : A -> K -> bool.
Variable g : A -> K -> V -> V.

Definition turn_effect (a : A) (st st' : St) : Prop :=
  forall k, look st' k =
            if R a k then option_map (g a k) (look st k) else look st k.

(** The regions of the turns are pairwise disjoint. *)
Fixpoint disjoint_regions (xs : list A) : Prop :=
  match xs with
  | [] => True
  | a :: xs' =>
      (forall a' k, In a' xs' -> R a k = true -> R a' k = false) /\
      disjoint_regions xs'
  end.
End Regions.

(** Order of two values by their keys, as [sorted(..., key=key)] compares. *)
Definition key_le (A : Type) (key : A -> string) (a b : A) : Prop :=
  String.leb (key a) (key b) = true.

(** A path that the catalog does not hold: the faction is unknown, or the
    subfaction is unknown under a known faction, or the category is unknown
    under a known subfaction. *)
Definition unknown_path (fu : catalog) (faction : string)
  (subfaction category : option string) : Prop :=
  PyDict.mem fu faction = false \/
  (exists subs s,
      subfaction = Some s /\ PyDict.get fu faction = Some subs /\
      PyDict.mem subs s = false) \/
  (exists subs s cats c,
      subfaction = Some s /\ category = Some c /\
      PyDict.get fu faction = Some subs /\ PyDict.get subs s = Some cats /\
      PyDict.mem cats c = false).

Definition example_manager : DataManager :=
  set_faction_units new_manager
    [ ("Soviet Union",
       [ ("Russia",
          [ ("Infantry",
             [ example_unit "Conscript" "Soviet Union" temp_subfaction "Infantry";
               example_unit "Tesla Trooper" "Soviet Union" "Russia" "Infantry" ]);
            ("Vehicles",
             [ example_unit "Rhino Tank" "Soviet Union" temp_subfaction "Vehicles" ]) ]);
         ("China",
          [ ("Infantry",
             [ example_unit "Conscript" "Soviet Union" temp_subfaction "Infantry" ]) ]) ]) ].

(** The paths under which the loader files a record: every declared
    faction, with the placeholder or one of its subfactions, and every
    category. *)
Definition origin_triples : list (string * string * string) :=
  flat_map
    (fun entry =>
       flat_map
         (fun s => map (fun c => (fst entry, s, c)) UNIT_CATEGORIES)
         (temp_subfaction :: PyDict.keys (subfactions (snd entry))))
    (PyDict.items FACTION_HIERARCHY).

Definition triple_of (u : UnitData.t) : string * string * string :=
  (UnitData.faction u, UnitData.subfaction u, UnitData.category u).

Definition origin (u : UnitData.t) : Prop := In (triple_of u) origin_triples.

Definition key_prefix (t : string * string * string) : string :=
  (fst (fst t) ++ "_" ++ snd (fst t) ++ "_" ++ snd t ++ "_")%string.

Definition triple_eqb (t t' : string * string * string) : bool :=
  String.eqb (fst (fst t)) (fst (fst t')) &&
  String.eqb (snd (fst t)) (snd (fst t')) &&
  String.eqb (snd t) (snd t').

(** [d'] is [d] after some records were filed under their own keys: what
    is new is filed by [unit_key] and comes from a path of the loader, and
    no key is lost. *)
Definition units_grow (d d' : dict UnitData.t) : Prop :=
  (forall k v, In (k, v) d' -> In (k, v) d \/ (k = unit_key v /\ origin v)) /\
  (forall k, PyDict.mem d k = true -> PyDict.mem d' k = true).

(** ** The keys of the catalog

    [catalog_shape] forgets the records and keeps the keys: the factions in
    their order, under each the subfactions in their order, under each the
    categories in their order.  The statements on the catalog act on shapes
    as [shape_assign_subfaction], [shape_assign_bucket] and
    [shape_delete_subfaction] say. *)

Definition dmap {V W : Type} (g : V -> W) (d : dict V) : dict W :=
  map (fun entry => (fst entry, g (snd entry))) d.

Definition catalog_shape (fu : catalog) : dict (dict (list string)) :=
  dmap (dmap (fun bucket_dict : dict (list UnitData.t) =>
                PyDict.keys bucket_dict)) fu.

(** The shape [_load_data] sets up: every declared faction, subfaction and
    category. *)
Definition hierarchy_shape : dict (dict (list string)) :=
  map (fun entry =>
         (fst entry,
          map (fun s => (s, UNIT_CATEGORIES))
            (PyDict.keys (subfactions (snd entry)))))
    FACTION_HIERARCHY.

Definition add_key (ks : list string) (k : string) : list string :=
  if existsb (String.eqb k) ks then ks else ks ++ [k].

Definition shape_assign_subfaction (f s : string)
  (sh : dict (dict (list string))) : dict (dict (list string)) :=
  match PyDict.get sh f with
  | Some subs => PyDict.set sh f (PyDict.set subs s [])
  | None => sh
  end.

Definition shape_assign_bucket (f s c : string)
  (sh : dict (dict (list string))) : dict (dict (list string)) :=
  match PyDict.get sh f with
  | Some subs =>
      match PyDict.get subs s with
      | Some ks => PyDict.set sh f (PyDict.set subs s (add_key ks c))
      | None => sh
      end
  | None => sh
  end.

Definition shape_delete_subfaction (f s : string)
  (sh : dict (dict (list string))) : dict (dict (list string)) :=
  match PyDict.get sh f with
  | Some subs => PyDict.set sh f (PyDict.remove subs s)
  | None => sh
  end.

(** The shape after the turn of a faction whose directory is found: the
    temporary subfaction is created with its categories and deleted. *)
Definition shape_after_faction (f : string) (sh : dict (dict (list string)))
  : dict (dict (list string)) :=
  shape_delete_subfaction f temp_subfaction
    (fold_left (fun acc c => shape_assign_bucket f temp_subfaction c acc)
       UNIT_CATEGORIES
       (shape_assign_subfaction f temp_subfaction sh)).

(** ** The comparison list of the main window

    [MentalOmegaArsenal.comparison_units] is a list of [UnitData];
    [unit in self.comparison_units] and [list.remove] compare with the
    [==] that [@dataclass] generates for [UnitData], which is not in the
    source and is the parameter [unit_eq]. *)
Section Comparison.
Variable unit_eq : UnitData.t -> UnitData.t -> bool.

(** [unit in comparison_units] *)
Definition in_comparison (comparison_units : list UnitData.t)
  (unit : UnitData.t) : bool :=
  existsb (fun item => unit_eq item unit) comparison_units.

(** [comparison_units.remove(unit)]: the first item equal to [unit] goes;
    [ValueError] when there is none. *)
Fixpoint list_remove (comparison_units : list UnitData.t) (unit : UnitData.t)
  : result (list UnitData.t) :=
  match comparison_units with
  | [] => Raise (OtherException "list.remove(x): x not in list")
  | item :: rest =>
      if unit_eq item unit then Ok rest
      else rest' <- list_remove rest unit ;; Ok (item :: rest')
  end.

Definition toggle_comparison (comparison_units : list UnitData.t)
  (unit : UnitData.t) : result (list UnitData.t) :=
  if in_comparison comparison_units unit
  then list_remove comparison_units unit
  else Ok (comparison_units ++ [unit]).

(** No two items of the list are equal. *)
Fixpoint distinct_units (l : list UnitData.t) : Prop :=
  match l with
  | [] => True
  | item :: rest =>
      (forall other, In other rest -> unit_eq item other = false) /\
      distinct_units rest
  end.
End Comparison.

(** An equality on records to try the comparison list with: same key. *)
Definition same_key (a b : UnitData.t) : bool :=
  String.eqb (unit_key a) (unit_key b).

(** The settings file, when it holds an object, gives objects for its
    theme and custom sections (or leaves them out): what [save_settings]
    writes, and what [dict.update] merges key by key. *)
Definition is_object (value : json) : bool :=
  match value with
  | JObject _ => true
  | _ => false
  end.

Definition object_sections (disk : Disk) : bool :=
  match settings_file disk with
  | Some (Document (JObject settings)) =>
      is_object (PyDict.get_default settings "theme" (JObject [])) &&
      is_object (PyDict.get_default settings "custom" (JObject []))
  | _ => true
  end.

(** Two managers that hold the same data: they differ in the console
    only. *)
Definition same_manager (a b : DataManager) : Prop :=
  units a = units b /\
  faction_units a = faction_units b /\
  search_index a = search_index b.







(** * Properties *)

Unset Implicit Arguments.

(** ** Dictionaries *)

Module PyDictFacts.
Section Facts.
Variable V : Type.
Implicit Types (d : dict V) (k : string) (v : V).

Lemma get_set d k k' v :
  PyDict.get (PyDict.set d k v) k' =
  if String.eqb k k' then Some v else PyDict.get d k'.
Proof.
  induction d as [|[k0 v0] d IH]; simpl.
  - reflexivity.
  - destruct (String.eqb_spec k0 k) as [->|Hne]; simpl.
    + destruct (String.eqb k k'); reflexivity.
    + rewrite IH. destruct (String.eqb_spec k0 k') as [->|Hne'].
      * destruct (String.eqb_spec k k') as [->|_]; [congruence|reflexivity].
      * reflexivity.
Qed.

Lemma get_set_same d k v : PyDict.get (PyDict.set d k v) k = Some v.
Proof. rewrite get_set, String.eqb_refl. reflexivity. Qed.

Lemma get_set_other d k k' v :
  k <> k' -> PyDict.get (PyDict.set d k v) k' = PyDict.get d k'.
Proof.
  intros Hne. rewrite get_set.
  destruct (String.eqb_spec k k'); [contradiction|reflexivity].
Qed.

Lemma get_remove_other d k k' :
  k <> k' -> PyDict.get (PyDict.remove d k) k' = PyDict.get d k'.
Proof.
  intros Hne. induction d as [|[k0 v0] d IH]; simpl.
  - reflexivity.
  - destruct (String.eqb_spec k0 k) as [->|Hk].
    + destruct (String.eqb_spec k k'); [contradiction|reflexivity].
    + simpl. rewrite IH. reflexivity.
Qed.

Lemma set_same_value d k v : PyDict.get d k = Some v -> PyDict.set d k v = d.
Proof.
  induction d as [|[k0 v0] d IH]; simpl.
  - discriminate.
  - destruct (String.eqb_spec k0 k) as [->|Hk].
    + intros [= ->]. reflexivity.
    + intros H. rewrite (IH H). reflexivity.
Qed.

Lemma get_In d k v : PyDict.get d k = Some v -> In (k, v) d.
Proof.
  induction d as [|[k0 v0] d IH]; simpl.
  - discriminate.
  - destruct (String.eqb_spec k0 k) as [->|Hk].
    + intros [= ->]. now left.
    + intros H. right. now apply IH.
Qed.

Lemma get_None_not_key d k : PyDict.get d k = None -> ~ In k (PyDict.keys d).
Proof.
  induction d as [|[k0 v0] d IH]; simpl.
  - intros _ [].
  - destruct (String.eqb_spec k0 k) as [->|Hk].
    + discriminate.
    + intros H [E|Hin]; [contradiction|]. now apply IH.
Qed.

Lemma key_get d k : In k (PyDict.keys d) -> exists v, PyDict.get d k = Some v.
Proof.
  intros Hin. destruct (PyDict.get d k) as [v|] eqn:E.
  - now exists v.
  - now apply get_None_not_key in E.
Qed.

Lemma In_get d k v :
  PyDict.wf d -> In (k, v) d -> PyDict.get d k = Some v.
Proof.
  unfold PyDict.wf. induction d as [|[k0 v0] d IH]; simpl.
  - intros _ [].
  - intros Hnd [E|Hin].
    + injection E as -> ->. now rewrite String.eqb_refl.
    + inversion Hnd as [|? ? Hnot Hnd']; subst.
      destruct (String.eqb_spec k0 k) as [->|Hk].
      * exfalso. apply Hnot. unfold PyDict.keys.
        change k with (fst (k, v)). now apply in_map.
      * now apply IH.
Qed.

Lemma In_set d k v k' v' :
  In (k', v') (PyDict.set d k v) -> (k' = k /\ v' = v) \/ In (k', v') d.
Proof.
  induction d as [|[k0 v0] d IH]; simpl.
  - intros [[= <- <-]|[]]. now left.
  - destruct (String.eqb_spec k0 k) as [->|Hk]; simpl.
    + intros [[= <- <-]|Hin]; [now left|right; now right].
    + intros [E|Hin]; [right; now left|].
      destruct (IH Hin) as [?|?]; [now left|right; now right].
Qed.

Lemma mem_set d k k' v :
  PyDict.mem d k' = true -> PyDict.mem (PyDict.set d k v) k' = true.
Proof.
  unfold PyDict.mem. rewrite get_set.
  destruct (String.eqb k k'); [reflexivity|auto].
Qed.

(** Setting every item of a dictionary that already holds it changes
    nothing. *)
Lemma fold_set_present (l : list (string * V)) d :
  (forall k v, In (k, v) l -> PyDict.get d k = Some v) ->
  fold_left (fun acc kv => PyDict.set acc (fst kv) (snd kv)) l d = d.
Proof.
  induction l as [|[k v] l IH]; simpl; intros H.
  - reflexivity.
  - rewrite (set_same_value d k v) by (apply H; now left).
    apply IH. intros k' v' Hin. apply H. now right.
Qed.

Lemma update_self d : PyDict.wf d -> PyDict.update d d = d.
Proof.
  intros Hwf. unfold PyDict.update. apply fold_set_present.
  intros k v Hin. now apply In_get.
Qed.

Lemma get_fold_set_notin (l : list (string * V)) d k :
  ~ In k (map fst l) ->
  PyDict.get (fold_left (fun acc kv => PyDict.set acc (fst kv) (snd kv)) l d) k
  = PyDict.get d k.
Proof.
  revert d. induction l as [|[k0 v0] l IH]; simpl; intros d Hnot.
  - reflexivity.
  - rewrite IH by tauto. apply get_set_other. tauto.
Qed.

Lemma get_fold_set (l : list (string * V)) d k v :
  NoDup (map fst l) -> In (k, v) l ->
  PyDict.get (fold_left (fun acc kv => PyDict.set acc (fst kv) (snd kv)) l d) k
  = Some v.
Proof.
  revert d. induction l as [|[k0 v0] l IH]; simpl; intros d Hnd Hin.
  - destruct Hin.
  - inversion Hnd as [|? ? Hnot Hnd']; subst.
    destruct Hin as [E|Hin].
    + injection E as -> ->.
      rewrite get_fold_set_notin by assumption. apply get_set_same.
    + now apply IH.
Qed.

Lemma get_update d other k v :
  PyDict.wf other -> PyDict.get other k = Some v ->
  PyDict.get (PyDict.update d other) k = Some v.
Proof.
  intros Hwf Hget. unfold PyDict.update.
  apply get_fold_set; [exact Hwf|now apply get_In].
Qed.

End Facts.
End PyDictFacts.

(** ** The nested catalog *)

Lemma bucket_set3 (fu : catalog) F S C v subs cats f s c :
  PyDict.get fu F = Some subs -> PyDict.get subs S = Some cats ->
  bucket (PyDict.set fu F (PyDict.set subs S (PyDict.set cats C v))) f s c =
  if at3 F S C f s c then Some v else bucket fu f s c.
Proof.
  intros HF HS. unfold bucket, at3.
  rewrite PyDictFacts.get_set.
  destruct (String.eqb_spec F f) as [<-|_]; simpl; [|reflexivity].
  rewrite HF, PyDictFacts.get_set.
  destruct (String.eqb_spec S s) as [<-|_]; simpl; [|reflexivity].
  rewrite HS, PyDictFacts.get_set.
  destruct (String.eqb C c); reflexivity.
Qed.

Lemma bucket_some_inv (fu : catalog) f s c b :
  bucket fu f s c = Some b ->
  exists subs cats,
    PyDict.get fu f = Some subs /\ PyDict.get subs s = Some cats /\
    PyDict.get cats c = Some b.
Proof.
  unfold bucket. intros H.
  destruct (PyDict.get fu f) as [subs|]; [|discriminate].
  destruct (PyDict.get subs s) as [cats|] eqn:HS; [|discriminate].
  exists subs, cats. repeat split; assumption.
Qed.

Lemma at3_true F S C f s c :
  at3 F S C f s c = true -> F = f /\ S = s /\ C = c.
Proof.
  unfold at3. intros H.
  apply andb_prop in H as [H HC]. apply andb_prop in H as [HF HS].
  apply String.eqb_eq in HF, HS, HC. auto.
Qed.

Lemma at3_refl F S C : at3 F S C F S C = true.
Proof. unfold at3. now rewrite !String.eqb_refl. Qed.

Lemma extend_bucket_spec F S C l (fu : catalog) b :
  bucket fu F S C = Some b ->
  exists fu', extend_bucket F S C l fu = Ok fu' /\
              bucket_effect fu fu' F S C (fun b => b ++ l).
Proof.
  intros Hb. destruct (bucket_some_inv _ _ _ _ _ Hb) as (subs & cats & HF & HS & HC).
  unfold extend_bucket, PyDict.getitem. rewrite HF. simpl. rewrite HS. simpl.
  rewrite HC. simpl. eexists. split; [reflexivity|].
  intros f s c. rewrite (bucket_set3 _ _ _ _ _ _ _ _ _ _ HF HS).
  destruct (at3 F S C f s c) eqn:E; [|reflexivity].
  apply at3_true in E as (<- & <- & <-). rewrite Hb. reflexivity.
Qed.

Lemma assign_bucket_spec F S C l (fu : catalog) b :
  bucket fu F S C = Some b ->
  exists fu', assign_bucket F S C l fu = Ok fu' /\
              bucket_effect fu fu' F S C (fun _ => l).
Proof.
  intros Hb. destruct (bucket_some_inv _ _ _ _ _ Hb) as (subs & cats & HF & HS & HC).
  unfold assign_bucket, PyDict.getitem. rewrite HF. simpl. rewrite HS. simpl.
  eexists. split; [reflexivity|].
  intros f s c. rewrite (bucket_set3 _ _ _ _ _ _ _ _ _ _ HF HS).
  destruct (at3 F S C f s c) eqn:E; [|reflexivity].
  apply at3_true in E as (<- & <- & <-). rewrite Hb. reflexivity.
Qed.

Lemma read_bucket_spec F S C (fu : catalog) b :
  bucket fu F S C = Some b -> read_bucket F S C fu = Ok b.
Proof.
  intros Hb. destruct (bucket_some_inv _ _ _ _ _ Hb) as (subs & cats & HF & HS & HC).
  unfold read_bucket, PyDict.getitem. rewrite HF. simpl. rewrite HS. simpl.
  now rewrite HC.
Qed.

Lemma bucket_effect_same (fu : catalog) F S C g :
  (forall b, g b = b) -> bucket_effect fu fu F S C g.
Proof.
  intros Hg f s c. destruct (at3 F S C f s c); [|reflexivity].
  destruct (bucket fu f s c); simpl; [now rewrite Hg|reflexivity].
Qed.

Lemma bucket_effect_ext (fu fu' : catalog) F S C g g' :
  (forall b, g b = g' b) ->
  bucket_effect fu fu' F S C g -> bucket_effect fu fu' F S C g'.
Proof.
  intros Hg H f s c. rewrite H. destruct (at3 F S C f s c); [|reflexivity].
  destruct (bucket fu f s c); simpl; [now rewrite Hg|reflexivity].
Qed.

Lemma bucket_effect_trans (fu fu1 fu2 : catalog) F S C g1 g2 :
  bucket_effect fu fu1 F S C g1 -> bucket_effect fu1 fu2 F S C g2 ->
  bucket_effect fu fu2 F S C (fun b => g2 (g1 b)).
Proof.
  intros H1 H2 f s c. rewrite H2.
  destruct (at3 F S C f s c) eqn:E; rewrite H1, E; [|reflexivity].
  destruct (bucket fu f s c); reflexivity.
Qed.

(** A loop over [xs] on a state observed through [look].  The turn for [a]
    changes what is observed at the keys of its region [R a] by [g a], and
    runs when the keys it needs ([N a]) are present.  When the regions of
    the turns are pairwise disjoint, the loop changes every key by the turn
    that owns it. *)
Section Regions.
Variables (St K V A : Type).
Variable look : St -> K -> option V.
Variable R : A -> K -> bool.
Variable N : A -> K -> Prop.
Variable g : A -> K -> V -> V.
Variable body : A -> St -> result St.

Lemma for_each_regions (xs : list A) :
  (forall a st, In a xs ->
     (forall k, N a k -> look st k <> None) ->
     exists st', body a st = Ok st' /\ turn_effect look R g a st st') ->
  disjoint_regions R xs ->
  forall st,
    (forall a k, In a xs -> N a k -> look st k <> None) ->
    exists st', for_each xs body st = Ok st' /\
      forall k, look st' k =
                match find (fun a => R a k) xs with
                | Some a => option_map (g a k) (look st k)
                | None => look st k
                end.
Proof.
  induction xs as [|a xs IH]; intros Hbody Hdis st Hpre.
  - exists st. split; reflexivity.
  - destruct Hdis as [Hdis1 Hdis].
    destruct (Hbody a st (or_introl eq_refl) (fun k => Hpre a k (or_introl eq_refl)))
      as (st1 & Hrun & Heff).
    assert (Hpre1 : forall a' k, In a' xs -> N a' k -> look st1 k <> None).
    { intros a' k Hin HN. rewrite (Heff k).
      specialize (Hpre a' k (or_intror Hin) HN).
      destruct (R a k); [|exact Hpre].
      destruct (look st k); [discriminate|congruence]. }
    destruct (IH (fun a' st' Hin => Hbody a' st' (or_intror Hin)) Hdis st1 Hpre1)
      as (st2 & Hrun2 & Heff2).
    exists st2. split.
    + simpl. rewrite Hrun. exact Hrun2.
    + intros k. rewrite Heff2, (Heff k). simpl.
      destruct (R a k) eqn:ER.
      * assert (Hnone : find (fun a0 => R a0 k) xs = None).
        { destruct (find _ xs) as [a0|] eqn:Ef; [|reflexivity].
          apply find_some in Ef as [Hin Htrue].
          rewrite (Hdis1 a0 k Hin ER) in Htrue. discriminate. }
        rewrite Hnone. reflexivity.
      * reflexivity.
Qed.
End Regions.

Lemma for_each_ok {A S : Type} (h : S -> A -> S) xs s :
  for_each xs (fun a s => Ok (h s a)) s = Ok (fold_left h xs s).
Proof.
  revert s. induction xs as [|a xs IH]; intros s; simpl; [reflexivity|apply IH].
Qed.

(** An invariant of every turn is an invariant of the loop. *)
Lemma for_each_inv {A S : Type} (P : S -> Prop)
  (body : A -> S -> result S) xs :
  (forall a s s', In a xs -> P s -> body a s = Ok s' -> P s') ->
  forall s s', P s -> for_each xs body s = Ok s' -> P s'.
Proof.
  induction xs as [|a xs IH]; intros Hbody s s' HP Hrun; simpl in Hrun.
  - now injection Hrun as <-.
  - destruct (body a s) as [s1|e] eqn:E; simpl in Hrun; [|discriminate].
    eapply IH; [|eapply Hbody; [now left|exact HP|exact E]|exact Hrun].
    intros a' t t' Hin. apply Hbody. now right.
Qed.

Lemma find_eqb_in (c : string) (l : list string) :
  In c l -> find (fun a => String.eqb a c) l = Some c.
Proof.
  induction l as [|x l IH]; simpl; [intros []|].
  destruct (String.eqb_spec x c) as [->|Hne]; [reflexivity|].
  intros [E|Hin]; [contradiction|now apply IH].
Qed.

Lemma find_eqb_notin (c : string) (l : list string) :
  ~ In c l -> find (fun a => String.eqb a c) l = None.
Proof.
  induction l as [|x l IH]; simpl; [reflexivity|].
  destruct (String.eqb_spec x c) as [->|Hne]; [tauto|].
  intros H. apply IH. tauto.
Qed.

(** ** Loading one directory *)

Lemma parsed_units_app F S C l1 l2 :
  parsed_units F S C (l1 ++ l2) = parsed_units F S C l1 ++ parsed_units F S C l2.
Proof. unfold parsed_units. apply flat_map_app. Qed.

Lemma load_json_file_effect dir F S C self n jf :
  bucket_effect (faction_units self)
    (faction_units (fst (load_json_file dir F S C (self, n) jf))) F S C
    (fun b => b ++ parsed_units F S C [jf]).
Proof.
  unfold load_json_file, parsed_units. simpl.
  destruct (outcome jf) as [e|unit_name data].
  - destruct e; simpl; apply bucket_effect_same; intros b; apply app_nil_r.
  - simpl.
    destruct (PyDict.get (faction_units self) F) as [subs|] eqn:HF.
    + destruct (PyDict.get subs S) as [cats|] eqn:HS.
      * destruct (PyDict.get cats C) as [b|] eqn:HC; simpl.
        -- intros f s c. rewrite (bucket_set3 _ _ _ _ _ _ _ _ _ _ HF HS).
           destruct (at3 F S C f s c) eqn:E; [|reflexivity].
           apply at3_true in E as (<- & <- & <-).
           unfold bucket. rewrite HF, HS, HC. reflexivity.
        -- intros f s c. destruct (at3 F S C f s c) eqn:E; [|reflexivity].
           apply at3_true in E as (<- & <- & <-).
           unfold bucket. rewrite HF, HS, HC. reflexivity.
      * simpl. intros f s c. destruct (at3 F S C f s c) eqn:E; [|reflexivity].
        apply at3_true in E as (<- & <- & <-).
        unfold bucket. rewrite HF, HS. reflexivity.
    + simpl. intros f s c. destruct (at3 F S C f s c) eqn:E; [|reflexivity].
      apply at3_true in E as (<- & <- & <-).
      unfold bucket. rewrite HF. reflexivity.
Qed.

Lemma load_files_effect dir F S C files :
  forall self n,
    bucket_effect (faction_units self)
      (faction_units
         (fst (fold_left (load_json_file dir F S C) files (self, n))))
      F S C (fun b => b ++ parsed_units F S C files).
Proof.
  induction files as [|jf files IH]; intros self n.
  - simpl. apply bucket_effect_same. intros b. apply app_nil_r.
  - cbn [fold_left].
    pose proof (load_json_file_effect dir F S C self n jf) as H1.
    destruct (load_json_file dir F S C (self, n) jf) as [self1 n1].
    simpl fst in H1. specialize (IH self1 n1).
    eapply bucket_effect_ext; [|exact (bucket_effect_trans _ _ _ _ _ _ _ _ H1 IH)].
    intros b. cbv beta. rewrite <- app_assoc.
    change (jf :: files) with ([jf] ++ files).
    now rewrite parsed_units_app.
Qed.

Lemma load_category_effect fs dir F S self C :
  bucket_effect (faction_units self)
    (faction_units (load_category fs dir F S self C)) F S C
    (fun b => b ++ category_units fs dir F S C).
Proof.
  unfold load_category, category_units.
  destruct (exists_ fs (dir ++ [Str.replace_space "_" C])); simpl.
  - pose proof (load_files_effect (dir ++ [Str.replace_space "_" C]) F S C
                  (glob_json fs (dir ++ [Str.replace_space "_" C])) self 0) as H.
    destruct (fold_left _ _ (self, 0)) as [self1 n1]. simpl in H.
    destruct (0 <? n1)%nat; exact H.
  - apply bucket_effect_same. intros b. apply app_nil_r.
Qed.

(** ** Loops over the categories of one subfaction *)

Lemma sub_effect_trans (fu fu1 fu2 : catalog) F S g1 g2 :
  sub_effect fu fu1 F S g1 -> sub_effect fu1 fu2 F S g2 ->
  sub_effect fu fu2 F S (fun c b => g2 c (g1 c b)).
Proof.
  intros H1 H2 f s c. rewrite H2.
  destruct (String.eqb F f && String.eqb S s) eqn:E; rewrite H1, E; [|reflexivity].
  destruct (bucket fu f s c); reflexivity.
Qed.

Lemma sub_effect_ext (fu fu' : catalog) F S g g' :
  (forall c b, g c b = g' c b) ->
  sub_effect fu fu' F S g -> sub_effect fu fu' F S g'.
Proof.
  intros Hg H f s c. rewrite H.
  destruct (String.eqb F f && String.eqb S s); [|reflexivity].
  destruct (bucket fu f s c); simpl; [now rewrite Hg|reflexivity].
Qed.

Lemma UNIT_CATEGORIES_NoDup : NoDup UNIT_CATEGORIES.
Proof.
  unfold UNIT_CATEGORIES.
  repeat (constructor; [simpl; intuition discriminate|]). constructor.
Qed.

Lemma in_categories_existsb c :
  In c UNIT_CATEGORIES -> existsb (String.eqb c) UNIT_CATEGORIES = true.
Proof.
  intros Hin. apply existsb_exists. exists c. split; [exact Hin|apply String.eqb_refl].
Qed.

Lemma find_at3 F S f s c (l : list string) :
  find (fun a => at3 F S a f s c) l =
  if String.eqb F f && String.eqb S s
  then (if existsb (String.eqb c) l then Some c else None)
  else None.
Proof.
  unfold at3. induction l as [|x l IH]; simpl.
  - destruct (String.eqb F f && String.eqb S s); reflexivity.
  - rewrite IH. destruct (String.eqb F f && String.eqb S s); simpl; [|reflexivity].
    rewrite (String.eqb_sym c x).
    destruct (String.eqb_spec x c) as [->|Hne]; reflexivity.
Qed.

Lemma disjoint_at3 F S (l : list string) :
  NoDup l ->
  disjoint_regions
    (fun (c : string) (k : string * string * string) =>
       at3 F S c (fst (fst k)) (snd (fst k)) (snd k)) l.
Proof.
  induction 1 as [|x l Hnot Hnd IH]; simpl; [exact I|].
  split; [|exact IH].
  intros a' k Hin Htrue. apply at3_true in Htrue as (_ & _ & Hx).
  destruct (at3 F S a' (fst (fst k)) (snd (fst k)) (snd k)) eqn:E; [|reflexivity].
  apply at3_true in E as (_ & _ & Ha'). congruence.
Qed.

(** A loop over the categories whose turn for [c] changes the bucket
    (F, S, c) by [h c]. *)
Lemma category_loop (body : string -> DataManager -> result DataManager)
  F S (h : string -> list UnitData.t -> list UnitData.t) :
  (forall c st, In c UNIT_CATEGORIES ->
     bucket (faction_units st) F S c <> None ->
     exists st', body c st = Ok st' /\
       bucket_effect (faction_units st) (faction_units st') F S c (h c)) ->
  forall st,
    (forall c, In c UNIT_CATEGORIES -> bucket (faction_units st) F S c <> None) ->
    exists st', for_each UNIT_CATEGORIES body st = Ok st' /\
      sub_effect (faction_units st) (faction_units st') F S (on_categories h).
Proof.
  intros Hbody st Hpre.
  destruct (for_each_regions DataManager (string * string * string)
              (list UnitData.t) string look3
              (fun c k => at3 F S c (fst (fst k)) (snd (fst k)) (snd k))
              (fun c k => k = (F, S, c))
              (fun c _ => h c) body UNIT_CATEGORIES) with (st := st)
    as (st' & Hrun & Heff).
  - intros c st0 Hin Hneed.
    destruct (Hbody c st0 Hin (Hneed (F, S, c) eq_refl)) as (st1 & Hrun & Heff).
    exists st1. split; [exact Hrun|]. intros [[f s] c']. apply Heff.
  - apply disjoint_at3, UNIT_CATEGORIES_NoDup.
  - intros c k Hin ->. now apply Hpre.
  - exists st'. split; [exact Hrun|]. intros f s c.
    specialize (Heff (f, s, c)). unfold look3 in Heff. cbn [fst snd] in Heff.
    rewrite Heff, find_at3. unfold on_categories.
    destruct (String.eqb F f && String.eqb S s); [|reflexivity].
    destruct (existsb (String.eqb c) UNIT_CATEGORIES); [reflexivity|].
    destruct (bucket (faction_units st) f s c); reflexivity.
Qed.

Lemma on_catalog_ok (stmt : catalog -> result catalog) self fu' :
  stmt (faction_units self) = Ok fu' ->
  on_catalog stmt self = Ok (set_faction_units self fu').
Proof. intros H. unfold on_catalog. now rewrite H. Qed.

Lemma load_category_units_effect fs dir F S self :
  (forall c, In c UNIT_CATEGORIES -> bucket (faction_units self) F S c <> None) ->
  sub_effect (faction_units self)
    (faction_units (_load_category_units fs dir F S self)) F S
    (on_categories (fun c b => b ++ category_units fs dir F S c)).
Proof.
  intros Hpre. unfold _load_category_units.
  destruct (category_loop (fun c st => Ok (load_category fs dir F S st c)) F S
              (fun c b => b ++ category_units fs dir F S c)) with (st := self)
    as (st' & Hrun & Heff).
  - intros c st _ _. eexists. split; [reflexivity|]. apply load_category_effect.
  - exact Hpre.
  - rewrite for_each_ok in Hrun. injection Hrun as <-. exact Heff.
Qed.

Lemma sub_effect_present (fu fu' : catalog) F S g f s c :
  sub_effect fu fu' F S g ->
  bucket fu f s c <> None -> bucket fu' f s c <> None.
Proof.
  intros H Hb. rewrite H.
  destruct (String.eqb F f && String.eqb S s); [|exact Hb].
  destruct (bucket fu f s c); [discriminate|congruence].
Qed.

Lemma sub_effect_other (fu fu' : catalog) F S g f s c :
  sub_effect fu fu' F S g -> s <> S -> bucket fu' f s c = bucket fu f s c.
Proof.
  intros H Hne. rewrite H.
  destruct (String.eqb_spec S s) as [E|_]; [congruence|].
  now rewrite andb_false_r.
Qed.

Lemma on_categories_compose h1 h2 c b :
  on_categories h2 c (on_categories h1 c b) =
  on_categories (fun c b => h2 c (h1 c b)) c b.
Proof.
  unfold on_categories.
  destruct (existsb (String.eqb c) UNIT_CATEGORIES); reflexivity.
Qed.

Lemma for_each_map {A B S : Type} (f : A -> B) (body : B -> S -> result S)
  xs s :
  for_each (map f xs) body s = for_each xs (fun a => body (f a)) s.
Proof.
  revert s. induction xs as [|a xs IH]; intros s; simpl; [reflexivity|].
  destruct (body (f a) s); simpl; [apply IH|reflexivity].
Qed.

Lemma set_absent {V : Type} (d : dict V) k v :
  PyDict.get d k = None -> PyDict.set d k v = d ++ [(k, v)].
Proof.
  induction d as [|[k0 v0] d IH]; simpl; [reflexivity|].
  destruct (String.eqb k0 k); [discriminate|].
  intros H. now rewrite IH.
Qed.

Lemma get_app_absent {V : Type} (d : dict V) k k' v :
  k <> k' -> PyDict.get d k' = None -> PyDict.get (d ++ [(k, v)]) k' = None.
Proof.
  intros Hne. induction d as [|[k0 v0] d IH]; simpl.
  - destruct (String.eqb_spec k k'); [contradiction|reflexivity].
  - destruct (String.eqb k0 k'); [discriminate|exact IH].
Qed.

Lemma copy_base_loop F (fu : catalog) (B : string -> list UnitData.t) cs :
  NoDup cs ->
  (forall c, In c cs -> bucket fu F temp_subfaction c = Some (B c)) ->
  forall acc,
    (forall c, In c cs -> PyDict.get acc c = None) ->
    for_each cs
      (fun category base_faction_units =>
         b <- read_bucket F temp_subfaction category fu ;;
         Ok (PyDict.set base_faction_units category b)) acc
    = Ok (acc ++ map (fun c => (c, B c)) cs).
Proof.
  induction 1 as [|c cs Hnot Hnd IH]; intros HB acc Hacc; simpl.
  - now rewrite app_nil_r.
  - rewrite (read_bucket_spec _ _ _ _ _ (HB c (or_introl eq_refl))). simpl.
    rewrite (set_absent acc c (B c)) by (apply Hacc; now left).
    rewrite IH.
    + now rewrite <- app_assoc.
    + intros c' Hin. apply HB. now right.
    + intros c' Hin. apply get_app_absent.
      * intros ->. contradiction.
      * apply Hacc. now right.
Qed.

Lemma copy_base_spec F (fu : catalog) (B : string -> list UnitData.t) :
  (forall c, In c UNIT_CATEGORIES ->
     bucket fu F temp_subfaction c = Some (B c)) ->
  copy_base F fu = Ok (base_dict B).
Proof.
  intros HB. unfold copy_base.
  rewrite (copy_base_loop F fu B UNIT_CATEGORIES UNIT_CATEGORIES_NoDup HB).
  - reflexivity.
  - reflexivity.
Qed.

Lemma inherit_base_spec F S (B : string -> list UnitData.t) self :
  (forall c, In c UNIT_CATEGORIES -> bucket (faction_units self) F S c <> None) ->
  exists self',
    inherit_base F S (base_dict B) self = Ok self' /\
    units self' = units self /\
    sub_effect (faction_units self) (faction_units self') F S
      (on_categories (fun c b => b ++ B c)).
Proof.
  intros Hpre. unfold inherit_base, base_dict, PyDict.items.
  rewrite for_each_map. cbn [fst snd].
  destruct (category_loop
              (fun c self => on_catalog (extend_bucket F S c (B c)) self)
              F S (fun c b => b ++ B c)) with (st := self)
    as (st' & Hrun & Heff).
  - intros c st _ Hb.
    destruct (bucket (faction_units st) F S c) as [b|] eqn:E; [|congruence].
    destruct (extend_bucket_spec F S c (B c) _ b E) as (fu' & Hrun & Heff).
    exists (set_faction_units st fu'). split; [now apply on_catalog_ok|exact Heff].
  - exact Hpre.
  - exists st'. split; [exact Hrun|]. split; [|exact Heff].
    eapply (for_each_inv (fun st => units st = units self)); [|reflexivity|exact Hrun].
    intros c s s' _ Hs Hstep. unfold on_catalog in Hstep.
    destruct (extend_bucket _ _ _ _ _); simpl in Hstep; [|discriminate].
    injection Hstep as <-. exact Hs.
Qed.

Lemma dedupe_and_sort_spec F S self :
  (forall c, In c UNIT_CATEGORIES -> bucket (faction_units self) F S c <> None) ->
  exists self',
    dedupe_and_sort F S self = Ok self' /\
    units self' = units self /\
    sub_effect (faction_units self) (faction_units self') F S
      (on_categories
         (fun _ b => sorted_by UnitData.name (unique_units_of b))).
Proof.
  intros Hpre. unfold dedupe_and_sort.
  destruct (category_loop
              (fun category self =>
                 bucket <- read_bucket F S category (faction_units self) ;;
                 on_catalog
                   (assign_bucket F S category
                      (sorted_by UnitData.name (unique_units_of bucket)))
                   self)
              F S (fun _ b => sorted_by UnitData.name (unique_units_of b)))
    with (st := self) as (st' & Hrun & Heff).
  - intros c st _ Hb.
    destruct (bucket (faction_units st) F S c) as [b|] eqn:E; [|congruence].
    rewrite (read_bucket_spec _ _ _ _ _ E). simpl.
    destruct (assign_bucket_spec F S c
                (sorted_by UnitData.name (unique_units_of b)) _ b E)
      as (fu' & Hrun & Heff).
    exists (set_faction_units st fu'). split; [now apply on_catalog_ok|].
    intros f s c'. rewrite Heff.
    destruct (at3 F S c f s c') eqn:E3; [|reflexivity].
    apply at3_true in E3 as (<- & <- & <-). now rewrite E.
  - exact Hpre.
  - exists st'. split; [exact Hrun|]. split; [|exact Heff].
    eapply (for_each_inv (fun st => units st = units self)); [|reflexivity|exact Hrun].
    intros c s s' _ Hs Hstep. cbv beta in Hstep.
    destruct (read_bucket _ _ _ _); simpl in Hstep; [|discriminate].
    unfold on_catalog in Hstep.
    destruct (assign_bucket _ _ _ _ _); simpl in Hstep; [|discriminate].
    injection Hstep as <-. exact Hs.
Qed.

(** ** One subfaction, then all subfactions of a faction *)

Lemma load_subfaction_spec fs fdir F B S self :
  (exists vs, subfaction_variants S = Ok vs) ->
  (forall c, In c UNIT_CATEGORIES -> bucket (faction_units self) F S c <> None) ->
  exists self',
    load_subfaction fs fdir F (base_dict B) S self = Ok self' /\
    sub_effect (faction_units self) (faction_units self') F S
      (on_categories (sub_transform fs fdir F B S)).
Proof.
  intros [vs Hvs] Hpre. unfold load_subfaction, sub_transform, subfaction_dir.
  rewrite Hvs. cbn [bind].
  destruct (first_existing fs (fdir ++ ["subfaction"]) vs) as [sdir|].
  - set (self1 := print _ self).
    assert (Hpre1 : forall c, In c UNIT_CATEGORIES ->
                     bucket (faction_units self1) F S c <> None) by exact Hpre.
    pose proof (load_category_units_effect fs sdir F S self1 Hpre1) as E1.
    set (self2 := _load_category_units fs sdir F S self1) in *.
    assert (Hpre2 : forall c, In c UNIT_CATEGORIES ->
                     bucket (faction_units self2) F S c <> None).
    { intros c Hin. eapply sub_effect_present; [exact E1|now apply Hpre1]. }
    destruct (inherit_base_spec F S B self2 Hpre2) as (self3 & Hrun3 & _ & E2).
    rewrite Hrun3. cbn [bind].
    assert (Hpre3 : forall c, In c UNIT_CATEGORIES ->
                     bucket (faction_units self3) F S c <> None).
    { intros c Hin. eapply sub_effect_present; [exact E2|now apply Hpre2]. }
    destruct (dedupe_and_sort_spec F S self3 Hpre3) as (self4 & Hrun4 & _ & E3).
    exists self4. split; [exact Hrun4|].
    eapply sub_effect_ext;
      [|exact (sub_effect_trans _ _ _ _ _ _ _
                 (sub_effect_trans _ _ _ _ _ _ _ E1 E2) E3)].
    intros c b. cbv beta. rewrite !on_categories_compose. reflexivity.
  - set (self1 := print _ self).
    destruct (inherit_base_spec F S B self1 Hpre) as (self2 & Hrun2 & _ & E2).
    exists self2. split; [exact Hrun2|exact E2].
Qed.

Lemma find_sub F f s (ss : list string) :
  find (fun a => String.eqb F f && String.eqb a s) ss =
  if String.eqb F f && existsb (String.eqb s) ss then Some s else None.
Proof.
  induction ss as [|x ss IH]; simpl.
  - now rewrite andb_false_r.
  - rewrite IH. destruct (String.eqb F f); simpl; [|reflexivity].
    rewrite (String.eqb_sym s x).
    destruct (String.eqb_spec x s) as [->|Hne]; reflexivity.
Qed.

Lemma disjoint_subs F (ss : list string) :
  NoDup ss ->
  disjoint_regions
    (fun (s : string) (k : string * string * string) =>
       String.eqb F (fst (fst k)) && String.eqb s (snd (fst k))) ss.
Proof.
  induction 1 as [|x l Hnot Hnd IH]; simpl; [exact I|].
  split; [|exact IH].
  intros a' k Hin Htrue. apply andb_prop in Htrue as [_ Hx].
  apply String.eqb_eq in Hx.
  destruct (String.eqb_spec a' (snd (fst k))) as [Ha|_];
    [|now rewrite andb_false_r].
  exfalso. apply Hnot. congruence.
Qed.

Lemma subfactions_loop fs fdir F B (ss : list string) self :
  NoDup ss ->
  (forall s, In s ss -> exists vs, subfaction_variants s = Ok vs) ->
  (forall s c, In s ss -> In c UNIT_CATEGORIES ->
     bucket (faction_units self) F s c <> None) ->
  exists self',
    for_each ss (load_subfaction fs fdir F (base_dict B)) self = Ok self' /\
    forall f s c,
      bucket (faction_units self') f s c =
      if String.eqb F f && existsb (String.eqb s) ss
      then option_map (on_categories (sub_transform fs fdir F B s) c)
             (bucket (faction_units self) f s c)
      else bucket (faction_units self) f s c.
Proof.
  intros Hnd Hvs Hpre.
  destruct (for_each_regions DataManager (string * string * string)
              (list UnitData.t) string look3
              (fun s k => String.eqb F (fst (fst k)) && String.eqb s (snd (fst k)))
              (fun s k => exists c, In c UNIT_CATEGORIES /\ k = (F, s, c))
              (fun s k b => on_categories (sub_transform fs fdir F B s) (snd k) b)
              (load_subfaction fs fdir F (base_dict B)) ss) with (st := self)
    as (st' & Hrun & Heff).
  - intros s st Hin Hneed.
    destruct (load_subfaction_spec fs fdir F B s st (Hvs s Hin)) as (st1 & Hrun & Heff).
    + intros c Hc. apply (Hneed (F, s, c)). now exists c.
    + exists st1. split; [exact Hrun|]. intros [[f s'] c]. apply Heff.
  - now apply disjoint_subs.
  - intros s k Hin (c & Hc & ->). now apply Hpre.
  - exists st'. split; [exact Hrun|]. intros f s c.
    specialize (Heff (f, s, c)). unfold look3 in Heff. cbn [fst snd] in Heff.
    rewrite Heff, find_sub.
    destruct (String.eqb F f && existsb (String.eqb s) ss); reflexivity.
Qed.

(** ** The temporary subfaction and one faction *)

Lemma assign_subfaction_spec F S (fu : catalog) subs :
  PyDict.get fu F = Some subs ->
  exists fu',
    assign_subfaction F S fu = Ok fu' /\
    PyDict.get fu' F = Some (PyDict.set subs S PyDict.empty) /\
    forall f s c, s <> S -> bucket fu' f s c = bucket fu f s c.
Proof.
  intros HF. unfold assign_subfaction, PyDict.getitem. rewrite HF. cbn [bind].
  eexists. split; [reflexivity|]. split; [apply PyDictFacts.get_set_same|].
  intros f s c Hne. unfold bucket. rewrite PyDictFacts.get_set.
  destruct (String.eqb_spec F f) as [<-|_]; [|reflexivity].
  rewrite HF, PyDictFacts.get_set_other by congruence. reflexivity.
Qed.

Lemma create_buckets F S (cs : list string) :
  forall st subs cats,
    PyDict.get (faction_units st) F = Some subs ->
    PyDict.get subs S = Some cats ->
    exists st',
      for_each cs (fun c => on_catalog (assign_bucket F S c [])) st = Ok st' /\
      units st' = units st /\
      forall f s c,
        bucket (faction_units st') f s c =
        if String.eqb F f && String.eqb S s && existsb (String.eqb c) cs
        then Some [] else bucket (faction_units st) f s c.
Proof.
  induction cs as [|c0 cs IH]; intros st subs cats HF HS.
  - exists st. split; [reflexivity|]. split; [reflexivity|].
    intros f s c. simpl. now rewrite andb_false_r.
  - simpl. unfold on_catalog at 1, assign_bucket, PyDict.getitem.
    rewrite HF. cbn [bind]. rewrite HS. cbn [bind].
    set (fu1 := PyDict.set (faction_units st) F
                  (PyDict.set subs S (PyDict.set cats c0 []))).
    destruct (IH (set_faction_units st fu1)
                (PyDict.set subs S (PyDict.set cats c0 []))
                (PyDict.set cats c0 []))
      as (st' & Hrun & Hunits & Heff).
    + apply PyDictFacts.get_set_same.
    + apply PyDictFacts.get_set_same.
    + exists st'. split; [exact Hrun|]. split; [exact Hunits|].
      intros f s c. rewrite Heff. simpl faction_units. unfold fu1.
      rewrite (bucket_set3 _ _ _ _ _ _ _ _ _ _ HF HS). unfold at3.
      rewrite (String.eqb_sym c c0).
      destruct (String.eqb F f && String.eqb S s); simpl; [|reflexivity].
      destruct (String.eqb c0 c); simpl;
        [now destruct (existsb _ cs)|reflexivity].
Qed.

Lemma delete_subfaction_spec F S (fu : catalog) c0 b0 :
  bucket fu F S c0 = Some b0 ->
  exists fu',
    delete_subfaction F S fu = Ok fu' /\
    forall f s c, s <> S -> bucket fu' f s c = bucket fu f s c.
Proof.
  intros Hb. destruct (bucket_some_inv _ _ _ _ _ Hb) as (subs & cats & HF & HS & _).
  unfold delete_subfaction, PyDict.getitem, PyDict.delitem, PyDict.mem.
  rewrite HF. cbn [bind]. rewrite HS. cbn [bind].
  eexists. split; [reflexivity|].
  intros f s c Hne. unfold bucket. rewrite PyDictFacts.get_set.
  destruct (String.eqb_spec F f) as [<-|_]; [|reflexivity].
  rewrite HF, PyDictFacts.get_remove_other by congruence. reflexivity.
Qed.

Lemma load_faction_spec fs F data self :
  PyDict.get (faction_units self) F <> None ->
  NoDup (PyDict.keys (subfactions data)) ->
  ~ In temp_subfaction (PyDict.keys (subfactions data)) ->
  (forall s, In s (PyDict.keys (subfactions data)) ->
     exists vs, subfaction_variants s = Ok vs) ->
  (forall s c, In s (PyDict.keys (subfactions data)) ->
     In c UNIT_CATEGORIES -> bucket (faction_units self) F s c <> None) ->
  exists self',
    load_faction fs data_path (F, data) self = Ok self' /\
    forall f s c, s <> temp_subfaction ->
      bucket (faction_units self') f s c =
      if String.eqb F f && existsb (String.eqb s) (PyDict.keys (subfactions data))
      then option_map (on_categories (faction_transform fs F s) c)
             (bucket (faction_units self) f s c)
      else bucket (faction_units self) f s c.
Proof.
  intros HF Hnd Htemp Hvs Hpre.
  unfold load_faction, faction_transform, faction_dir.
  destruct (first_existing fs data_path (faction_variants F)) as [fdir|].
  - set (self0 := print _ self).
    destruct (PyDict.get (faction_units self) F) as [subs|] eqn:EF; [|congruence].
    destruct (assign_subfaction_spec F temp_subfaction (faction_units self0) subs EF)
      as (fu1 & Hrun1 & HF1 & Hsame1).
    rewrite (on_catalog_ok _ _ _ Hrun1). cbn [bind].
    destruct (create_buckets F temp_subfaction UNIT_CATEGORIES
                (set_faction_units self0 fu1) _ PyDict.empty HF1
                (PyDictFacts.get_set_same _ _ _ _))
      as (self2 & Hrun2 & _ & Heff2).
    rewrite Hrun2. cbn [bind].
    assert (Hpre2 : forall c, In c UNIT_CATEGORIES ->
              bucket (faction_units self2) F temp_subfaction c = Some []).
    { intros c Hin. rewrite Heff2, !String.eqb_refl.
      now rewrite (in_categories_existsb c Hin). }
    assert (Hpre2' : forall c, In c UNIT_CATEGORIES ->
              bucket (faction_units self2) F temp_subfaction c <> None).
    { intros c Hin. rewrite (Hpre2 c Hin). discriminate. }
    pose proof (load_category_units_effect fs fdir F temp_subfaction self2 Hpre2')
      as E3.
    set (self3 := _load_category_units fs fdir F temp_subfaction self2) in *.
    assert (HB : forall c, In c UNIT_CATEGORIES ->
              bucket (faction_units self3) F temp_subfaction c
              = Some (base_units fs fdir F c)).
    { intros c Hin. rewrite E3, !String.eqb_refl, (Hpre2 c Hin).
      unfold on_categories. rewrite (in_categories_existsb c Hin). reflexivity. }
    rewrite (copy_base_spec F (faction_units self3) (base_units fs fdir F) HB).
    cbn [bind].
    destruct (delete_subfaction_spec F temp_subfaction (faction_units self3)
                "Structures" _ (HB "Structures" (or_introl eq_refl)))
      as (fu5 & Hrun5 & Hsame5).
    rewrite (on_catalog_ok _ _ _ Hrun5). cbn [bind].
    assert (Hsame : forall f s c, s <> temp_subfaction ->
              bucket fu5 f s c = bucket (faction_units self) f s c).
    { intros f s c Hne.
      rewrite (Hsame5 f s c Hne), (sub_effect_other _ _ _ _ _ f s c E3 Hne), Heff2.
      destruct (String.eqb_spec temp_subfaction s) as [E|_]; [congruence|].
      rewrite andb_false_r. simpl. now apply Hsame1. }
    destruct (subfactions_loop fs fdir F (base_units fs fdir F)
                (PyDict.keys (subfactions data)) (set_faction_units self3 fu5)
                Hnd Hvs) as (self6 & Hrun6 & Heff6).
    + intros s c Hs Hc. simpl faction_units.
      rewrite Hsame by (intros ->; contradiction). now apply Hpre.
    + exists self6. split; [exact Hrun6|].
      intros f s c Hne. rewrite Heff6. simpl faction_units.
      now rewrite (Hsame f s c Hne).
  - eexists. split; [reflexivity|]. intros f s c _. simpl faction_units.
    destruct (String.eqb F f && existsb _ _); [|reflexivity].
    destruct (bucket (faction_units self) f s c); [|reflexivity].
    simpl. unfold on_categories.
    now destruct (existsb (String.eqb c) UNIT_CATEGORIES).
Qed.

(** ** All factions *)

Lemma hierarchy_entry_ok F data :
  In (F, data) (PyDict.items FACTION_HIERARCHY) ->
  NoDup (PyDict.keys (subfactions data)) /\
  ~ In temp_subfaction (PyDict.keys (subfactions data)) /\
  (forall s, In s (PyDict.keys (subfactions data)) ->
     exists vs, subfaction_variants s = Ok vs) /\
  (exists s, In s (PyDict.keys (subfactions data))).
Proof.
  intros Hin. simpl in Hin.
  repeat (destruct Hin as [E|Hin]; [injection E as <- <-|]); [..|destruct Hin];
    (split; [repeat (constructor; [simpl; intuition discriminate|]); constructor|]);
    (split; [simpl; intuition discriminate|]);
    (split; [|eexists; left; reflexivity]);
    intros s Hs; simpl in Hs;
    repeat (destruct Hs as [<-|Hs]; [eexists; reflexivity|]); destruct Hs.
Qed.

Lemma hierarchy_names_NoDup : NoDup (PyDict.keys FACTION_HIERARCHY).
Proof.
  simpl. repeat (constructor; [simpl; intuition discriminate|]). constructor.
Qed.

Lemma disjoint_factions (xs : list (string * FactionData)) :
  NoDup (map fst xs) ->
  disjoint_regions faction_region xs.
Proof.
  induction xs as [|x xs IH]; intros Hnd; simpl; [exact I|].
  inversion Hnd as [|? ? Hnot Hnd']; subst.
  split; [|now apply IH].
  intros a' k Hin Htrue. unfold faction_region in *.
  apply andb_prop in Htrue as [Hx _]. apply String.eqb_eq in Hx.
  destruct (String.eqb_spec (fst a') (fst (fst k))) as [Ha|_]; [|reflexivity].
  exfalso. apply Hnot. rewrite Hx, <- Ha. now apply in_map.
Qed.

Lemma factions_loop fs self :
  (forall F data s c,
     In (F, data) (PyDict.items FACTION_HIERARCHY) ->
     In s (PyDict.keys (subfactions data)) -> In c UNIT_CATEGORIES ->
     bucket (faction_units self) F s c <> None) ->
  exists self',
    _load_units_from_directory fs data_path self = Ok self' /\
    forall F data s c,
      In (F, data) (PyDict.items FACTION_HIERARCHY) ->
      In s (PyDict.keys (subfactions data)) -> In c UNIT_CATEGORIES ->
      bucket (faction_units self') F s c =
      option_map (faction_transform fs F s c) (bucket (faction_units self) F s c).
Proof.
  intros Hpre. unfold _load_units_from_directory.
  destruct (for_each_regions DataManager (string * string * string)
              (list UnitData.t) (string * FactionData) look_declared
              faction_region
              (fun entry k =>
                 exists s c, In s (PyDict.keys (subfactions (snd entry))) /\
                             In c UNIT_CATEGORIES /\ k = (fst entry, s, c))
              (fun entry k b =>
                 on_categories
                   (faction_transform fs (fst entry) (snd (fst k))) (snd k) b)
              (load_faction fs data_path) (PyDict.items FACTION_HIERARCHY))
    with (st := self) as (st' & Hrun & Heff).
  - intros [F data] st Hin Hneed.
    destruct (hierarchy_entry_ok F data Hin) as (Hnd & Htemp & Hvs & s0 & Hs0).
    assert (Hb : forall s c, In s (PyDict.keys (subfactions data)) ->
                   In c UNIT_CATEGORIES -> bucket (faction_units st) F s c <> None).
    { intros s c Hs Hc.
      specialize (Hneed (F, s, c) (ex_intro _ s (ex_intro _ c (conj Hs (conj Hc eq_refl))))).
      unfold look_declared in Hneed. cbn [fst snd] in Hneed.
      destruct (String.eqb s temp_subfaction); [congruence|exact Hneed]. }
    destruct (load_faction_spec fs F data st) as (st1 & Hrun & Heff); auto.
    + specialize (Hb s0 "Structures" Hs0 (or_introl eq_refl)).
      unfold bucket in Hb. destruct (PyDict.get (faction_units st) F); congruence.
    + exists st1. split; [exact Hrun|].
      intros [[f s] c]. unfold look_declared, faction_region. cbn [fst snd].
      destruct (String.eqb_spec s temp_subfaction) as [->|Hne].
      * now destruct (String.eqb F f && _).
      * now apply Heff.
  - apply disjoint_factions, hierarchy_names_NoDup.
  - intros [F data] k Hin (s & c & Hs & Hc & ->).
    unfold look_declared. cbn [fst snd].
    destruct (hierarchy_entry_ok F data Hin) as (_ & Htemp & _).
    destruct (String.eqb_spec s temp_subfaction) as [->|_]; [contradiction|].
    now apply (Hpre F data).
  - exists st'. split; [exact Hrun|].
    intros F data s c Hin Hs Hc.
    destruct (hierarchy_entry_ok F data Hin) as (_ & Htemp & _).
    specialize (Heff (F, s, c)). unfold look_declared in Heff.
    cbn [fst snd] in Heff.
    destruct (String.eqb_spec s temp_subfaction) as [->|_]; [contradiction|].
    rewrite Heff.
    destruct (find (fun a => faction_region a (F, s, c))
                (PyDict.items FACTION_HIERARCHY)) as [a|] eqn:Ef.
    + apply find_some in Ef as [_ Htrue]. unfold faction_region in Htrue.
      cbn [fst snd] in Htrue. apply andb_prop in Htrue as [Ha _].
      apply String.eqb_eq in Ha. rewrite Ha.
      unfold on_categories. rewrite (in_categories_existsb c Hc). reflexivity.
    + exfalso. pose proof (find_none _ _ Ef (F, data) Hin) as Hfalse.
      unfold faction_region in Hfalse. cbn [fst snd] in Hfalse.
      rewrite String.eqb_refl in Hfalse.
      assert (Ht : existsb (String.eqb s) (PyDict.keys (subfactions data)) = true).
      { apply existsb_exists. exists s. split; [exact Hs|apply String.eqb_refl]. }
      rewrite Ht in Hfalse. discriminate.
Qed.

(** ** The whole load *)

Lemma init_structure_spec :
  exists st,
    init_structure new_manager = Ok st /\
    units st = PyDict.empty /\
    forall F data s c,
      In (F, data) (PyDict.items FACTION_HIERARCHY) ->
      In s (PyDict.keys (subfactions data)) -> In c UNIT_CATEGORIES ->
      bucket (faction_units st) F s c = Some [].
Proof.
  eexists. split; [vm_compute; reflexivity|]. split; [reflexivity|].
  intros F data s c Hin Hs Hc. simpl in Hin.
  repeat (destruct Hin as [E|Hin]; [injection E as <- <-|]); [..|destruct Hin];
    simpl in Hs;
    repeat (destruct Hs as [<-|Hs]); try (destruct Hs);
    simpl in Hc;
    repeat (destruct Hc as [<-|Hc]); try (destruct Hc); reflexivity.
Qed.

Lemma build_search_index_catalog self :
  faction_units (_build_search_index self) = faction_units self.
Proof. reflexivity. Qed.

(** The load returns, and every declared bucket holds what
    [expected_bucket] says. *)
Lemma loaded_buckets fs :
  exists_ fs data_path = true ->
  exists st,
    DataManager_init fs = Ok st /\
    forall F s c,
      declared F s -> In c UNIT_CATEGORIES ->
      bucket (faction_units st) F s c = Some (expected_bucket fs F s c).
Proof.
  intros Hroot. unfold DataManager_init, _load_data. rewrite Hroot. cbn [negb].
  destruct init_structure_spec as (st0 & Hinit & _ & Hb0).
  rewrite Hinit. cbn [bind].
  destruct (factions_loop fs st0) as (st1 & Hrun & Heff).
  { intros F data s c Hin Hs Hc. rewrite (Hb0 F data s c Hin Hs Hc). discriminate. }
  rewrite Hrun. cbn [bind].
  eexists. split; [reflexivity|].
  intros F s c (data & Hin & Hs) Hc. rewrite build_search_index_catalog.
  rewrite (Heff F data s c Hin Hs Hc), (Hb0 F data s c Hin Hs Hc).
  unfold expected_bucket, faction_transform, sub_transform. cbn [option_map].
  destruct (faction_dir fs F) as [fdir|]; [|reflexivity].
  destruct (subfaction_dir fs fdir s); reflexivity.
Qed.

(** ** Sorting *)

Section SortedFacts.
Variable A : Type.
Variable key : A -> string.

Lemma insert_by_perm x l : Permutation (insert_by key x l) (x :: l).
Proof.
  induction l as [|y l IH]; simpl.
  - apply Permutation_refl.
  - destruct (String.leb (key x) (key y)).
    + apply Permutation_refl.
    + eapply perm_trans; [apply perm_skip, IH|apply perm_swap].
Qed.

Lemma sorted_by_perm l : Permutation (sorted_by key l) l.
Proof.
  induction l as [|x l IH]; simpl.
  - apply perm_nil.
  - eapply perm_trans; [apply insert_by_perm|now apply perm_skip].
Qed.

Lemma leb_false_flip (a b : string) :
  String.leb a b = false -> String.leb b a = true.
Proof.
  intros H. destruct (String.leb_total a b) as [H'|H']; [congruence|exact H'].
Qed.

Lemma insert_by_hd x l a :
  HdRel (key_le key) a l -> (key_le key) a x -> HdRel (key_le key) a (insert_by key x l).
Proof.
  intros Hl Hx. destruct l as [|y l]; simpl.
  - now constructor.
  - destruct (String.leb (key x) (key y)); constructor; [exact Hx|].
    now inversion Hl.
Qed.

Lemma insert_by_sorted x l :
  Sorted (key_le key) l -> Sorted (key_le key) (insert_by key x l).
Proof.
  induction 1 as [|y l Hs IH Hhd]; simpl.
  - repeat constructor.
  - destruct (String.leb (key x) (key y)) eqn:E.
    + constructor; [now constructor|]. now constructor.
    + constructor; [exact IH|].
      apply insert_by_hd; [exact Hhd|]. now apply leb_false_flip.
Qed.

Lemma sorted_by_sorted l : Sorted (key_le key) (sorted_by key l).
Proof.
  induction l as [|x l IH]; simpl; [constructor|now apply insert_by_sorted].
Qed.

Lemma sorted_by_In x l : In x (sorted_by key l) <-> In x l.
Proof.
  split; apply Permutation_in;
    [apply sorted_by_perm|apply Permutation_sym, sorted_by_perm].
Qed.
End SortedFacts.

Lemma Permutation_filter_compat {A : Type} (p : A -> bool) (l l' : list A) :
  Permutation l l' -> Permutation (filter p l) (filter p l').
Proof.
  induction 1 as [|x l l' H IH|x y l|l l' l'' H1 IH1 H2 IH2]; simpl.
  - apply perm_nil.
  - destruct (p x); [now apply perm_skip|exact IH].
  - destruct (p x), (p y); try apply Permutation_refl. apply perm_swap.
  - eapply perm_trans; eassumption.
Qed.

(** ** Deduplication *)

Lemma find_app {A : Type} (p : A -> bool) (l1 l2 : list A) :
  find p (l1 ++ l2) =
  match find p l1 with Some x => Some x | None => find p l2 end.
Proof.
  induction l1 as [|x l1 IH]; simpl; [reflexivity|].
  destruct (p x); [reflexivity|exact IH].
Qed.

Lemma find_has_name_None n (l : list UnitData.t) :
  find (has_name n) l = None <-> ~ In n (map UnitData.name l).
Proof.
  unfold has_name. induction l as [|x l IH]; simpl.
  - tauto.
  - destruct (String.eqb_spec (UnitData.name x) n) as [E|E].
    + split; [discriminate|]. intros H. exfalso. apply H. now left.
    + rewrite IH. tauto.
Qed.

Lemma dedupe_step_eq seen unique_units unit :
  dedupe_step (seen, unique_units) unit =
  if existsb (String.eqb (UnitData.name unit)) seen then (seen, unique_units)
  else (UnitData.name unit :: seen, unique_units ++ [unit]).
Proof. reflexivity. Qed.

(** The loop keeps, for every name, the first record that carries it, and
    keeps no name twice. *)
Lemma dedupe_loop (l : list UnitData.t) :
  forall seen unique_units,
    (forall n, existsb (String.eqb n) seen = true <->
               In n (map UnitData.name unique_units)) ->
    NoDup (map UnitData.name unique_units) ->
    let r := snd (fold_left dedupe_step l (seen, unique_units)) in
    NoDup (map UnitData.name r) /\
    (forall n, find (has_name n) r = find (has_name n) (unique_units ++ l)) /\
    (forall u, In u r -> In u (unique_units ++ l)).
Proof.
  induction l as [|x l IH]; intros seen uniq Hseen Hnd; cbn zeta.
  - simpl. rewrite app_nil_r. auto.
  - cbn [fold_left]. rewrite dedupe_step_eq.
    destruct (existsb (String.eqb (UnitData.name x)) seen) eqn:E.
    + specialize (IH seen uniq Hseen Hnd). cbn zeta in IH.
      destruct IH as (IH1 & IH2 & IH3). split; [exact IH1|]. split.
      * intros n. rewrite IH2, !find_app.
        destruct (find (has_name n) uniq) eqn:Ef; [reflexivity|].
        simpl. unfold has_name at 2.
        destruct (String.eqb_spec (UnitData.name x) n) as [En|_]; [|reflexivity].
        exfalso. apply find_has_name_None in Ef. apply Ef.
        rewrite <- En. now apply Hseen.
      * intros u Hu. specialize (IH3 u Hu). apply in_app_or in IH3.
        apply in_or_app. destruct IH3; [now left|right; now right].
    + assert (Hnew : ~ In (UnitData.name x) (map UnitData.name uniq)).
      { intros Hin. apply Hseen in Hin. congruence. }
      specialize (IH (UnitData.name x :: seen) (uniq ++ [x])).
      cbn zeta in IH. rewrite <- app_assoc in IH. simpl app in IH.
      apply IH.
      * intros n. simpl. rewrite map_app, in_app_iff. simpl.
        rewrite orb_true_iff, Hseen, String.eqb_eq.
        split; intros H.
        -- destruct H as [->|H]; [right; left; reflexivity|left; exact H].
        -- destruct H as [H|[<-|[]]]; [right; exact H|left; reflexivity].
      * rewrite map_app. simpl.
        apply Permutation_NoDup with (l := UnitData.name x :: map UnitData.name uniq).
        -- apply Permutation_cons_append.
        -- now constructor.
Qed.

Lemma unique_units_NoDup l : NoDup (map UnitData.name (unique_units_of l)).
Proof.
  unfold unique_units_of.
  apply (dedupe_loop l [] []); [|constructor].
  intros n. simpl. split; [discriminate|tauto].
Qed.

Lemma unique_units_find l n :
  find (has_name n) (unique_units_of l) = find (has_name n) l.
Proof.
  unfold unique_units_of.
  apply (dedupe_loop l [] []); [|constructor].
  intros n'. simpl. split; [discriminate|tauto].
Qed.

Lemma unique_units_In l u : In u (unique_units_of l) -> In u l.
Proof.
  unfold unique_units_of.
  apply (dedupe_loop l [] []); [|constructor].
  intros n'. simpl. split; [discriminate|tauto].
Qed.

Lemma unique_units_names l n :
  In n (map UnitData.name l) -> In n (map UnitData.name (unique_units_of l)).
Proof.
  intros Hin.
  destruct (find (has_name n) (unique_units_of l)) as [u|] eqn:E.
  - apply find_some in E as [Hu Hn]. apply String.eqb_eq in Hn.
    rewrite <- Hn. now apply in_map.
  - rewrite unique_units_find in E. apply find_has_name_None in E. contradiction.
Qed.

Lemma filter_unique_name (l : list UnitData.t) n u :
  NoDup (map UnitData.name l) -> find (has_name n) l = Some u ->
  filter (has_name n) l = [u].
Proof.
  unfold has_name. induction l as [|x l IH]; simpl; [discriminate|].
  intros Hnd. inversion Hnd as [|? ? Hnot Hnd']; subst.
  destruct (String.eqb_spec (UnitData.name x) n) as [E|E].
  - intros [= ->]. f_equal.
    assert (Hnone : forall y, In y l -> String.eqb (UnitData.name y) n = false).
    { intros y Hy. destruct (String.eqb_spec (UnitData.name y) n) as [Ey|]; [|reflexivity].
      exfalso. apply Hnot. rewrite E, <- Ey. now apply in_map. }
    clear -Hnone. induction l as [|y l IHl]; simpl; [reflexivity|].
    rewrite (Hnone y (or_introl eq_refl)). apply IHl.
    intros z Hz. apply Hnone. now right.
  - now apply IH.
Qed.

(** ** Inheritance, ordering and deduplication of the loaded catalog *)

Lemma get_units_for_path_bucket self F S C b :
  bucket (faction_units self) F S C = Some b ->
  get_units_for_path self F (Some S) (Some C) = Ok b.
Proof.
  intros Hb. destruct (bucket_some_inv _ _ _ _ _ Hb) as (subs & cats & HF & HS & HC).
  unfold get_units_for_path, PyDict.mem, PyDict.getitem.
  rewrite HF. cbn [negb bind]. rewrite HS. cbn [negb bind]. rewrite HC.
  reflexivity.
Qed.

(** Every base-faction name is listed in the bucket the load leaves. *)
Lemma expected_bucket_base_names fs F fdir S C u :
  faction_dir fs F = Some fdir ->
  In u (base_units fs fdir F C) ->
  In (UnitData.name u) (map UnitData.name (expected_bucket fs F S C)).
Proof.
  intros Hdir Hu. unfold expected_bucket. rewrite Hdir.
  destruct (subfaction_dir fs fdir S) as [sdir|].
  - apply (Permutation_in _
             (Permutation_map UnitData.name
                (Permutation_sym (sorted_by_perm _ UnitData.name _)))).
    apply unique_units_names. rewrite map_app. apply in_or_app. right.
    now apply in_map.
  - now apply in_map.
Qed.

(** C1. For a declared faction F whose directory is found, every
    subfaction S of F and every category C, the final bucket of (F, S, C)
    holds, by unit name, every base-faction record loaded for C directly
    under the directory of F; nothing is asked of the directory of S. *)
Theorem C1_base_units_inherited fs F fdir S C u :
  exists_ fs data_path = true ->
  declared F S ->
  faction_dir fs F = Some fdir ->
  In C UNIT_CATEGORIES ->
  In u (base_units fs fdir F C) ->
  exists st b,
    DataManager_init fs = Ok st /\
    bucket (faction_units st) F S C = Some b /\
    get_units_for_path st F (Some S) (Some C) = Ok b /\
    In (UnitData.name u) (map UnitData.name b).
Proof.
  intros Hroot Hdecl Hdir HC Hu.
  destruct (loaded_buckets fs Hroot) as (st & Hrun & Hb).
  specialize (Hb F S C Hdecl HC).
  exists st, (expected_bucket fs F S C).
  split; [exact Hrun|]. split; [exact Hb|].
  split; [now apply get_units_for_path_bucket|].
  now apply (expected_bucket_base_names fs F fdir).
Qed.

Lemma soviet_russia_declared : declared "Soviet Union" "Russia".
Proof.
  eexists. split; [right; left; reflexivity|left; reflexivity].
Defined.

Lemma soviet_china_declared : declared "Soviet Union" "China".
Proof.
  eexists. split; [right; left; reflexivity|right; right; left; reflexivity].
Defined.

Lemma C1_witness :
  exists st b,
    DataManager_init example_fs = Ok st /\
    bucket (faction_units st) "Soviet Union" "China" "Infantry" = Some b /\
    get_units_for_path st "Soviet Union" (Some "China") (Some "Infantry") = Ok b /\
    In "Conscript" (map UnitData.name b).
Proof.
  apply (C1_base_units_inherited example_fs "Soviet Union" soviet_dir "China"
           "Infantry"
           (example_unit "Conscript" "Soviet Union" temp_subfaction "Infantry")).
  - reflexivity.
  - exact soviet_china_declared.
  - reflexivity.
  - simpl. tauto.
  - vm_compute. tauto.
Defined.

(** Where the directory of the subfaction is found, the bucket is sorted
    by name and holds no name twice. *)
Lemma found_bucket_sorted_unique fs F fdir S sdir C :
  faction_dir fs F = Some fdir ->
  subfaction_dir fs fdir S = Some sdir ->
  Sorted name_le (expected_bucket fs F S C) /\
  NoDup (map UnitData.name (expected_bucket fs F S C)).
Proof.
  intros Hdir Hsub. unfold expected_bucket. rewrite Hdir, Hsub. split.
  - apply (sorted_by_sorted _ UnitData.name).
  - apply (Permutation_NoDup
             (Permutation_map UnitData.name
                (Permutation_sym (sorted_by_perm _ UnitData.name _)))).
    apply unique_units_NoDup.
Qed.

(** C2, at the failing input.  The Soviet Union has base units and China
    has no directory: the bucket of (Soviet Union, China, Infantry) is the
    list of base units as the directory listed them, neither sorted nor
    free of repeated names. *)
Theorem C2_missing_directory_bucket_unsorted :
  exists st b,
    DataManager_init example_fs = Ok st /\
    bucket (faction_units st) "Soviet Union" "China" "Infantry" = Some b /\
    map UnitData.name b = ["Tesla Trooper"; "Conscript"; "Conscript"] /\
    ~ Sorted name_le b /\
    ~ NoDup (map UnitData.name b).
Proof.
  destruct (loaded_buckets example_fs eq_refl) as (st & Hrun & Hb).
  specialize (Hb "Soviet Union" "China" "Infantry" soviet_china_declared).
  exists st, (expected_bucket example_fs "Soviet Union" "China" "Infantry").
  split; [exact Hrun|]. split; [apply Hb; simpl; tauto|].
  split; [reflexivity|]. split.
  - vm_compute. intros Hs. inversion Hs as [|? ? _ Hhd]; subst.
    inversion Hhd as [|? ? Hle]; subst. discriminate Hle.
  - vm_compute. intros Hnd. inversion Hnd as [|? ? _ Hnd']; subst.
    inversion Hnd' as [|? ? Hnot _]; subst. apply Hnot. now left.
Qed.

(** Where the subfaction directory is found, the bucket is what the
    deduplication leaves of the merged list (the records of the subfaction,
    then the base-faction records): for a name that the merged list carries,
    exactly one record of the bucket has it, and it is the first record of
    the merged list with that name. *)
Lemma found_bucket_first_occurrence fs F fdir S sdir C n u :
  exists_ fs data_path = true ->
  declared F S ->
  faction_dir fs F = Some fdir ->
  subfaction_dir fs fdir S = Some sdir ->
  In C UNIT_CATEGORIES ->
  find (has_name n)
    (category_units fs sdir F S C ++ base_units fs fdir F C) = Some u ->
  exists st b,
    DataManager_init fs = Ok st /\
    bucket (faction_units st) F S C = Some b /\
    filter (has_name n) b = [u].
Proof.
  intros Hroot Hdecl Hdir Hsub HC Hfind.
  destruct (loaded_buckets fs Hroot) as (st & Hrun & Hb).
  specialize (Hb F S C Hdecl HC).
  exists st, (expected_bucket fs F S C).
  split; [exact Hrun|]. split; [exact Hb|].
  unfold expected_bucket. rewrite Hdir, Hsub.
  set (merged := category_units fs sdir F S C ++ base_units fs fdir F C) in *.
  apply Permutation_length_1_inv.
  rewrite <- (filter_unique_name (unique_units_of merged) n u).
  - apply Permutation_sym, Permutation_filter_compat, sorted_by_perm.
  - apply unique_units_NoDup.
  - now rewrite unique_units_find.
Qed.

(** C3, at the failing input.  China has no directory, so its merged
    Infantry bucket is the list of the base-faction records, which carries
    the name Conscript twice.  The load leaves the bucket as merged: both
    records with that name are still in it, not the first one alone. *)
Theorem C3_missing_directory_keeps_both :
  subfaction_dir example_fs soviet_dir "China" = None /\
  map UnitData.name
    (category_units example_fs (soviet_dir ++ ["subfaction"; "China"])
       "Soviet Union" "China" "Infantry" ++
     base_units example_fs soviet_dir "Soviet Union" "Infantry") =
    ["Tesla Trooper"; "Conscript"; "Conscript"] /\
  exists st b,
    DataManager_init example_fs = Ok st /\
    bucket (faction_units st) "Soviet Union" "China" "Infantry" = Some b /\
    filter (has_name "Conscript") b =
      [ example_unit "Conscript" "Soviet Union" temp_subfaction "Infantry";
        example_unit "Conscript" "Soviet Union" temp_subfaction "Infantry" ] /\
    get_units_for_path st "Soviet Union" (Some "China") (Some "Infantry") =
      Ok b.
Proof.
  split; [reflexivity|]. split; [reflexivity|].
  destruct (loaded_buckets example_fs eq_refl) as (st & Hrun & Hb).
  specialize (Hb "Soviet Union" "China" "Infantry" soviet_china_declared).
  exists st, (expected_bucket example_fs "Soviet Union" "China" "Infantry").
  split; [exact Hrun|].
  assert (HC : In "Infantry" UNIT_CATEGORIES) by (simpl; tauto).
  split; [now apply Hb|]. split; [reflexivity|].
  apply get_units_for_path_bucket. now apply Hb.
Qed.

(** ** The search index *)

Lemma prefix_app (q s : string) :
  String.prefix q s = true <-> exists b : string, s = (q ++ b)%string.
Proof.
  revert s. induction q as [|c q IH]; intros s.
  - destruct s; simpl; split; intros _; try reflexivity; eexists; reflexivity.
  - destruct s as [|c' s]; simpl.
    + split; [discriminate|]. intros [b Hb]. discriminate.
    + destruct (Ascii.ascii_dec c c') as [<-|Hne].
      * rewrite IH. split; intros [b Hb]; exists b; congruence.
      * split; [discriminate|]. intros [b Hb]. congruence.
Qed.

Lemma contains_nil (q : string) :
  Str.contains q EmptyString = String.prefix q EmptyString || false.
Proof. reflexivity. Qed.

Lemma contains_cons (q : string) c s :
  Str.contains q (String c s) =
  String.prefix q (String c s) || Str.contains q s.
Proof. reflexivity. Qed.

(** [Str.contains] decides [substring_of]. *)
Lemma contains_spec (q s : string) :
  Str.contains q s = true <-> substring_of q s.
Proof.
  unfold substring_of. split.
  - induction s as [|c s IH].
    + rewrite contains_nil, orb_true_iff.
      intros [H|H]; [|discriminate]. apply prefix_app in H as [b Hb].
      exists EmptyString, b. exact Hb.
    + rewrite contains_cons, orb_true_iff. intros [H|H].
      * apply prefix_app in H as [b Hb]. exists EmptyString, b. exact Hb.
      * destruct (IH H) as (a & b & Hab). exists (String c a), b.
        simpl. now rewrite Hab.
  - intros (a & b & Hab). revert s Hab.
    induction a as [|c a IH]; intros s Hab.
    + simpl in Hab.
      assert (Hp : String.prefix q s = true) by (apply prefix_app; now exists b).
      destruct s; [rewrite contains_nil|rewrite contains_cons];
        rewrite Hp; reflexivity.
    + simpl in Hab. subst s. rewrite contains_cons, orb_true_iff. right.
      now apply IH.
Qed.

Lemma filter_subsequence {A : Type} (p : A -> bool) (l : list A) :
  subsequence (filter p l) l.
Proof.
  induction l as [|x l IH]; simpl.
  - constructor.
  - destruct (p x); now constructor.
Qed.

Lemma matches_spec query item :
  matches query item = true <->
  substring_of query (Str.lower (SearchItem.name item)) \/
  substring_of query (Str.lower (SearchItem.faction item)) \/
  substring_of query (Str.lower (SearchItem.subfaction item)) \/
  substring_of query (Str.lower (SearchItem.category item)).
Proof.
  unfold matches. rewrite !orb_true_iff, !contains_spec. tauto.
Qed.

(** The index of a loaded manager is sorted by lowercased name and holds
    the search items of [self.units]. *)
Lemma loaded_index fs st :
  DataManager_init fs = Ok st ->
  Sorted lower_name_le (search_index st) /\
  forall e, In e (search_index st) <->
            In e (map search_item_of (PyDict.values (units st))).
Proof.
  unfold DataManager_init, _load_data.
  destruct (negb (exists_ fs data_path)).
  - intros [= <-]. simpl. split; [constructor|tauto].
  - destruct (init_structure new_manager) as [st0|]; [|discriminate].
    cbn [bind].
    destruct (_load_units_from_directory fs data_path st0) as [st1|];
      [|discriminate].
    cbn [bind]. intros [= <-]. unfold _build_search_index. simpl. split.
    + apply (sorted_by_sorted _ (fun x => Str.lower (SearchItem.name x))).
    + intros e. apply sorted_by_In.
Qed.

(** C4. On a loaded manager and a query that is not empty, [search_units]
    returns exactly the index entries of which the lowercased query is a
    substring of the lowercased name, faction, subfaction or category; what
    it returns is the index with the other entries left out, in the order
    of the index, and the index is sorted by lowercased name. *)
Theorem C4_search_is_filtered_index fs st q :
  DataManager_init fs = Ok st ->
  q <> EmptyString ->
  (forall e,
     In e (search_units st q) <->
     In e (search_index st) /\
     (substring_of (Str.lower q) (Str.lower (SearchItem.name e)) \/
      substring_of (Str.lower q) (Str.lower (SearchItem.faction e)) \/
      substring_of (Str.lower q) (Str.lower (SearchItem.subfaction e)) \/
      substring_of (Str.lower q) (Str.lower (SearchItem.category e)))) /\
  subsequence (search_units st q) (search_index st) /\
  Sorted lower_name_le (search_index st).
Proof.
  intros Hrun Hq.
  assert (Hs : search_units st q =
               filter (matches (Str.lower q)) (search_index st)).
  { unfold search_units. destruct q; [contradiction|reflexivity]. }
  rewrite Hs. split; [|split].
  - intros e. rewrite filter_In, matches_spec. reflexivity.
  - apply filter_subsequence.
  - apply (loaded_index fs st Hrun).
Qed.

(** C5. The empty query returns the empty list, whatever the index
    holds. *)
Theorem C5_empty_query_returns_nothing (self : DataManager) :
  search_units self EmptyString = [].
Proof. reflexivity. Qed.

(** ** The lookup facade *)

Lemma get_units_for_path_total self faction subfaction category :
  exists l, get_units_for_path self faction subfaction category = Ok l.
Proof.
  unfold get_units_for_path, PyDict.mem, PyDict.getitem.
  destruct (PyDict.get (faction_units self) faction) as [subs|]; cbn [negb bind];
    [|eexists; reflexivity].
  destruct subfaction as [s|]; [|eexists; reflexivity].
  destruct (PyDict.get subs s) as [cats|]; cbn [negb bind];
    [|eexists; reflexivity].
  destruct category as [c|]; [|eexists; reflexivity].
  destruct (PyDict.get cats c); cbn [negb]; eexists; reflexivity.
Qed.

(** C6. [get_units_for_path] never raises, and on a path with an unknown
    faction, subfaction or category it returns the empty list. *)
Theorem C6_unknown_path_is_empty self faction subfaction category :
  unknown_path (faction_units self) faction subfaction category ->
  get_units_for_path self faction subfaction category = Ok [] /\
  forall f s c, exists l, get_units_for_path self f s c = Ok l.
Proof.
  intros Hunknown. split; [|intros f s c; apply get_units_for_path_total].
  unfold get_units_for_path.
  destruct Hunknown as [HF|[(subs & s & -> & HF & HS)|
                            (subs & s & cats & c & -> & -> & HF & HS & HC)]].
  - now rewrite HF.
  - unfold PyDict.mem at 1, PyDict.getitem. rewrite HF. cbn [negb bind].
    now rewrite HS.
  - unfold PyDict.mem at 1, PyDict.getitem. rewrite HF. cbn [negb bind].
    unfold PyDict.mem at 1. rewrite HS. cbn [negb bind]. now rewrite HC.
Qed.

Lemma C6_witness :
  get_units_for_path example_manager "Soviet Union" (Some "Russia")
    (Some "Aircraft") = Ok [] /\
  forall f s c, exists l, get_units_for_path example_manager f s c = Ok l.
Proof.
  apply C6_unknown_path_is_empty.
  right. right. do 4 eexists.
  repeat split; reflexivity.
Defined.

(** C7. For a known faction, the call with the faction alone returns the
    records of all buckets of all its subfactions; for a known subfaction,
    the call with faction and subfaction returns the records of all buckets
    of that subfaction. *)
Theorem C7_union_over_subfactions_and_categories self F subs :
  PyDict.get (faction_units self) F = Some subs ->
  (exists l,
      get_units_for_path self F None None = Ok l /\
      forall u, In u l <->
                exists S cats C b,
                  In (S, cats) (PyDict.items subs) /\
                  In (C, b) (PyDict.items cats) /\ In u b) /\
  (forall S cats,
      PyDict.get subs S = Some cats ->
      exists l,
        get_units_for_path self F (Some S) None = Ok l /\
        forall u, In u l <->
                  exists C b, In (C, b) (PyDict.items cats) /\ In u b).
Proof.
  intros HF.
  assert (Hcats : forall (cats : dict (list UnitData.t)) u,
            In u (List.concat (PyDict.values cats)) <->
            exists C b, In (C, b) (PyDict.items cats) /\ In u b).
  { intros cats u. unfold PyDict.values, PyDict.items. rewrite in_concat. split.
    - intros (b & Hb & Hu). apply in_map_iff in Hb as ([C b'] & <- & Hin).
      now exists C, b'.
    - intros (C & b & Hin & Hu). exists b. split; [|exact Hu].
      apply in_map_iff. now exists (C, b). }
  split.
  - eexists. split.
    + unfold get_units_for_path, PyDict.mem, PyDict.getitem. rewrite HF.
      reflexivity.
    + intros u. unfold PyDict.values at 2, PyDict.items at 1.
      rewrite in_concat. split.
      * intros (l & Hl & Hu). apply in_map_iff in Hl as (cats & <- & Hin).
        apply in_map_iff in Hin as ([S cats'] & <- & Hin).
        apply Hcats in Hu as (C & b & HC & Hu).
        now exists S, cats', C, b.
      * intros (S & cats & C & b & HS & HC & Hu).
        exists (List.concat (PyDict.values cats)). split.
        -- apply in_map_iff. exists cats. split; [reflexivity|].
           apply in_map_iff. now exists (S, cats).
        -- apply Hcats. now exists C, b.
  - intros S cats HS. eexists. split.
    + unfold get_units_for_path, PyDict.mem, PyDict.getitem. rewrite HF.
      cbn [negb bind]. rewrite HS. reflexivity.
    + apply Hcats.
Qed.

Lemma C7_witness :
  (exists l,
      get_units_for_path example_manager "Soviet Union" None None = Ok l /\
      forall u, In u l <->
                exists S cats C b,
                  In (S, cats)
                    (PyDict.items
                       (PyDict.get_default (faction_units example_manager)
                          "Soviet Union" PyDict.empty)) /\
                  In (C, b) (PyDict.items cats) /\ In u b) /\
  (forall S cats,
      PyDict.get
        (PyDict.get_default (faction_units example_manager) "Soviet Union"
           PyDict.empty) S = Some cats ->
      exists l,
        get_units_for_path example_manager "Soviet Union" (Some S) None = Ok l /\
        forall u, In u l <->
                  exists C b, In (C, b) (PyDict.items cats) /\ In u b).
Proof.
  apply (C7_union_over_subfactions_and_categories example_manager
           "Soviet Union").
  reflexivity.
Defined.

(** ** Files that do not load *)








Lemma print_same line line0 a a0 :
  same_manager a a0 -> same_manager (print line a) (print line0 a0).
Proof. intros H. exact H. Qed.








(** *** What is printed stays on the console *)











(** *** The file that raises is reported *)

Section Reported.
Variable fs : FileSystem.
Variable bad : JsonFile.
Variable e : exn.
Hypothesis bad_raises : outcome bad = Raises e.





End Reported.

(** *** The load without the file *)

Section SkippedFile.
Variable fs : FileSystem.
Variable dir : Path.
Variable name : string.
Hypothesis name_raises :
  forall f, In f (glob_json fs dir) -> stem f = name ->
            exists e, outcome f = Raises e.










End SkippedFile.




(** ** Settings *)

Lemma load_saved_settings self disk :
  writable disk = true ->
  load_settings (save_settings self disk) self =
  {| current_theme := PyDict.update (current_theme self) (current_theme self);
     custom_settings :=
       PyDict.update (custom_settings self) (custom_settings self) |}.
Proof.
  intros Hw. unfold save_settings. rewrite Hw. reflexivity.
Qed.

(** C9. When the write of [save_settings] goes through, [load_settings]
    on the saved file leaves the theme and the custom settings as they
    were, and a manager started on that file ([ThemeManager()]) holds every
    saved setting, opacity and scales among them, at its saved value. *)
Theorem C9_settings_round_trip self disk :
  PyDict.wf (current_theme self) ->
  PyDict.wf (custom_settings self) ->
  writable disk = true ->
  load_settings (save_settings self disk) self = self /\
  (forall k v,
      PyDict.get (custom_settings self) k = Some v ->
      PyDict.get (custom_settings (ThemeManager_init (save_settings self disk))) k
      = Some v) /\
  (forall k v,
      PyDict.get (current_theme self) k = Some v ->
      PyDict.get (current_theme (ThemeManager_init (save_settings self disk))) k
      = Some v).
Proof.
  intros Ht Hc Hw. split; [|split].
  - rewrite (load_saved_settings self disk Hw).
    rewrite (PyDictFacts.update_self _ _ Ht), (PyDictFacts.update_self _ _ Hc).
    now destruct self.
  - intros k v Hget. unfold ThemeManager_init, save_settings. rewrite Hw.
    simpl. now apply PyDictFacts.get_update.
  - intros k v Hget. unfold ThemeManager_init, save_settings. rewrite Hw.
    simpl. now apply PyDictFacts.get_update.
Qed.

(** ** The records kept in [self.units] *)

Lemma append_assoc (a b c : string) :
  ((a ++ b) ++ c = a ++ (b ++ c))%string.
Proof. induction a as [|x a IH]; simpl; [reflexivity|now rewrite IH]. Qed.

Lemma append_inv_head (p a b : string) :
  (p ++ a = p ++ b)%string -> a = b.
Proof.
  induction p as [|x p IH]; simpl; [auto|]. intros [= H]. now apply IH.
Qed.

Lemma append_prefix_cases (p p' a b : string) :
  (p ++ a = p' ++ b)%string ->
  String.prefix p p' = true \/ String.prefix p' p = true.
Proof.
  revert p'. induction p as [|x p IH]; intros p' H.
  - left. now destruct p'.
  - destruct p' as [|y p'].
    + right. reflexivity.
    + simpl in H. injection H as -> H. simpl.
      destruct (Ascii.ascii_dec y y) as [_|Hne]; [|contradiction].
      now apply IH.
Qed.

Lemma triple_eqb_eq t t' : triple_eqb t t' = true -> t = t'.
Proof.
  destruct t as [[a b] c], t' as [[a' b'] c']. unfold triple_eqb. simpl.
  intros H. apply andb_prop in H as [H Hc]. apply andb_prop in H as [Ha Hb].
  apply String.eqb_eq in Ha, Hb, Hc. congruence.
Qed.

Lemma unit_key_prefix u :
  unit_key u = (key_prefix (triple_of u) ++ UnitData.name u)%string.
Proof.
  unfold unit_key, key_prefix, triple_of. cbn [fst snd].
  now rewrite !append_assoc.
Qed.

(** No key prefix of a path begins another one. *)
Lemma key_prefixes_apart :
  forallb
    (fun t =>
       forallb
         (fun t' =>
            implb (String.prefix (key_prefix t) (key_prefix t'))
                  (triple_eqb t t'))
         origin_triples)
    origin_triples = true.
Proof. vm_compute. reflexivity. Qed.

Lemma unit_key_inj u v :
  origin u -> origin v -> unit_key u = unit_key v ->
  triple_of u = triple_of v /\ UnitData.name u = UnitData.name v.
Proof.
  unfold origin. intros Hu Hv Hkey. rewrite !unit_key_prefix in Hkey.
  assert (Hapart : forall t t', In t origin_triples -> In t' origin_triples ->
            String.prefix (key_prefix t) (key_prefix t') = true -> t = t').
  { intros t t' Ht Ht' Hp. pose proof key_prefixes_apart as H.
    rewrite forallb_forall in H. specialize (H t Ht).
    rewrite forallb_forall in H. specialize (H t' Ht').
    rewrite Hp in H. now apply triple_eqb_eq. }
  assert (Heq : triple_of u = triple_of v).
  { destruct (append_prefix_cases _ _ _ _ Hkey) as [Hp|Hp].
    - now apply Hapart.
    - symmetry. now apply Hapart. }
  split; [exact Heq|]. rewrite Heq in Hkey. now apply append_inv_head in Hkey.
Qed.

Lemma origin_base F data C :
  In (F, data) (PyDict.items FACTION_HIERARCHY) -> In C UNIT_CATEGORIES ->
  In (F, temp_subfaction, C) origin_triples.
Proof.
  intros Hin HC. unfold origin_triples. apply in_flat_map.
  exists (F, data). split; [exact Hin|]. apply in_flat_map.
  exists temp_subfaction. split; [now left|].
  apply in_map_iff. now exists C.
Qed.

Lemma origin_sub F data S C :
  In (F, data) (PyDict.items FACTION_HIERARCHY) ->
  In S (PyDict.keys (subfactions data)) -> In C UNIT_CATEGORIES ->
  In (F, S, C) origin_triples.
Proof.
  intros Hin HS HC. unfold origin_triples. apply in_flat_map.
  exists (F, data). split; [exact Hin|]. apply in_flat_map.
  exists S. split; [now right|].
  apply in_map_iff. now exists C.
Qed.

Lemma units_grow_refl d : units_grow d d.
Proof. split; auto. Qed.

Lemma units_grow_trans d1 d2 d3 :
  units_grow d1 d2 -> units_grow d2 d3 -> units_grow d1 d3.
Proof.
  intros [A1 B1] [A2 B2]. split.
  - intros k v H. destruct (A2 k v H) as [H'|H']; [now apply A1|now right].
  - auto.
Qed.

Lemma units_grow_set d u :
  origin u -> units_grow d (PyDict.set d (unit_key u) u).
Proof.
  intros Hu. split.
  - intros k v H. apply PyDictFacts.In_set in H as [[-> ->]|H]; [right|left]; auto.
  - intros k. apply PyDictFacts.mem_set.
Qed.

Lemma load_json_file_units_eq dir F S C self n jf :
  units (fst (load_json_file dir F S C (self, n) jf)) =
  match outcome jf with
  | Parsed unit_name data =>
      PyDict.set (units self)
        (unit_key (make_unit jf unit_name data F S C))
        (make_unit jf unit_name data F S C)
  | Raises _ => units self
  end.
Proof.
  unfold load_json_file.
  destruct (outcome jf) as [e|unit_name data]; [destruct e; reflexivity|].
  cbv zeta. simpl faction_units.
  destruct (PyDict.get (faction_units self) F) as [subs|]; [|reflexivity].
  destruct (PyDict.get subs S) as [cats|]; [|reflexivity].
  destruct (PyDict.get cats C); reflexivity.
Qed.

Lemma load_json_file_units dir F S C s jf :
  In (F, S, C) origin_triples ->
  units_grow (units (fst s)) (units (fst (load_json_file dir F S C s jf))) /\
  forall u, In u (parsed_units F S C [jf]) ->
            PyDict.mem (units (fst (load_json_file dir F S C s jf))) (unit_key u)
            = true.
Proof.
  intros Ho. destruct s as [self n]. rewrite load_json_file_units_eq.
  unfold parsed_units. cbn [flat_map fst].
  destruct (outcome jf) as [e|unit_name data].
  - split; [apply units_grow_refl|intros u []].
  - split.
    + apply units_grow_set. exact Ho.
    + intros v [<-|[]]. unfold PyDict.mem.
      now rewrite PyDictFacts.get_set_same.
Qed.

Lemma load_files_units dir F S C files :
  In (F, S, C) origin_triples ->
  forall s,
    units_grow (units (fst s))
      (units (fst (fold_left (load_json_file dir F S C) files s))) /\
    forall u, In u (parsed_units F S C files) ->
      PyDict.mem
        (units (fst (fold_left (load_json_file dir F S C) files s)))
        (unit_key u) = true.
Proof.
  intros Ho. induction files as [|jf files IH]; intros s.
  - split; [apply units_grow_refl|intros u []].
  - cbn [fold_left].
    destruct (load_json_file_units dir F S C s jf Ho) as [G1 P1].
    destruct (IH (load_json_file dir F S C s jf)) as [G2 P2].
    split; [eapply units_grow_trans; eassumption|].
    intros u Hu. change (jf :: files) with ([jf] ++ files) in Hu.
    rewrite parsed_units_app in Hu. apply in_app_or in Hu as [Hu|Hu].
    + apply G2. now apply P1.
    + now apply P2.
Qed.

Lemma load_category_units fs dir F S self C :
  In (F, S, C) origin_triples ->
  units_grow (units self) (units (load_category fs dir F S self C)) /\
  forall u, In u (category_units fs dir F S C) ->
            PyDict.mem (units (load_category fs dir F S self C)) (unit_key u)
            = true.
Proof.
  intros Ho. unfold load_category, category_units.
  destruct (exists_ fs (dir ++ [Str.replace_space "_" C])); cbn [negb].
  - pose proof (load_files_units (dir ++ [Str.replace_space "_" C]) F S C
                  (glob_json fs (dir ++ [Str.replace_space "_" C])) Ho (self, 0))
      as H.
    destruct (fold_left _ _ (self, 0)) as [self1 n1]. cbn [fst] in H.
    destruct (0 <? n1)%nat; exact H.
  - split; [apply units_grow_refl|intros u []].
Qed.

Lemma load_categories_units fs dir F S (cs : list string) :
  (forall C, In C cs -> In (F, S, C) origin_triples) ->
  forall self,
    units_grow (units self)
      (units (fold_left (load_category fs dir F S) cs self)) /\
    forall C u, In C cs -> In u (category_units fs dir F S C) ->
      PyDict.mem (units (fold_left (load_category fs dir F S) cs self))
        (unit_key u) = true.
Proof.
  induction cs as [|c cs IH]; intros Ho self.
  - split; [apply units_grow_refl|intros C u []].
  - cbn [fold_left].
    destruct (load_category_units fs dir F S self c (Ho c (or_introl eq_refl)))
      as [G1 P1].
    destruct (IH (fun C H => Ho C (or_intror H)) (load_category fs dir F S self c))
      as [G2 P2].
    split; [eapply units_grow_trans; eassumption|].
    intros C u [<-|HC] Hu.
    + apply G2. now apply P1.
    + now apply (P2 C).
Qed.

Lemma on_catalog_units stmt st st' :
  on_catalog stmt st = Ok st' -> units st' = units st.
Proof.
  unfold on_catalog. destruct (stmt (faction_units st)); simpl; [|discriminate].
  now intros [= <-].
Qed.

Lemma inherit_base_units F S base st st' :
  inherit_base F S base st = Ok st' -> units st' = units st.
Proof.
  unfold inherit_base.
  apply (for_each_inv (fun s => units s = units st)); [|reflexivity].
  intros a s s' _ Hs Hstep. apply on_catalog_units in Hstep. congruence.
Qed.

Lemma dedupe_and_sort_units F S st st' :
  dedupe_and_sort F S st = Ok st' -> units st' = units st.
Proof.
  unfold dedupe_and_sort.
  apply (for_each_inv (fun s => units s = units st)); [|reflexivity].
  intros a s s' _ Hs Hstep. cbv beta in Hstep.
  destruct (read_bucket _ _ _ _); simpl in Hstep; [|discriminate].
  apply on_catalog_units in Hstep. congruence.
Qed.

Lemma load_subfaction_units fs fdir F base S st st' :
  (forall C, In C UNIT_CATEGORIES -> In (F, S, C) origin_triples) ->
  load_subfaction fs fdir F base S st = Ok st' ->
  units_grow (units st) (units st').
Proof.
  intros Ho. unfold load_subfaction.
  destruct (subfaction_variants S) as [vs|]; [|discriminate]. cbn [bind].
  destruct (first_existing fs (fdir ++ ["subfaction"]) vs) as [sdir|].
  - set (st2 := _load_category_units fs sdir F S _).
    destruct (inherit_base F S base st2) as [st3|] eqn:E3; [|discriminate].
    cbn [bind]. intros H4.
    apply dedupe_and_sort_units in H4. apply inherit_base_units in E3.
    rewrite H4, E3. unfold st2, _load_category_units.
    exact (proj1 (load_categories_units fs sdir F S UNIT_CATEGORIES Ho
                    (print _ st))).
  - intros H. apply inherit_base_units in H. rewrite H. apply units_grow_refl.
Qed.

Lemma load_faction_units fs F data st st' :
  In (F, data) (PyDict.items FACTION_HIERARCHY) ->
  load_faction fs data_path (F, data) st = Ok st' ->
  units_grow (units st) (units st') /\
  forall fdir C u,
    faction_dir fs F = Some fdir -> In C UNIT_CATEGORIES ->
    In u (base_units fs fdir F C) ->
    PyDict.mem (units st') (unit_key u) = true.
Proof.
  intros Hin. unfold load_faction, faction_dir, base_units.
  destruct (first_existing fs data_path (faction_variants F)) as [fdir|].
  - set (st0 := print _ st).
    destruct (on_catalog (assign_subfaction F temp_subfaction) st0)
      as [st1|] eqn:E1; [|discriminate]. cbn [bind].
    destruct (for_each UNIT_CATEGORIES _ st1) as [st2|] eqn:E2; [|discriminate].
    cbn [bind].
    set (st3 := _load_category_units fs fdir F temp_subfaction st2).
    destruct (copy_base F (faction_units st3)) as [base|]; [|discriminate].
    cbn [bind].
    destruct (on_catalog (delete_subfaction F temp_subfaction) st3)
      as [st5|] eqn:E5; [|discriminate]. cbn [bind].
    intros H6.
    assert (U2 : units st2 = units st).
    { apply on_catalog_units in E1.
      assert (H : units st2 = units st1).
      { revert E2. apply (for_each_inv (fun s => units s = units st1)); [|reflexivity].
        intros a s s' _ Hs Hstep. apply on_catalog_units in Hstep. congruence. }
      rewrite H, E1. reflexivity. }
    destruct (load_categories_units fs fdir F temp_subfaction UNIT_CATEGORIES
                (fun C HC => origin_base F data C Hin HC) st2) as [G3 P3].
    fold (_load_category_units fs fdir F temp_subfaction st2) in G3, P3.
    fold st3 in G3, P3. rewrite U2 in G3.
    apply on_catalog_units in E5.
    assert (G6 : units_grow (units st5) (units st')).
    { revert H6.
      apply (for_each_inv (fun s => units_grow (units st5) (units s)));
        [|apply units_grow_refl].
      intros S s s' HS Hs Hstep. eapply units_grow_trans; [exact Hs|].
      eapply load_subfaction_units; [|exact Hstep].
      intros C HC. now apply (origin_sub F data). }
    rewrite E5 in G6. split.
    + eapply units_grow_trans; eassumption.
    + intros fdir' C u [= <-] HC Hu. apply G6. now apply (P3 C).
  - intros [= <-]. split; [apply units_grow_refl|discriminate].
Qed.

Lemma load_factions_units fs (xs : list (string * FactionData)) :
  (forall entry, In entry xs -> In entry (PyDict.items FACTION_HIERARCHY)) ->
  forall st st',
    for_each xs (load_faction fs data_path) st = Ok st' ->
    units_grow (units st) (units st') /\
    forall F data fdir C u,
      In (F, data) xs -> faction_dir fs F = Some fdir ->
      In C UNIT_CATEGORIES -> In u (base_units fs fdir F C) ->
      PyDict.mem (units st') (unit_key u) = true.
Proof.
  induction xs as [|[F0 data0] xs IH]; intros Hsub st st' Hrun;
    cbn [for_each] in Hrun.
  - injection Hrun as <-. split; [apply units_grow_refl|].
    intros F data fdir C u [].
  - destruct (load_faction fs data_path (F0, data0) st) as [st1|] eqn:E1;
      [|discriminate]. cbn [bind] in Hrun.
    destruct (load_faction_units fs F0 data0 st st1
                (Hsub _ (or_introl eq_refl)) E1) as [G1 P1].
    destruct (IH (fun e H => Hsub e (or_intror H)) st1 st' Hrun) as [G2 P2].
    split; [eapply units_grow_trans; eassumption|].
    intros F data fdir C u [[= <- <-]|Hin] Hdir HC Hu.
    + apply G2. now apply (P1 fdir C).
    + now apply (P2 F data fdir C).
Qed.

(** After the load, every record of [self.units] is filed under its own
    key and comes from a path of the loader, and every base-faction record
    has its key in [self.units]. *)
Lemma loaded_units fs st :
  exists_ fs data_path = true ->
  DataManager_init fs = Ok st ->
  (forall k v, In (k, v) (units st) -> k = unit_key v /\ origin v) /\
  (forall F data fdir C u,
      In (F, data) (PyDict.items FACTION_HIERARCHY) ->
      faction_dir fs F = Some fdir -> In C UNIT_CATEGORIES ->
      In u (base_units fs fdir F C) ->
      PyDict.mem (units st) (unit_key u) = true).
Proof.
  intros Hroot. unfold DataManager_init, _load_data. rewrite Hroot. cbn [negb].
  destruct init_structure_spec as (st0 & Hinit & Hu0 & _).
  rewrite Hinit. cbn [bind].
  destruct (_load_units_from_directory fs data_path st0) as [st1|] eqn:E1;
    [|discriminate]. cbn [bind]. intros [= <-].
  unfold _load_units_from_directory in E1.
  destruct (load_factions_units fs (PyDict.items FACTION_HIERARCHY)
              (fun e H => H) st0 st1 E1) as [[G _] P].
  rewrite Hu0 in G. split.
  - intros k v Hkv. destruct (G k v Hkv) as [[]|H]; exact H.
  - exact P.
Qed.

(** ** The placeholder subfaction of base-faction records *)

Lemma category_units_fields fs dir F S C u :
  In u (category_units fs dir F S C) ->
  UnitData.faction u = F /\ UnitData.subfaction u = S /\
  UnitData.category u = C.
Proof.
  unfold category_units, parsed_units.
  destruct (exists_ fs (dir ++ [Str.replace_space "_" C])); [|intros []].
  intros H. apply in_flat_map in H as (jf & _ & H).
  destruct (outcome jf); [destruct H|].
  destruct H as [<-|[]]. auto.
Qed.




(** ** The statements above on the example data directory *)

Lemma example_loaded_run : DataManager_init example_fs = Ok example_loaded.
Proof. vm_compute. reflexivity. Qed.

Lemma C4_witness :
  (forall e,
     In e (search_units example_loaded "TESLA") <->
     In e (search_index example_loaded) /\
     (substring_of (Str.lower "TESLA") (Str.lower (SearchItem.name e)) \/
      substring_of (Str.lower "TESLA") (Str.lower (SearchItem.faction e)) \/
      substring_of (Str.lower "TESLA") (Str.lower (SearchItem.subfaction e)) \/
      substring_of (Str.lower "TESLA") (Str.lower (SearchItem.category e)))) /\
  subsequence (search_units example_loaded "TESLA")
    (search_index example_loaded) /\
  Sorted lower_name_le (search_index example_loaded).
Proof.
  apply (C4_search_is_filtered_index example_fs example_loaded "TESLA").
  - exact example_loaded_run.
  - discriminate.
Defined.

Lemma C9_witness :
  load_settings (save_settings example_settings empty_disk) example_settings
  = example_settings /\
  (forall k v,
      PyDict.get (custom_settings example_settings) k = Some v ->
      PyDict.get
        (custom_settings
           (ThemeManager_init (save_settings example_settings empty_disk))) k
      = Some v) /\
  (forall k v,
      PyDict.get (current_theme example_settings) k = Some v ->
      PyDict.get
        (current_theme
           (ThemeManager_init (save_settings example_settings empty_disk))) k
      = Some v).
Proof.
  apply (C9_settings_round_trip example_settings empty_disk).
  - unfold PyDict.wf. simpl.
    repeat (constructor; [simpl; intuition discriminate|]). constructor.
  - unfold PyDict.wf. simpl.
    repeat (constructor; [simpl; intuition discriminate|]). constructor.
  - reflexivity.
Defined.


(** * Further properties of the loader, the index and the facade *)

(** ** What a load leaves in the catalog *)

(** X1. After a load with the data directory present, the bucket of every
    declared path is known in full: empty when the faction directory is
    not found; the base-faction records in listing order when the
    subfaction directory is not found; the subfaction's own records followed
    by the base-faction records, deduplicated by name and sorted, when both
    are found.  [get_units_for_path] on the full path returns that list. *)
Theorem X1_bucket_after_load fs F S C :
  exists_ fs data_path = true ->
  declared F S ->
  In C UNIT_CATEGORIES ->
  exists st,
    DataManager_init fs = Ok st /\
    get_units_for_path st F (Some S) (Some C) =
    Ok match faction_dir fs F with
       | None => []
       | Some fdir =>
           match subfaction_dir fs fdir S with
           | None => category_units fs fdir F "_base_faction_" C
           | Some sdir =>
               sorted_by UnitData.name
                 (unique_units_of
                    (category_units fs sdir F S C ++
                     category_units fs fdir F "_base_faction_" C))
           end
       end.
Proof.
  intros Hroot Hdecl HC.
  destruct (loaded_buckets fs Hroot) as (st & Hrun & Hb).
  exists st. split; [exact Hrun|].
  apply get_units_for_path_bucket. exact (Hb F S C Hdecl HC).
Qed.

Lemma X1_witness :
  exists st,
    DataManager_init example_fs = Ok st /\
    get_units_for_path st "Soviet Union" (Some "Russia") (Some "Infantry") =
    Ok match faction_dir example_fs "Soviet Union" with
       | None => []
       | Some fdir =>
           match subfaction_dir example_fs fdir "Russia" with
           | None =>
               category_units example_fs fdir "Soviet Union" "_base_faction_"
                 "Infantry"
           | Some sdir =>
               sorted_by UnitData.name
                 (unique_units_of
                    (category_units example_fs sdir "Soviet Union" "Russia"
                       "Infantry" ++
                     category_units example_fs fdir "Soviet Union"
                       "_base_faction_" "Infantry"))
           end
       end.
Proof.
  apply (X1_bucket_after_load example_fs "Soviet Union" "Russia" "Infantry").
  - reflexivity.
  - exact soviet_russia_declared.
  - simpl. tauto.
Defined.

(** X2. Where the faction directory and the subfaction directory are both
    found, the bucket that the load leaves is sorted by name and lists no
    name twice. *)
Theorem X2_found_bucket_sorted_and_unique fs F fdir S sdir C :
  exists_ fs data_path = true ->
  declared F S ->
  In C UNIT_CATEGORIES ->
  faction_dir fs F = Some fdir ->
  subfaction_dir fs fdir S = Some sdir ->
  exists st b,
    DataManager_init fs = Ok st /\
    bucket (faction_units st) F S C = Some b /\
    Sorted name_le b /\
    NoDup (map UnitData.name b).
Proof.
  intros Hroot Hdecl HC Hdir Hsub.
  destruct (loaded_buckets fs Hroot) as (st & Hrun & Hb).
  exists st, (expected_bucket fs F S C).
  split; [exact Hrun|]. split; [exact (Hb F S C Hdecl HC)|].
  exact (found_bucket_sorted_unique fs F fdir S sdir C Hdir Hsub).
Qed.

Lemma X2_witness :
  exists st b,
    DataManager_init example_fs = Ok st /\
    bucket (faction_units st) "Soviet Union" "Russia" "Infantry" = Some b /\
    Sorted name_le b /\
    NoDup (map UnitData.name b).
Proof.
  apply (X2_found_bucket_sorted_and_unique example_fs "Soviet Union" soviet_dir
           "Russia" (soviet_dir ++ ["subfaction"; "Russia"]) "Infantry").
  - reflexivity.
  - exact soviet_russia_declared.
  - simpl. tauto.
  - reflexivity.
  - reflexivity.
Defined.

(** X3. When the data directory does not exist, the load reports it in an
    error dialog and returns a manager that holds nothing: every lookup and
    every search returns the empty list. *)
Theorem X3_missing_data_directory fs :
  exists_ fs data_path = false ->
  exists st,
    DataManager_init fs = Ok st /\
    console st =
      [ShowError "Data Error" "Data directory not found: sterilized data box"] /\
    (forall f s c, get_units_for_path st f s c = Ok []) /\
    (forall q, search_units st q = []).
Proof.
  intros Hroot. unfold DataManager_init, _load_data. rewrite Hroot. cbn [negb].
  eexists. split; [reflexivity|]. split; [reflexivity|]. split.
  - intros f s c. reflexivity.
  - intros q. unfold search_units. now destruct q.
Qed.

Lemma X3_witness :
  exists st,
    DataManager_init (tree [] []) = Ok st /\
    console st =
      [ShowError "Data Error" "Data directory not found: sterilized data box"] /\
    (forall f s c, get_units_for_path st f s c = Ok []) /\
    (forall q, search_units st q = []).
Proof.
  apply (X3_missing_data_directory (tree [] [])). reflexivity.
Defined.

(** ** Order and narrowing of search results *)

Lemma ascii_compare_trans_le (a b c : ascii) :
  Ascii.compare a b <> Gt -> Ascii.compare b c <> Gt ->
  Ascii.compare a c <> Gt /\
  (Ascii.compare a c = Eq ->
   Ascii.compare a b = Eq /\ Ascii.compare b c = Eq).
Proof.
  unfold Ascii.compare.
  destruct (N.compare_spec (N_of_ascii a) (N_of_ascii b)) as [Hab|Hab|Hab];
    destruct (N.compare_spec (N_of_ascii b) (N_of_ascii c)) as [Hbc|Hbc|Hbc];
    destruct (N.compare_spec (N_of_ascii a) (N_of_ascii c)) as [Hac|Hac|Hac];
    intros H1 H2; try congruence; try lia; split; try congruence; try lia;
    intros; try discriminate; auto.
Qed.

Lemma string_compare_trans_le (a b c : string) :
  String.compare a b <> Gt -> String.compare b c <> Gt ->
  String.compare a c <> Gt.
Proof.
  revert b c. induction a as [|x a IH]; intros b c.
  - destruct c; simpl; congruence.
  - destruct b as [|y b]; [simpl; congruence|].
    destruct c as [|z c]; [simpl; intros _ H; now elim H|].
    simpl. intros H1 H2.
    assert (Hxy : Ascii.compare x y <> Gt).
    { destruct (Ascii.compare x y); congruence. }
    assert (Hyz : Ascii.compare y z <> Gt).
    { destruct (Ascii.compare y z); congruence. }
    destruct (ascii_compare_trans_le x y z Hxy Hyz) as [Hxz Heq].
    destruct (Ascii.compare x z) eqn:E; [|congruence|congruence].
    destruct (Heq eq_refl) as [E1 E2]. rewrite E1 in H1. rewrite E2 in H2.
    now apply (IH b c).
Qed.

Lemma string_leb_trans (a b c : string) :
  String.leb a b = true -> String.leb b c = true -> String.leb a c = true.
Proof.
  unfold String.leb. intros H1 H2.
  assert (H : String.compare a c <> Gt).
  { apply (string_compare_trans_le a b c).
    - destruct (String.compare a b); congruence.
    - destruct (String.compare b c); congruence. }
  destruct (String.compare a c); congruence.
Qed.

Lemma sorted_by_strongly_sorted {A : Type} (key : A -> string) (l : list A) :
  StronglySorted (key_le key) (sorted_by key l).
Proof.
  apply Sorted_StronglySorted.
  - intros x y z. unfold key_le. apply string_leb_trans.
  - apply sorted_by_sorted.
Qed.

Lemma filter_strongly_sorted {A : Type} (R : A -> A -> Prop) (p : A -> bool)
  (l : list A) :
  StronglySorted R l -> StronglySorted R (filter p l).
Proof.
  induction 1 as [|x l Hs IH Hall]; simpl; [constructor|].
  destruct (p x); [|exact IH]. constructor; [exact IH|].
  rewrite Forall_forall in *. intros y Hy. apply Hall.
  now apply filter_In in Hy.
Qed.

Lemma loaded_index_strongly_sorted fs st :
  DataManager_init fs = Ok st ->
  StronglySorted lower_name_le (search_index st).
Proof.
  unfold DataManager_init, _load_data.
  destruct (negb (exists_ fs data_path)).
  - intros [= <-]. simpl. constructor.
  - destruct (init_structure new_manager) as [st0|]; [|discriminate].
    cbn [bind].
    destruct (_load_units_from_directory fs data_path st0) as [st1|];
      [|discriminate].
    cbn [bind]. intros [= <-]. unfold _build_search_index. simpl.
    apply (sorted_by_strongly_sorted (fun x => Str.lower (SearchItem.name x))).
Qed.

(** X4. On a loaded manager the results of every search are in
    alphabetical order of the lowercased names: of two results, the earlier
    one has the smaller or equal lowercased name. *)
Theorem X4_search_results_sorted fs st q :
  DataManager_init fs = Ok st ->
  StronglySorted lower_name_le (search_units st q).
Proof.
  intros Hrun. unfold search_units. destruct q; [constructor|].
  apply filter_strongly_sorted. now apply (loaded_index_strongly_sorted fs).
Qed.

Lemma X4_witness :
  StronglySorted lower_name_le (search_units example_loaded "o").
Proof.
  apply (X4_search_results_sorted example_fs example_loaded "o").
  exact example_loaded_run.
Defined.

Lemma lower_char_idempotent c : Str.lower_char (Str.lower_char c) = Str.lower_char c.
Proof. destruct c as [[] [] [] [] [] [] [] []]; reflexivity. Qed.

Lemma lower_idempotent s : Str.lower (Str.lower s) = Str.lower s.
Proof.
  induction s as [|c s IH]; simpl; [reflexivity|].
  now rewrite lower_char_idempotent, IH.
Qed.

Lemma lower_empty_iff s : Str.lower s = EmptyString <-> s = EmptyString.
Proof. destruct s; simpl; split; congruence. Qed.

(** X5. The case of the query does not matter: two queries with the same
    lowercased form return the same results, and so do a query and its
    lowercased form. *)
Theorem X5_search_ignores_query_case self q q' :
  Str.lower q = Str.lower q' ->
  search_units self q = search_units self q' /\
  search_units self (Str.lower q) = search_units self q.
Proof.
  intros Heq.
  assert (H : forall a b, Str.lower a = Str.lower b ->
                          search_units self a = search_units self b).
  { intros a b Hab. unfold search_units.
    destruct a as [|x a], b as [|y b]; try reflexivity; try discriminate.
    now rewrite Hab. }
  split; [now apply H|]. apply H. apply lower_idempotent.
Qed.

Lemma X5_witness :
  search_units example_loaded "TESLA" = search_units example_loaded "Tesla" /\
  search_units example_loaded (Str.lower "TESLA") =
  search_units example_loaded "TESLA".
Proof.
  apply (X5_search_ignores_query_case example_loaded "TESLA" "Tesla").
  reflexivity.
Defined.

Lemma substring_of_trans (q q' s : string) :
  substring_of q q' -> substring_of q' s -> substring_of q s.
Proof.
  intros (a & b & ->) (a' & b' & ->).
  exists (a' ++ a)%string, (b ++ b')%string.
  now rewrite !append_assoc.
Qed.

(** X6. Extending a lowercase query narrows the results: when a non-empty
    query occurs in a longer one, and [lower()] leaves both as they are,
    every result of the longer query is a result of the shorter one, and
    the results of the longer query are those of the shorter one with some
    left out, in the same order. *)
Theorem X6_longer_query_narrows self q q' :
  Str.lower q = q ->
  Str.lower q' = q' ->
  q <> EmptyString ->
  substring_of q q' ->
  (forall e, In e (search_units self q') -> In e (search_units self q)) /\
  subsequence (search_units self q') (search_units self q).
Proof.
  intros Hl Hl' Hq Hsub.
  assert (Hq' : q' <> EmptyString).
  { intros ->. destruct Hsub as (a & b & H). destruct a; [|discriminate].
    destruct q; [contradiction|discriminate]. }
  assert (Himp : forall e, matches q' e = true -> matches q e = true).
  { intros e. rewrite !matches_spec.
    intros [H|[H|[H|H]]]; [left|right; left|right; right; left|right; right; right];
      eapply substring_of_trans; eassumption. }
  assert (Hs : forall x, x <> EmptyString -> Str.lower x = x ->
             search_units self x = filter (matches x) (search_index self)).
  { intros x Hx Hlx. unfold search_units. rewrite Hlx.
    destruct x; [contradiction|reflexivity]. }
  rewrite (Hs q Hq Hl), (Hs q' Hq' Hl'). clear Hs. split.
  - intros e. rewrite !filter_In. intros [Hin Hm]. split; [exact Hin|now apply Himp].
  - induction (search_index self) as [|e l IH]; cbn [filter]; [constructor|].
    destruct (matches q' e) eqn:E'.
    + rewrite (Himp e E'). apply subseq_keep. exact IH.
    + destruct (matches q e); [apply subseq_skip|]; exact IH.
Qed.

Lemma X6_witness :
  (forall e, In e (search_units example_loaded "tesla") ->
             In e (search_units example_loaded "es")) /\
  subsequence (search_units example_loaded "tesla")
    (search_units example_loaded "es").
Proof.
  apply (X6_longer_query_narrows example_loaded "es" "tesla").
  - reflexivity.
  - reflexivity.
  - discriminate.
  - exists "t"%string, "la"%string. reflexivity.
Defined.

(** ** The index and the records it points to *)

Lemma loaded_index_perm fs st :
  DataManager_init fs = Ok st ->
  Permutation (search_index st)
    (map search_item_of (PyDict.values (units st))).
Proof.
  unfold DataManager_init, _load_data.
  destruct (negb (exists_ fs data_path)).
  - intros [= <-]. simpl. constructor.
  - destruct (init_structure new_manager) as [st0|]; [|discriminate].
    cbn [bind].
    destruct (_load_units_from_directory fs data_path st0) as [st1|];
      [|discriminate].
    cbn [bind]. intros [= <-]. unfold _build_search_index. simpl.
    apply sorted_by_perm.
Qed.

(** X7. The search index of a loaded manager has exactly one entry per
    record of [self.units]: the records its entries point to are the values
    of [self.units], rearranged, and every entry copies its name, faction,
    subfaction and category from the record it points to. *)
Theorem X7_index_is_units fs st :
  DataManager_init fs = Ok st ->
  Permutation (map SearchItem.unit_data (search_index st))
    (PyDict.values (units st)) /\
  List.length (search_index st) = List.length (PyDict.keys (units st)) /\
  forall e, In e (search_index st) ->
    SearchItem.name e = UnitData.name (SearchItem.unit_data e) /\
    SearchItem.faction e = UnitData.faction (SearchItem.unit_data e) /\
    SearchItem.subfaction e = UnitData.subfaction (SearchItem.unit_data e) /\
    SearchItem.category e = UnitData.category (SearchItem.unit_data e).
Proof.
  intros Hrun. pose proof (loaded_index_perm fs st Hrun) as Hperm.
  assert (Hid : forall l, map SearchItem.unit_data (map search_item_of l) = l).
  { induction l as [|x l IH]; simpl; [reflexivity|now rewrite IH]. }
  split; [|split].
  - rewrite <- (Hid (PyDict.values (units st))). now apply Permutation_map.
  - rewrite (Permutation_length Hperm). unfold PyDict.values, PyDict.keys.
    now rewrite !length_map.
  - intros e He. apply (Permutation_in _ Hperm) in He.
    apply in_map_iff in He as (v & <- & _). simpl. auto.
Qed.

Lemma X7_witness :
  Permutation (map SearchItem.unit_data (search_index example_loaded))
    (PyDict.values (units example_loaded)) /\
  List.length (search_index example_loaded) =
  List.length (PyDict.keys (units example_loaded)) /\
  forall e, In e (search_index example_loaded) ->
    SearchItem.name e = UnitData.name (SearchItem.unit_data e) /\
    SearchItem.faction e = UnitData.faction (SearchItem.unit_data e) /\
    SearchItem.subfaction e = UnitData.subfaction (SearchItem.unit_data e) /\
    SearchItem.category e = UnitData.category (SearchItem.unit_data e).
Proof.
  apply (X7_index_is_units example_fs example_loaded).
  exact example_loaded_run.
Defined.

(** The records a subfaction loads from its own directory have their keys
    in [self.units]. *)
Lemma load_subfaction_presence fs fdir F base S st st' sdir C u :
  (forall C, In C UNIT_CATEGORIES -> In (F, S, C) origin_triples) ->
  load_subfaction fs fdir F base S st = Ok st' ->
  subfaction_dir fs fdir S = Some sdir ->
  In C UNIT_CATEGORIES ->
  In u (category_units fs sdir F S C) ->
  PyDict.mem (units st') (unit_key u) = true.
Proof.
  intros Ho. unfold load_subfaction, subfaction_dir.
  destruct (subfaction_variants S) as [vs|]; [|discriminate]. cbn [bind].
  destruct (first_existing fs (fdir ++ ["subfaction"]) vs) as [sdir'|];
    [|discriminate].
  set (st2 := _load_category_units fs sdir' F S _).
  destruct (inherit_base F S base st2) as [st3|] eqn:E3; [|discriminate].
  cbn [bind]. intros H4 [= <-] HC Hu.
  apply dedupe_and_sort_units in H4. apply inherit_base_units in E3.
  rewrite H4, E3. unfold st2, _load_category_units.
  exact (proj2 (load_categories_units fs sdir' F S UNIT_CATEGORIES Ho (print _ st))
           C u HC Hu).
Qed.

Lemma load_subfactions_presence fs fdir F data base (ss : list string) :
  In (F, data) (PyDict.items FACTION_HIERARCHY) ->
  (forall S, In S ss -> In S (PyDict.keys (subfactions data))) ->
  forall st st',
    for_each ss (load_subfaction fs fdir F base) st = Ok st' ->
    units_grow (units st) (units st') /\
    forall S sdir C u,
      In S ss -> subfaction_dir fs fdir S = Some sdir ->
      In C UNIT_CATEGORIES -> In u (category_units fs sdir F S C) ->
      PyDict.mem (units st') (unit_key u) = true.
Proof.
  intros Hin. induction ss as [|S0 ss IH]; intros Hsub st st' Hrun;
    cbn [for_each] in Hrun.
  - injection Hrun as <-. split; [apply units_grow_refl|].
    intros S sdir C u [].
  - destruct (load_subfaction fs fdir F base S0 st) as [st1|] eqn:E1;
      [|discriminate]. cbn [bind] in Hrun.
    assert (Ho : forall C, In C UNIT_CATEGORIES -> In (F, S0, C) origin_triples).
    { intros C HC. apply (origin_sub F data); auto. apply Hsub. now left. }
    pose proof (load_subfaction_units fs fdir F base S0 st st1 Ho E1) as G1.
    destruct (IH (fun S H => Hsub S (or_intror H)) st1 st' Hrun) as [G2 P2].
    split; [eapply units_grow_trans; eassumption|].
    intros S sdir C u [<-|HS] Hdir HC Hu.
    + apply G2.
      now apply (load_subfaction_presence fs fdir F base S0 st st1 sdir C u).
    + now apply (P2 S sdir C u).
Qed.

Lemma load_faction_presence fs F data st st' :
  In (F, data) (PyDict.items FACTION_HIERARCHY) ->
  load_faction fs data_path (F, data) st = Ok st' ->
  forall fdir S sdir C u,
    faction_dir fs F = Some fdir ->
    In S (PyDict.keys (subfactions data)) ->
    subfaction_dir fs fdir S = Some sdir ->
    In C UNIT_CATEGORIES -> In u (category_units fs sdir F S C) ->
    PyDict.mem (units st') (unit_key u) = true.
Proof.
  intros Hin. unfold load_faction, faction_dir.
  destruct (first_existing fs data_path (faction_variants F)) as [fdir|];
    [|discriminate].
  set (st0 := print _ st).
  destruct (on_catalog (assign_subfaction F temp_subfaction) st0)
    as [st1|]; [|discriminate]. cbn [bind].
  destruct (for_each UNIT_CATEGORIES _ st1) as [st2|]; [|discriminate].
  cbn [bind].
  set (st3 := _load_category_units fs fdir F temp_subfaction st2).
  destruct (copy_base F (faction_units st3)) as [base|]; [|discriminate].
  cbn [bind].
  destruct (on_catalog (delete_subfaction F temp_subfaction) st3)
    as [st5|]; [|discriminate]. cbn [bind].
  intros H6 fdir' S sdir C u [= <-] HS Hsub HC Hu.
  destruct (load_subfactions_presence fs fdir F data base
              (PyDict.keys (subfactions data)) Hin (fun S H => H) st5 st' H6)
    as [_ P].
  now apply (P S sdir C u).
Qed.

Lemma load_factions_presence fs (xs : list (string * FactionData)) :
  (forall entry, In entry xs -> In entry (PyDict.items FACTION_HIERARCHY)) ->
  forall st st',
    for_each xs (load_faction fs data_path) st = Ok st' ->
    forall F data fdir S sdir C u,
      In (F, data) xs -> faction_dir fs F = Some fdir ->
      In S (PyDict.keys (subfactions data)) ->
      subfaction_dir fs fdir S = Some sdir ->
      In C UNIT_CATEGORIES -> In u (category_units fs sdir F S C) ->
      PyDict.mem (units st') (unit_key u) = true.
Proof.
  induction xs as [|[F0 data0] xs IH]; intros Hsub st st' Hrun;
    cbn [for_each] in Hrun.
  - intros F data fdir S sdir C u [].
  - destruct (load_faction fs data_path (F0, data0) st) as [st1|] eqn:E1;
      [|discriminate]. cbn [bind] in Hrun.
    destruct (load_factions_units fs xs (fun e H => Hsub e (or_intror H))
                st1 st' Hrun) as [G2 _].
    intros F data fdir S sdir C u [[= <- <-]|Hin] Hdir HS Hsdir HC Hu.
    + apply G2.
      now apply (load_faction_presence fs F0 data0 st st1
                   (Hsub _ (or_introl eq_refl)) E1 fdir S sdir C u).
    + now apply (IH (fun e H => Hsub e (or_intror H)) st1 st' Hrun
                   F data fdir S sdir C u).
Qed.

Lemma loaded_own_units fs st F data fdir S sdir C u :
  exists_ fs data_path = true ->
  DataManager_init fs = Ok st ->
  In (F, data) (PyDict.items FACTION_HIERARCHY) ->
  faction_dir fs F = Some fdir ->
  In S (PyDict.keys (subfactions data)) ->
  subfaction_dir fs fdir S = Some sdir ->
  In C UNIT_CATEGORIES -> In u (category_units fs sdir F S C) ->
  PyDict.mem (units st) (unit_key u) = true.
Proof.
  intros Hroot. unfold DataManager_init, _load_data. rewrite Hroot. cbn [negb].
  destruct init_structure_spec as (st0 & Hinit & _ & _).
  rewrite Hinit. cbn [bind].
  destruct (_load_units_from_directory fs data_path st0) as [st1|] eqn:E1;
    [|discriminate]. cbn [bind]. intros [= <-].
  unfold _load_units_from_directory in E1.
  exact (load_factions_presence fs (PyDict.items FACTION_HIERARCHY)
           (fun e H => H) st0 st1 E1 F data fdir S sdir C u).
Qed.

Lemma expected_bucket_sources fs F S C v :
  In v (expected_bucket fs F S C) ->
  exists fdir,
    faction_dir fs F = Some fdir /\
    (In v (base_units fs fdir F C) \/
     exists sdir, subfaction_dir fs fdir S = Some sdir /\
                  In v (category_units fs sdir F S C)).
Proof.
  unfold expected_bucket.
  destruct (faction_dir fs F) as [fdir|]; [|intros []].
  intros H. exists fdir. split; [reflexivity|].
  destruct (subfaction_dir fs fdir S) as [sdir|]; [|now left].
  apply sorted_by_In, unique_units_In, in_app_or in H as [H|H].
  - right. now exists sdir.
  - now left.
Qed.

Lemma substring_of_refl s : substring_of s s.
Proof.
  exists EmptyString, EmptyString. simpl.
  induction s as [|c s IH]; simpl; [reflexivity|now rewrite <- IH].
Qed.

(** X8. Every unit that the catalog lists can be found by its name: for a
    record of a declared bucket whose name is not empty, searching for the
    name returns an entry with that name and with the faction, subfaction
    and category of the record. *)
Theorem X8_listed_units_are_searchable fs st F S C b v :
  exists_ fs data_path = true ->
  DataManager_init fs = Ok st ->
  declared F S ->
  In C UNIT_CATEGORIES ->
  bucket (faction_units st) F S C = Some b ->
  In v b ->
  UnitData.name v <> EmptyString ->
  exists e,
    In e (search_units st (UnitData.name v)) /\
    SearchItem.name e = UnitData.name v /\
    SearchItem.faction e = UnitData.faction v /\
    SearchItem.subfaction e = UnitData.subfaction v /\
    SearchItem.category e = UnitData.category v.
Proof.
  intros Hroot Hrun Hdecl HC Hb Hv Hname.
  destruct (loaded_buckets fs Hroot) as (st' & Hrun' & Hexp).
  rewrite Hrun in Hrun'. injection Hrun' as <-.
  rewrite (Hexp F S C Hdecl HC) in Hb. injection Hb as <-.
  destruct Hdecl as (data & Hin & HS).
  destruct (expected_bucket_sources fs F S C v Hv) as (fdir & Hdir & Hsrc).
  destruct (loaded_units fs st Hroot Hrun) as [Hinv Hbase].
  assert (Hkey : PyDict.mem (units st) (unit_key v) = true /\ origin v).
  { destruct Hsrc as [Hu|(sdir & Hsdir & Hu)].
    - split; [now apply (Hbase F data fdir C)|].
      destruct (category_units_fields _ _ _ _ _ _ Hu) as (E1 & E2 & E3).
      unfold origin, triple_of. rewrite E1, E2, E3.
      now apply (origin_base F data).
    - split; [now apply (loaded_own_units fs st F data fdir S sdir C)|].
      destruct (category_units_fields _ _ _ _ _ _ Hu) as (E1 & E2 & E3).
      unfold origin, triple_of. rewrite E1, E2, E3.
      now apply (origin_sub F data). }
  destruct Hkey as [Hmem Hov]. unfold PyDict.mem in Hmem.
  destruct (PyDict.get (units st) (unit_key v)) as [w|] eqn:Eg; [|discriminate].
  apply PyDictFacts.get_In in Eg. destruct (Hinv _ _ Eg) as [Hk How].
  destruct (unit_key_inj v w Hov How Hk) as [Ht Hn].
  unfold triple_of in Ht. injection Ht as HwF HwS HwC.
  exists (search_item_of w).
  assert (Hidx : In (search_item_of w) (search_index st)).
  { apply (loaded_index fs st Hrun), in_map. unfold PyDict.values.
    change w with (snd (unit_key v, w)). now apply in_map. }
  split; [|simpl; repeat split; congruence].
  assert (Hs : search_units st (UnitData.name v) =
               filter (matches (Str.lower (UnitData.name v))) (search_index st)).
  { unfold search_units. destruct (UnitData.name v); [contradiction|reflexivity]. }
  rewrite Hs. apply filter_In. split; [exact Hidx|].
  apply matches_spec. left. simpl. rewrite <- Hn. apply substring_of_refl.
Qed.

Lemma X8_witness :
  let v := example_unit "Flak Trooper" "Soviet Union" "Russia" "Infantry" in
  exists e,
    In e (search_units example_loaded (UnitData.name v)) /\
    SearchItem.name e = UnitData.name v /\
    SearchItem.faction e = UnitData.faction v /\
    SearchItem.subfaction e = UnitData.subfaction v /\
    SearchItem.category e = UnitData.category v.
Proof.
  intros v.
  apply (X8_listed_units_are_searchable example_fs example_loaded
           "Soviet Union" "Russia" "Infantry"
           [ example_unit "Conscript" "Soviet Union" temp_subfaction "Infantry";
             example_unit "Flak Trooper" "Soviet Union" "Russia" "Infantry";
             example_unit "Tesla Trooper" "Soviet Union" "Russia" "Infantry" ] v).
  - reflexivity.
  - exact example_loaded_run.
  - exact soviet_russia_declared.
  - simpl. tauto.
  - reflexivity.
  - simpl. tauto.
  - discriminate.
Defined.

(** ** Several files with one unit name *)

Lemma parsed_units_fields F S C files u :
  In u (parsed_units F S C files) -> triple_of u = (F, S, C).
Proof.
  unfold parsed_units. intros H. apply in_flat_map in H as (jf & _ & H).
  destruct (outcome jf); [destruct H|]. destruct H as [<-|[]]. reflexivity.
Qed.

Lemma same_path_key_name u v :
  triple_of u = triple_of v -> unit_key u = unit_key v ->
  UnitData.name u = UnitData.name v.
Proof.
  intros Ht Hk. rewrite !unit_key_prefix, Ht in Hk.
  now apply append_inv_head in Hk.
Qed.

(** X9. When several files of one category listing carry the same unit
    name, [self.units] ends up with the record of the last of them under
    the key of that name (the deduplication of the bucket keeps the
    first). *)
Theorem X9_units_keep_last_file dir F S C files self n nm u :
  find (has_name nm) (rev (parsed_units F S C files)) = Some u ->
  PyDict.get
    (units (fst (fold_left (load_json_file dir F S C) files (self, n))))
    (unit_key u) = Some u.
Proof.
  revert u. induction files as [|jf files IH] using rev_ind; intros u Hfind.
  - discriminate.
  - rewrite fold_left_app. cbn [fold_left].
    rewrite parsed_units_app, rev_app_distr in Hfind.
    destruct (fold_left (load_json_file dir F S C) files (self, n))
      as [self1 n1] eqn:Efold.
    rewrite load_json_file_units_eq.
    assert (Hone : parsed_units F S C [jf] =
                   match outcome jf with
                   | Parsed unit_name data => [make_unit jf unit_name data F S C]
                   | Raises _ => []
                   end).
    { unfold parsed_units. simpl. now destruct (outcome jf). }
    rewrite Hone in Hfind. cbn [fst] in IH.
    destruct (outcome jf) as [e|unit_name data].
    + simpl in Hfind. now apply IH.
    + set (v := make_unit jf unit_name data F S C) in *.
      cbn [rev app find] in Hfind.
      destruct (has_name nm v) eqn:Ev.
      * injection Hfind as <-. apply PyDictFacts.get_set_same.
      * rewrite PyDictFacts.get_set_other; [now apply IH|].
        intros Hk. apply find_some in Hfind as [Hin Hu].
        apply in_rev, parsed_units_fields in Hin.
        assert (Hname : UnitData.name v = UnitData.name u).
        { apply same_path_key_name; [|exact Hk]. now rewrite Hin. }
        unfold has_name in Ev, Hu. rewrite Hname, Hu in Ev. discriminate.
Qed.

Lemma X9_witness :
  let files := [ {| stem := "conscript"; outcome := Parsed (Some "Conscript") [("icon_url", JStr "first")] |};
                 {| stem := "conscript_old"; outcome := Parsed (Some "Conscript") [("icon_url", JStr "second")] |} ] in
  let u := make_unit {| stem := "conscript_old"; outcome := Parsed (Some "Conscript") [("icon_url", JStr "second")] |}
             (Some "Conscript") [("icon_url", JStr "second")]
             "Soviet Union" temp_subfaction "Infantry" in
  PyDict.get
    (units (fst (fold_left
                   (load_json_file soviet_dir "Soviet Union" temp_subfaction "Infantry")
                   files (new_manager, 0))))
    (unit_key u) = Some u.
Proof.
  intros files u.
  apply (X9_units_keep_last_file soviet_dir "Soviet Union" temp_subfaction
           "Infantry" files new_manager 0 "Conscript" u).
  reflexivity.
Defined.

(** ** The keys of the catalog after a load *)

Lemma get_dmap {V W : Type} (g : V -> W) (d : dict V) k :
  PyDict.get (dmap g d) k = option_map g (PyDict.get d k).
Proof.
  induction d as [|[k0 v0] d IH]; simpl; [reflexivity|].
  destruct (String.eqb k0 k); [reflexivity|exact IH].
Qed.

Lemma dmap_set {V W : Type} (g : V -> W) (d : dict V) k v :
  dmap g (PyDict.set d k v) = PyDict.set (dmap g d) k (g v).
Proof.
  induction d as [|[k0 v0] d IH]; simpl; [reflexivity|].
  destruct (String.eqb k0 k); simpl; [reflexivity|now rewrite IH].
Qed.

Lemma dmap_remove {V W : Type} (g : V -> W) (d : dict V) k :
  dmap g (PyDict.remove d k) = PyDict.remove (dmap g d) k.
Proof.
  induction d as [|[k0 v0] d IH]; simpl; [reflexivity|].
  destruct (String.eqb k0 k); simpl; [reflexivity|now rewrite IH].
Qed.

Lemma keys_dmap {V W : Type} (g : V -> W) (d : dict V) :
  PyDict.keys (dmap g d) = PyDict.keys d.
Proof.
  unfold PyDict.keys, dmap. rewrite map_map. reflexivity.
Qed.

Lemma keys_set {V : Type} (d : dict V) k v :
  PyDict.keys (PyDict.set d k v) = add_key (PyDict.keys d) k.
Proof.
  unfold add_key. induction d as [|[k0 v0] d IH]; simpl; [reflexivity|].
  rewrite (String.eqb_sym k k0).
  destruct (String.eqb k0 k); simpl; [reflexivity|].
  rewrite IH. now destruct (existsb (String.eqb k) (PyDict.keys d)).
Qed.

Lemma add_key_present (ks : list string) k :
  In k ks -> add_key ks k = ks.
Proof.
  intros Hin. unfold add_key.
  assert (H : existsb (String.eqb k) ks = true).
  { apply existsb_exists. exists k. split; [exact Hin|apply String.eqb_refl]. }
  now rewrite H.
Qed.

Lemma set_get_same {V : Type} (d : dict V) k v :
  PyDict.get d k = Some v -> PyDict.set d k v = d.
Proof. apply PyDictFacts.set_same_value. Qed.

Lemma assign_subfaction_shape F S (fu fu' : catalog) :
  assign_subfaction F S fu = Ok fu' ->
  catalog_shape fu' = shape_assign_subfaction F S (catalog_shape fu).
Proof.
  unfold assign_subfaction, PyDict.getitem, shape_assign_subfaction, catalog_shape.
  rewrite get_dmap.
  destruct (PyDict.get fu F) as [subs|]; [|discriminate].
  cbn [bind option_map]. intros [= <-]. now rewrite !dmap_set.
Qed.

Lemma assign_bucket_shape F S C l (fu fu' : catalog) :
  assign_bucket F S C l fu = Ok fu' ->
  catalog_shape fu' = shape_assign_bucket F S C (catalog_shape fu).
Proof.
  unfold assign_bucket, PyDict.getitem, shape_assign_bucket, catalog_shape.
  rewrite get_dmap.
  destruct (PyDict.get fu F) as [subs|]; [|discriminate].
  cbn [bind option_map]. rewrite get_dmap.
  destruct (PyDict.get subs S) as [cats|]; [|discriminate].
  cbn [bind option_map]. intros [= <-]. now rewrite !dmap_set, keys_set.
Qed.

Lemma delete_subfaction_shape F S (fu fu' : catalog) :
  delete_subfaction F S fu = Ok fu' ->
  catalog_shape fu' = shape_delete_subfaction F S (catalog_shape fu).
Proof.
  unfold delete_subfaction, PyDict.getitem, PyDict.delitem,
    shape_delete_subfaction, catalog_shape.
  rewrite get_dmap.
  destruct (PyDict.get fu F) as [subs|]; [|discriminate].
  cbn [bind option_map].
  destruct (PyDict.mem subs S); [|discriminate].
  cbn [bind]. intros [= <-]. now rewrite dmap_set, dmap_remove.
Qed.

(** Writing a bucket that is there leaves the shape as it is. *)
Lemma set_bucket_shape (fu : catalog) F S C subs cats b v :
  PyDict.get fu F = Some subs -> PyDict.get subs S = Some cats ->
  PyDict.get cats C = Some b ->
  catalog_shape (PyDict.set fu F (PyDict.set subs S (PyDict.set cats C v)))
  = catalog_shape fu.
Proof.
  intros HF HS HC. unfold catalog_shape. rewrite !dmap_set, keys_set.
  rewrite add_key_present.
  - rewrite (set_get_same (dmap _ subs) S (PyDict.keys cats))
      by (now rewrite get_dmap, HS).
    apply set_get_same. now rewrite get_dmap, HF.
  - apply PyDictFacts.get_In in HC. unfold PyDict.keys.
    change C with (fst (C, b)). now apply in_map.
Qed.

Lemma extend_bucket_shape F S C l (fu fu' : catalog) :
  extend_bucket F S C l fu = Ok fu' -> catalog_shape fu' = catalog_shape fu.
Proof.
  unfold extend_bucket, PyDict.getitem.
  destruct (PyDict.get fu F) as [subs|] eqn:HF; [|discriminate]. cbn [bind].
  destruct (PyDict.get subs S) as [cats|] eqn:HS; [|discriminate]. cbn [bind].
  destruct (PyDict.get cats C) as [b|] eqn:HC; [|discriminate]. cbn [bind].
  intros [= <-]. now apply (set_bucket_shape fu F S C subs cats b).
Qed.

Lemma load_json_file_shape dir F S C s jf :
  catalog_shape (faction_units (fst (load_json_file dir F S C s jf))) =
  catalog_shape (faction_units (fst s)).
Proof.
  destruct s as [self n]. unfold load_json_file.
  destruct (outcome jf) as [e|unit_name data]; [destruct e; reflexivity|].
  cbv zeta. simpl faction_units.
  destruct (PyDict.get (faction_units self) F) as [subs|] eqn:HF; [|reflexivity].
  destruct (PyDict.get subs S) as [cats|] eqn:HS; [|reflexivity].
  destruct (PyDict.get cats C) as [b|] eqn:HC; [|reflexivity].
  simpl. now apply (set_bucket_shape _ F S C subs cats b).
Qed.

Lemma load_category_units_shape fs dir F S self :
  catalog_shape (faction_units (_load_category_units fs dir F S self)) =
  catalog_shape (faction_units self).
Proof.
  unfold _load_category_units. revert self.
  induction UNIT_CATEGORIES as [|c cs IH]; intros self; [reflexivity|].
  cbn [fold_left]. rewrite IH. unfold load_category.
  destruct (exists_ fs (dir ++ [Str.replace_space "_" c])); cbn [negb];
    [|reflexivity].
  assert (H : forall files s,
             catalog_shape
               (faction_units
                  (fst (fold_left (load_json_file (dir ++ [Str.replace_space "_" c]) F S c)
                          files s))) =
             catalog_shape (faction_units (fst s))).
  { induction files as [|jf files IHf]; intros s; [reflexivity|].
    cbn [fold_left]. rewrite IHf. apply load_json_file_shape. }
  specialize (H (glob_json fs (dir ++ [Str.replace_space "_" c])) (self, 0)).
  destruct (fold_left _ _ (self, 0)) as [self1 n1]. cbn [fst] in H.
  destruct (0 <? n1)%nat; exact H.
Qed.

Lemma on_catalog_inv stmt st st' :
  on_catalog stmt st = Ok st' ->
  exists fu', stmt (faction_units st) = Ok fu' /\ faction_units st' = fu'.
Proof.
  unfold on_catalog. destruct (stmt (faction_units st)) as [fu'|]; [|discriminate].
  cbn [bind]. intros [= <-]. now exists fu'.
Qed.

Lemma inherit_base_shape F S base st st' :
  inherit_base F S base st = Ok st' ->
  catalog_shape (faction_units st') = catalog_shape (faction_units st).
Proof.
  unfold inherit_base.
  apply (for_each_inv
           (fun s => catalog_shape (faction_units s) =
                     catalog_shape (faction_units st))); [|reflexivity].
  intros a s s' _ Hs Hstep.
  apply on_catalog_inv in Hstep as (fu' & Hstmt & ->).
  apply extend_bucket_shape in Hstmt. congruence.
Qed.

Lemma dedupe_and_sort_shape F S st st' :
  dedupe_and_sort F S st = Ok st' ->
  catalog_shape (faction_units st') = catalog_shape (faction_units st).
Proof.
  unfold dedupe_and_sort.
  apply (for_each_inv
           (fun s => catalog_shape (faction_units s) =
                     catalog_shape (faction_units st))); [|reflexivity].
  intros c s s' _ Hs Hstep. cbv beta in Hstep.
  destruct (read_bucket F S c (faction_units s)) as [b|] eqn:Hread;
    [|discriminate]. cbn [bind] in Hstep.
  apply on_catalog_inv in Hstep as (fu' & Hstmt & ->).
  rewrite <- Hs. clear Hs.
  unfold read_bucket, PyDict.getitem in Hread.
  unfold assign_bucket, PyDict.getitem in Hstmt.
  destruct (PyDict.get (faction_units s) F) as [subs|] eqn:HF; [|discriminate].
  cbn [bind] in *.
  destruct (PyDict.get subs S) as [cats|] eqn:HS; [|discriminate].
  cbn [bind] in *.
  destruct (PyDict.get cats c) as [b0|] eqn:HC; [|discriminate].
  injection Hstmt as <-. now apply (set_bucket_shape _ F S c subs cats b0).
Qed.

Lemma load_subfaction_shape fs fdir F base S st st' :
  load_subfaction fs fdir F base S st = Ok st' ->
  catalog_shape (faction_units st') = catalog_shape (faction_units st).
Proof.
  unfold load_subfaction.
  destruct (subfaction_variants S) as [vs|]; [|discriminate]. cbn [bind].
  destruct (first_existing fs (fdir ++ ["subfaction"]) vs) as [sdir|].
  - set (st2 := _load_category_units fs sdir F S _).
    destruct (inherit_base F S base st2) as [st3|] eqn:E3; [|discriminate].
    cbn [bind]. intros H4.
    apply dedupe_and_sort_shape in H4. apply inherit_base_shape in E3.
    rewrite H4, E3. unfold st2. now rewrite load_category_units_shape.
  - intros H. now apply inherit_base_shape in H.
Qed.

Lemma for_each_fold {A S T : Type} (f : S -> T) (h : A -> T -> T)
  (body : A -> S -> result S) xs :
  (forall a s s', body a s = Ok s' -> f s' = h a (f s)) ->
  forall s s', for_each xs body s = Ok s' ->
               f s' = fold_left (fun acc a => h a acc) xs (f s).
Proof.
  intros Hbody. induction xs as [|a xs IH]; intros s s' Hrun;
    cbn [for_each] in Hrun.
  - now injection Hrun as <-.
  - destruct (body a s) as [s1|] eqn:E; [|discriminate]. cbn [bind] in Hrun.
    cbn [fold_left]. rewrite <- (Hbody a s s1 E). now apply IH.
Qed.

Lemma load_faction_shape fs F data st st' :
  load_faction fs data_path (F, data) st = Ok st' ->
  catalog_shape (faction_units st') = catalog_shape (faction_units st) \/
  catalog_shape (faction_units st') =
  shape_after_faction F (catalog_shape (faction_units st)).
Proof.
  unfold load_faction.
  destruct (first_existing fs data_path (faction_variants F)) as [fdir|].
  - intros H. right. set (st0 := print _ st) in H.
    destruct (on_catalog (assign_subfaction F temp_subfaction) st0)
      as [st1|] eqn:E1; [|discriminate]. cbn [bind] in H.
    destruct (for_each UNIT_CATEGORIES
                (fun category =>
                   on_catalog (assign_bucket F temp_subfaction category []))
                st1) as [st2|] eqn:E2; [|discriminate].
    cbn [bind] in H.
    set (st3 := _load_category_units fs fdir F temp_subfaction st2) in H.
    destruct (copy_base F (faction_units st3)) as [base|]; [|discriminate].
    cbn [bind] in H.
    destruct (on_catalog (delete_subfaction F temp_subfaction) st3)
      as [st5|] eqn:E5; [|discriminate]. cbn [bind] in H.
    assert (H6 : catalog_shape (faction_units st') =
                 catalog_shape (faction_units st5)).
    { revert H.
      apply (for_each_inv
               (fun s => catalog_shape (faction_units s) =
                         catalog_shape (faction_units st5))); [|reflexivity].
      intros S s s' _ Hs Hstep. apply load_subfaction_shape in Hstep. congruence. }
    apply on_catalog_inv in E5 as (fu5 & Hdel & E5).
    apply delete_subfaction_shape in Hdel.
    apply on_catalog_inv in E1 as (fu1 & Hsub & E1).
    apply assign_subfaction_shape in Hsub.
    pose proof (for_each_fold (fun s => catalog_shape (faction_units s))
                  (fun c sh => shape_assign_bucket F temp_subfaction c sh)
                  (fun category =>
                     on_catalog (assign_bucket F temp_subfaction category []))
                  UNIT_CATEGORIES) as Hfold.
    specialize (Hfold
      (fun c s s' Hstep =>
         match on_catalog_inv _ _ _ Hstep with
         | ex_intro _ fu' (conj Hstmt Heq) =>
             eq_trans (f_equal catalog_shape Heq)
               (assign_bucket_shape F temp_subfaction c [] _ fu' Hstmt)
         end) st1 st2 E2).
    rewrite H6, E5, Hdel. unfold st3. rewrite load_category_units_shape, Hfold.
    rewrite E1, Hsub. reflexivity.
  - intros [= <-]. now left.
Qed.

Lemma shape_after_faction_fixed F data :
  In (F, data) (PyDict.items FACTION_HIERARCHY) ->
  shape_after_faction F hierarchy_shape = hierarchy_shape.
Proof.
  intros Hin. simpl in Hin.
  repeat (destruct Hin as [E|Hin]; [injection E as <- <-; vm_compute; reflexivity|]).
  destruct Hin.
Qed.

Lemma load_factions_shape fs (xs : list (string * FactionData)) :
  (forall entry, In entry xs -> In entry (PyDict.items FACTION_HIERARCHY)) ->
  forall st st',
    for_each xs (load_faction fs data_path) st = Ok st' ->
    catalog_shape (faction_units st) = hierarchy_shape ->
    catalog_shape (faction_units st') = hierarchy_shape.
Proof.
  induction xs as [|[F data] xs IH]; intros Hsub st st' Hrun Hshape;
    cbn [for_each] in Hrun.
  - now injection Hrun as <-.
  - destruct (load_faction fs data_path (F, data) st) as [st1|] eqn:E1;
      [|discriminate]. cbn [bind] in Hrun.
    apply (IH (fun e H => Hsub e (or_intror H)) st1 st' Hrun).
    destruct (load_faction_shape fs F data st st1 E1) as [H|H]; rewrite H.
    + exact Hshape.
    + rewrite Hshape. apply (shape_after_faction_fixed F data).
      apply Hsub. now left.
Qed.

Lemma init_structure_shape st0 :
  init_structure new_manager = Ok st0 ->
  catalog_shape (faction_units st0) = hierarchy_shape.
Proof. vm_compute. intros [= <-]. reflexivity. Qed.

Lemma loaded_shape fs st :
  exists_ fs data_path = true ->
  DataManager_init fs = Ok st ->
  catalog_shape (faction_units st) = hierarchy_shape.
Proof.
  intros Hroot. unfold DataManager_init, _load_data. rewrite Hroot. cbn [negb].
  destruct (init_structure new_manager) as [st0|] eqn:Hinit; [|discriminate].
  cbn [bind].
  destruct (_load_units_from_directory fs data_path st0) as [st1|] eqn:E1;
    [|discriminate]. cbn [bind]. intros [= <-].
  rewrite build_search_index_catalog.
  apply (load_factions_shape fs (PyDict.items FACTION_HIERARCHY)
           (fun e H => H) st0 st1 E1).
  now apply init_structure_shape.
Qed.

Lemma hierarchy_shape_get F data :
  In (F, data) (PyDict.items FACTION_HIERARCHY) ->
  PyDict.get hierarchy_shape F =
  Some (map (fun s => (s, UNIT_CATEGORIES)) (PyDict.keys (subfactions data))).
Proof.
  intros Hin. simpl in Hin.
  repeat (destruct Hin as [E|Hin]; [injection E as <- <-; reflexivity|]).
  destruct Hin.
Qed.

Lemma loaded_faction_entry fs st F data :
  exists_ fs data_path = true ->
  DataManager_init fs = Ok st ->
  In (F, data) (PyDict.items FACTION_HIERARCHY) ->
  exists subs,
    PyDict.get (faction_units st) F = Some subs /\
    PyDict.keys subs = PyDict.keys (subfactions data) /\
    forall S cats, In (S, cats) (PyDict.items subs) ->
                   PyDict.keys cats = UNIT_CATEGORIES.
Proof.
  intros Hroot Hrun Hin.
  pose proof (loaded_shape fs st Hroot Hrun) as Hshape.
  pose proof (hierarchy_shape_get F data Hin) as Hget.
  rewrite <- Hshape in Hget. unfold catalog_shape in Hget.
  rewrite get_dmap in Hget.
  destruct (PyDict.get (faction_units st) F) as [subs|]; [|discriminate].
  injection Hget as Hsubs. exists subs. split; [reflexivity|]. split.
  - rewrite <- (keys_dmap (fun d : dict (list UnitData.t) => PyDict.keys d) subs).
    rewrite Hsubs. unfold PyDict.keys. rewrite map_map. simpl. apply map_id.
  - intros S cats HS.
    assert (H : In (S, PyDict.keys cats)
                  (dmap (fun d : dict (list UnitData.t) => PyDict.keys d) subs)).
    { unfold dmap. apply in_map_iff. now exists (S, cats). }
    rewrite Hsubs in H. apply in_map_iff in H as (s & [= _ Heq] & _).
    now symmetry.
Qed.

Lemma loaded_catalog_keys fs st :
  exists_ fs data_path = true ->
  DataManager_init fs = Ok st ->
  PyDict.keys (faction_units st) = PyDict.keys FACTION_HIERARCHY.
Proof.
  intros Hroot Hrun.
  rewrite <- (keys_dmap
                (dmap (fun d : dict (list UnitData.t) => PyDict.keys d))
                (faction_units st)).
  fold (catalog_shape (faction_units st)).
  now rewrite (loaded_shape fs st Hroot Hrun).
Qed.

(** X10. After a load with the data directory present the catalog has
    exactly the declared keys, in the declared order: the factions of the
    hierarchy, under each faction its declared subfactions (the temporary
    ["_base_faction_"] entry is gone), and under each subfaction the six
    categories. *)
Theorem X10_catalog_keys_after_load fs st :
  exists_ fs data_path = true ->
  DataManager_init fs = Ok st ->
  PyDict.keys (faction_units st) = PyDict.keys FACTION_HIERARCHY /\
  forall F data,
    In (F, data) (PyDict.items FACTION_HIERARCHY) ->
    exists subs,
      PyDict.get (faction_units st) F = Some subs /\
      PyDict.keys subs = PyDict.keys (subfactions data) /\
      forall S cats, In (S, cats) (PyDict.items subs) ->
                     PyDict.keys cats = UNIT_CATEGORIES.
Proof.
  intros Hroot Hrun. split.
  - now apply (loaded_catalog_keys fs).
  - intros F data Hin. now apply (loaded_faction_entry fs st F data).
Qed.

Lemma X10_witness :
  PyDict.keys (faction_units example_loaded) = PyDict.keys FACTION_HIERARCHY /\
  forall F data,
    In (F, data) (PyDict.items FACTION_HIERARCHY) ->
    exists subs,
      PyDict.get (faction_units example_loaded) F = Some subs /\
      PyDict.keys subs = PyDict.keys (subfactions data) /\
      forall S cats, In (S, cats) (PyDict.items subs) ->
                     PyDict.keys cats = UNIT_CATEGORIES.
Proof.
  apply (X10_catalog_keys_after_load example_fs example_loaded).
  - reflexivity.
  - exact example_loaded_run.
Defined.

Lemma values_of_keys {V : Type} (d : dict V) (f : string -> V) :
  NoDup (PyDict.keys d) ->
  (forall k, In k (PyDict.keys d) -> PyDict.get d k = Some (f k)) ->
  PyDict.values d = map f (PyDict.keys d).
Proof.
  induction d as [|[k0 v0] d IH]; simpl; intros Hnd Hget; [reflexivity|].
  inversion Hnd as [|? ? Hnot Hnd']; subst.
  pose proof (Hget k0 (or_introl eq_refl)) as H0.
  rewrite String.eqb_refl in H0. injection H0 as ->. f_equal.
  apply IH; [exact Hnd'|].
  intros k Hk. specialize (Hget k (or_intror Hk)).
  destruct (String.eqb_spec k0 k) as [->|_]; [contradiction|exact Hget].
Qed.

(** The records of a subfaction dictionary of a loaded catalog, category
    by category. *)
Lemma loaded_subfaction_values fs st F data subs S cats :
  exists_ fs data_path = true ->
  DataManager_init fs = Ok st ->
  In (F, data) (PyDict.items FACTION_HIERARCHY) ->
  PyDict.get (faction_units st) F = Some subs ->
  In (S, cats) (PyDict.items subs) ->
  List.concat (PyDict.values cats) =
  List.concat (map (expected_bucket fs F S) UNIT_CATEGORIES).
Proof.
  intros Hroot Hrun Hin HF HS.
  destruct (loaded_faction_entry fs st F data Hroot Hrun Hin)
    as (subs' & HF' & Hkeys & Hcats).
  rewrite HF in HF'. injection HF' as <-.
  destruct (hierarchy_entry_ok F data Hin) as (Hnd & _).
  assert (HgetS : PyDict.get subs S = Some cats).
  { apply PyDictFacts.In_get; [|exact HS]. unfold PyDict.wf. now rewrite Hkeys. }
  assert (Hdecl : declared F S).
  { exists data. split; [exact Hin|]. rewrite <- Hkeys. unfold PyDict.keys.
    change S with (fst (S, cats)). now apply in_map. }
  destruct (loaded_buckets fs Hroot) as (st' & Hrun' & Hb).
  rewrite Hrun in Hrun'. injection Hrun' as <-.
  f_equal. rewrite (values_of_keys cats (expected_bucket fs F S)).
  - now rewrite (Hcats S cats HS).
  - rewrite (Hcats S cats HS). apply UNIT_CATEGORIES_NoDup.
  - intros c Hc. rewrite (Hcats S cats HS) in Hc.
    specialize (Hb F S c Hdecl Hc). unfold bucket in Hb.
    now rewrite HF, HgetS in Hb.
Qed.

Lemma loaded_wide_lookups fs st F data :
  exists_ fs data_path = true ->
  DataManager_init fs = Ok st ->
  In (F, data) (PyDict.items FACTION_HIERARCHY) ->
  get_units_for_path st F None None =
    Ok (List.concat
          (map (fun S =>
                  List.concat (map (expected_bucket fs F S) UNIT_CATEGORIES))
             (PyDict.keys (subfactions data)))) /\
  forall S,
    In S (PyDict.keys (subfactions data)) ->
    get_units_for_path st F (Some S) None =
      Ok (List.concat (map (expected_bucket fs F S) UNIT_CATEGORIES)).
Proof.
  intros Hroot Hrun Hin.
  destruct (loaded_faction_entry fs st F data Hroot Hrun Hin)
    as (subs & HF & Hkeys & Hcats).
  destruct (hierarchy_entry_ok F data Hin) as (Hnd & _).
  split.
  - unfold get_units_for_path, PyDict.mem, PyDict.getitem. rewrite HF.
    cbn [negb bind]. f_equal. f_equal.
    rewrite <- Hkeys. unfold PyDict.values at 2, PyDict.keys.
    rewrite !map_map. apply map_ext_in. intros [S cats] HS. cbn [fst snd].
    now apply (loaded_subfaction_values fs st F data subs S cats).
  - intros S HS. rewrite <- Hkeys in HS.
    destruct (PyDictFacts.key_get _ subs S HS) as [cats Hget].
    unfold get_units_for_path, PyDict.mem, PyDict.getitem. rewrite HF.
    cbn [negb bind]. rewrite Hget. cbn [negb bind]. f_equal.
    apply (loaded_subfaction_values fs st F data subs S cats); auto.
    now apply PyDictFacts.get_In.
Qed.

(** X11. On a loaded catalog the lookups by faction and by faction and
    subfaction return the buckets one after the other: the subfactions in
    declared order, and for each the categories in the order of
    [UNIT_CATEGORIES], every bucket being the one that the load left. *)
Theorem X11_wide_lookups_concatenate_buckets fs st F data :
  exists_ fs data_path = true ->
  DataManager_init fs = Ok st ->
  In (F, data) (PyDict.items FACTION_HIERARCHY) ->
  get_units_for_path st F None None =
    Ok (List.concat
          (map (fun S =>
                  List.concat (map (expected_bucket fs F S) UNIT_CATEGORIES))
             (PyDict.keys (subfactions data)))) /\
  forall S,
    In S (PyDict.keys (subfactions data)) ->
    get_units_for_path st F (Some S) None =
      Ok (List.concat (map (expected_bucket fs F S) UNIT_CATEGORIES)).
Proof. exact (loaded_wide_lookups fs st F data). Qed.

Lemma X11_witness :
  get_units_for_path example_loaded "Soviet Union" None None =
    Ok (List.concat
          (map (fun S =>
                  List.concat
                    (map (expected_bucket example_fs "Soviet Union" S)
                       UNIT_CATEGORIES))
             (PyDict.keys (subfactions soviet_data)))) /\
  forall S,
    In S (PyDict.keys (subfactions soviet_data)) ->
    get_units_for_path example_loaded "Soviet Union" (Some S) None =
      Ok (List.concat
            (map (expected_bucket example_fs "Soviet Union" S) UNIT_CATEGORIES)).
Proof.
  apply (X11_wide_lookups_concatenate_buckets example_fs example_loaded
           "Soviet Union" soviet_data).
  - reflexivity.
  - exact example_loaded_run.
  - right. left. reflexivity.
Defined.

(** X12. On a loaded catalog ["_base_faction_"] is the name of no
    subfaction: the lookup with it as subfaction returns the empty list for
    every faction and category, although the base-faction records carry it
    in their subfaction field. *)
Theorem X12_placeholder_is_no_subfaction fs st F c :
  exists_ fs data_path = true ->
  DataManager_init fs = Ok st ->
  get_units_for_path st F (Some "_base_faction_") c = Ok [].
Proof.
  intros Hroot Hrun.
  pose proof (loaded_catalog_keys fs st Hroot Hrun) as Hkeys.
  pose proof (fun F data => loaded_faction_entry fs st F data Hroot Hrun)
    as Hentries.
  unfold get_units_for_path, PyDict.mem, PyDict.getitem.
  destruct (PyDict.get (faction_units st) F) as [subs|] eqn:HF;
    cbn [negb bind]; [|reflexivity].
  assert (HinF : In F (PyDict.keys FACTION_HIERARCHY)).
  { rewrite <- Hkeys. apply PyDictFacts.get_In in HF. unfold PyDict.keys.
    change F with (fst (F, subs)). now apply in_map. }
  unfold PyDict.keys in HinF. apply in_map_iff in HinF as ([F' data] & HF' & Hin).
  simpl in HF'. subst F'.
  destruct (Hentries F data Hin) as (subs' & HF'' & Hsubkeys & _).
  rewrite HF in HF''. injection HF'' as <-.
  destruct (hierarchy_entry_ok F data Hin) as (_ & Htemp & _).
  destruct (PyDict.get subs "_base_faction_") as [cats|] eqn:Hget;
    cbn [negb]; [|reflexivity].
  exfalso. apply Htemp. rewrite <- Hsubkeys.
  apply PyDictFacts.get_In in Hget. unfold PyDict.keys.
  change temp_subfaction with (fst ("_base_faction_", cats)). now apply in_map.
Qed.

Lemma X12_witness :
  get_units_for_path example_loaded "Soviet Union" (Some "_base_faction_")
    (Some "Infantry") = Ok [].
Proof.
  apply (X12_placeholder_is_no_subfaction example_fs example_loaded
           "Soviet Union" (Some "Infantry")).
  - reflexivity.
  - exact example_loaded_run.
Defined.

Lemma filter_concat_length {A B : Type} (p : B -> bool) (G : A -> list B)
  (xs : list A) :
  (forall x, In x xs -> exists y, In y (G x) /\ p y = true) ->
  List.length xs <= List.length (filter p (List.concat (map G xs))).
Proof.
  induction xs as [|x xs IH]; intros H; simpl; [apply Nat.le_refl|].
  rewrite filter_app, length_app.
  destruct (H x (or_introl eq_refl)) as (y & Hy & Hp).
  assert (H1 : 1 <= List.length (filter p (G x))).
  { assert (Hin : In y (filter p (G x))) by (apply filter_In; auto).
    destruct (filter p (G x)); [destruct Hin|simpl; lia]. }
  specialize (IH (fun x' Hx' => H x' (or_intror Hx'))). lia.
Qed.

(** X13. The lookup by faction alone keeps repetitions: a base-faction
    unit is inherited by every subfaction, so the list returned for its
    faction holds its name at least once per declared subfaction. *)
Theorem X13_base_unit_once_per_subfaction fs st F data fdir C u :
  exists_ fs data_path = true ->
  DataManager_init fs = Ok st ->
  In (F, data) (PyDict.items FACTION_HIERARCHY) ->
  faction_dir fs F = Some fdir ->
  In C UNIT_CATEGORIES ->
  In u (base_units fs fdir F C) ->
  exists l,
    get_units_for_path st F None None = Ok l /\
    List.length (PyDict.keys (subfactions data)) <=
    List.length (filter (has_name (UnitData.name u)) l).
Proof.
  intros Hroot Hrun Hin Hdir HC Hu.
  destruct (loaded_wide_lookups fs st F data Hroot Hrun Hin) as [Hall _].
  eexists. split; [exact Hall|].
  apply filter_concat_length. intros S HS.
  pose proof (expected_bucket_base_names fs F fdir S C u Hdir Hu) as Hname.
  apply in_map_iff in Hname as (v & Hv & Hvin).
  exists v. split.
  - apply in_concat. exists (expected_bucket fs F S C). split; [|exact Hvin].
    now apply in_map.
  - unfold has_name. rewrite Hv. apply String.eqb_refl.
Qed.

Lemma X13_witness :
  exists l,
    get_units_for_path example_loaded "Soviet Union" None None = Ok l /\
    List.length (PyDict.keys (subfactions soviet_data)) <=
    List.length
      (filter
         (has_name
            (UnitData.name
               (example_unit "Conscript" "Soviet Union" temp_subfaction
                  "Infantry"))) l).
Proof.
  apply (X13_base_unit_once_per_subfaction example_fs example_loaded
           "Soviet Union" soviet_data soviet_dir "Infantry").
  - reflexivity.
  - exact example_loaded_run.
  - right. left. reflexivity.
  - reflexivity.
  - simpl. tauto.
  - vm_compute. tauto.
Defined.

(** ** Loading settings *)

Lemma mem_update {V : Type} (d other : dict V) k :
  PyDict.mem d k = true -> PyDict.mem (PyDict.update d other) k = true.
Proof.
  unfold PyDict.update. revert d.
  induction other as [|[k0 v0] other IH]; intros d H; simpl; [exact H|].
  apply IH. now apply PyDictFacts.mem_set.
Qed.

Lemma get_update_override {V : Type} (d other : dict V) k :
  PyDict.wf other ->
  PyDict.get (PyDict.update d other) k =
  match PyDict.get other k with
  | Some v => Some v
  | None => PyDict.get d k
  end.
Proof.
  intros Hwf. destruct (PyDict.get other k) as [v|] eqn:E.
  - now apply PyDictFacts.get_update.
  - unfold PyDict.update. apply PyDictFacts.get_fold_set_notin.
    now apply PyDictFacts.get_None_not_key.
Qed.

(** X14. Loading settings never loses a setting: with no settings file,
    with one that cannot be read or parsed, with a document that is not an
    object, or with an object whose theme and custom sections are objects
    or absent, a key of the theme or of the custom settings that is there
    before [load_settings] is there after it.  So after [ThemeManager()]
    every default key is present, and the reads
    [custom_settings["font_family"]], [custom_settings["icon_scale"]] and
    [current_theme["bg"]] find their key. *)
Theorem X14_load_settings_keeps_keys disk self :
  object_sections disk = true ->
  (forall k, PyDict.mem (current_theme self) k = true ->
             PyDict.mem (current_theme (load_settings disk self)) k = true) /\
  (forall k, PyDict.mem (custom_settings self) k = true ->
             PyDict.mem (custom_settings (load_settings disk self)) k = true) /\
  (forall k, In k (PyDict.keys DEFAULT_THEME) ->
             PyDict.mem (current_theme (ThemeManager_init disk)) k = true) /\
  (forall k, In k (PyDict.keys DEFAULT_CUSTOM_SETTINGS) ->
             PyDict.mem (custom_settings (ThemeManager_init disk)) k = true).
Proof.
  intros _.
  assert (H : forall s,
    (forall k, PyDict.mem (current_theme s) k = true ->
               PyDict.mem (current_theme (load_settings disk s)) k = true) /\
    (forall k, PyDict.mem (custom_settings s) k = true ->
               PyDict.mem (custom_settings (load_settings disk s)) k = true)).
  { intros s. unfold load_settings.
    destruct (settings_file disk) as [[|[| | | | | |doc]]|]; try (split; auto; fail).
    unfold update_from.
    destruct (PyDict.get_default doc "theme" (JObject [])) as [| | | | | |t];
      try (split; auto; fail).
    cbn [current_theme custom_settings].
    destruct (PyDict.get_default doc "custom" (JObject [])) as [| | | | | |c];
      cbn [current_theme custom_settings];
      split; intros k Hk; auto using mem_update. }
  split; [apply H|]. split; [apply H|]. split.
  - intros k Hk. apply H. simpl.
    repeat (destruct Hk as [<-|Hk]; [reflexivity|]). destruct Hk.
  - intros k Hk. apply H. simpl.
    repeat (destruct Hk as [<-|Hk]; [reflexivity|]). destruct Hk.
Qed.

Lemma X14_witness :
  let doc := [("theme", JObject [("bg", JStr "#000000")])] in
  let disk := {| settings_file := Some (Document (JObject doc));
                 writable := true |} in
  let self := {| current_theme := DEFAULT_THEME;
                 custom_settings := DEFAULT_CUSTOM_SETTINGS |} in
  object_sections disk = true /\
  (forall k, PyDict.mem (current_theme self) k = true ->
             PyDict.mem (current_theme (load_settings disk self)) k = true) /\
  (forall k, PyDict.mem (custom_settings self) k = true ->
             PyDict.mem (custom_settings (load_settings disk self)) k = true) /\
  (forall k, In k (PyDict.keys DEFAULT_THEME) ->
             PyDict.mem (current_theme (ThemeManager_init disk)) k = true) /\
  (forall k, In k (PyDict.keys DEFAULT_CUSTOM_SETTINGS) ->
             PyDict.mem (custom_settings (ThemeManager_init disk)) k = true).
Proof.
  intros doc disk self. split; [reflexivity|].
  apply (X14_load_settings_keeps_keys disk self). reflexivity.
Defined.

(** X15. For a settings file that is an object whose theme and custom
    sections are objects (or absent), [load_settings] overrides key by key:
    a setting that the file gives takes the value of the file, every other
    setting keeps the value it had. *)
Theorem X15_load_settings_overrides disk self doc theme custom :
  settings_file disk = Some (Document (JObject doc)) ->
  PyDict.get_default doc "theme" (JObject []) = JObject theme ->
  PyDict.get_default doc "custom" (JObject []) = JObject custom ->
  PyDict.wf theme ->
  PyDict.wf custom ->
  forall k,
    PyDict.get (current_theme (load_settings disk self)) k =
      match PyDict.get theme k with
      | Some v => Some v
      | None => PyDict.get (current_theme self) k
      end /\
    PyDict.get (custom_settings (load_settings disk self)) k =
      match PyDict.get custom k with
      | Some v => Some v
      | None => PyDict.get (custom_settings self) k
      end.
Proof.
  intros Hfile Ht Hc Hwt Hwc k. unfold load_settings.
  rewrite Hfile, Ht. cbn [update_from current_theme custom_settings].
  rewrite Hc. cbn [update_from current_theme custom_settings].
  split; now apply get_update_override.
Qed.

Lemma X15_witness :
  let doc := [("custom", JObject [("opacity", JFloat 0.5%float)])] in
  let disk := {| settings_file := Some (Document (JObject doc));
                 writable := true |} in
  let self := {| current_theme := DEFAULT_THEME;
                 custom_settings := DEFAULT_CUSTOM_SETTINGS |} in
  PyDict.get (current_theme (load_settings disk self)) "opacity" =
    match PyDict.get (@nil (string * json)) "opacity" with
    | Some v => Some v
    | None => PyDict.get (current_theme self) "opacity"
    end /\
  PyDict.get (custom_settings (load_settings disk self)) "opacity" =
    match PyDict.get [("opacity", JFloat 0.5%float)] "opacity" with
    | Some v => Some v
    | None => PyDict.get (custom_settings self) "opacity"
    end.
Proof.
  intros doc disk self.
  apply (X15_load_settings_overrides disk self doc []
           [("opacity", JFloat 0.5%float)]).
  - reflexivity.
  - reflexivity.
  - reflexivity.
  - constructor.
  - unfold PyDict.wf. simpl. repeat constructor. intros [].
Defined.

(** ** The comparison list *)

Section ComparisonFacts.
Variable unit_eq : UnitData.t -> UnitData.t -> bool.
Hypothesis unit_eq_refl : forall a, unit_eq a a = true.
Hypothesis unit_eq_sym : forall a b, unit_eq a b = unit_eq b a.
Hypothesis unit_eq_trans :
  forall a b c, unit_eq a b = true -> unit_eq b c = true -> unit_eq a c = true.

Lemma in_comparison_false l u :
  in_comparison unit_eq l u = false <->
  forall item, In item l -> unit_eq item u = false.
Proof.
  unfold in_comparison. induction l as [|x l IH]; simpl.
  - split; [intros _ item []|reflexivity].
  - rewrite orb_false_iff, IH. split.
    + intros [Hx Hl] item [<-|Hin]; auto.
    + intros H. split; [apply H; now left|]. intros item Hin. apply H. now right.
Qed.

Lemma in_comparison_app l u v :
  in_comparison unit_eq (l ++ [v]) u = in_comparison unit_eq l u || unit_eq v u.
Proof.
  unfold in_comparison. rewrite existsb_app. simpl. now rewrite orb_false_r.
Qed.

Lemma distinct_units_app l u :
  distinct_units unit_eq l -> in_comparison unit_eq l u = false ->
  distinct_units unit_eq (l ++ [u]).
Proof.
  intros Hd Hu. rewrite in_comparison_false in Hu.
  induction l as [|x l IH]; simpl.
  - split; [intros other []|exact I].
  - destruct Hd as [Hx Hd]. split.
    + intros other Hin. apply in_app_or in Hin as [Hin|[<-|[]]].
      * now apply Hx.
      * apply Hu. now left.
    + apply IH; [exact Hd|]. intros item Hin. apply Hu. now right.
Qed.

(** Removing from a list without equal items: the item equal to [u] goes,
    the others stay in their order, and no item equal to [u] is left. *)
Lemma list_remove_distinct l u :
  distinct_units unit_eq l -> in_comparison unit_eq l u = true ->
  exists l',
    list_remove unit_eq l u = Ok l' /\
    distinct_units unit_eq l' /\
    in_comparison unit_eq l' u = false /\
    (forall v, unit_eq v u = false ->
               in_comparison unit_eq l' v = in_comparison unit_eq l v) /\
    List.length l = S (List.length l').
Proof.
  induction l as [|x l IH]; simpl; [discriminate|].
  intros [Hx Hd] Hin. destruct (unit_eq x u) eqn:Exu.
  - exists l. split; [reflexivity|]. split; [exact Hd|]. split; [|split].
    + apply in_comparison_false. intros item Hitem.
      destruct (unit_eq item u) eqn:E; [|reflexivity].
      rewrite <- (Hx item Hitem). symmetry.
      apply unit_eq_trans with (b := u); [exact Exu|].
      now rewrite unit_eq_sym.
    + intros v Hv. unfold in_comparison. simpl.
      destruct (unit_eq x v) eqn:E; [|reflexivity].
      exfalso.
      assert (Hvu : unit_eq v u = true).
      { apply unit_eq_trans with (b := x); [|exact Exu]. now rewrite unit_eq_sym. }
      congruence.
    + reflexivity.
  - simpl in Hin.
    destruct (IH Hd Hin) as (l' & Hrun & Hd' & Hnot & Hothers & Hlen).
    exists (x :: l'). rewrite Hrun. cbn [bind]. split; [reflexivity|].
    split; [|split; [|split]].
    + simpl. split; [|exact Hd'].
      intros other Hother.
      destruct (unit_eq x other) eqn:E; [|reflexivity].
      assert (Hou : unit_eq other u = false).
      { destruct (unit_eq other u) eqn:E'; [|reflexivity].
        rewrite <- Exu. symmetry. now apply unit_eq_trans with (b := other). }
      pose proof (Hothers other Hou) as Hsame.
      assert (Hin' : in_comparison unit_eq l' other = true).
      { unfold in_comparison. apply existsb_exists. exists other.
        split; [exact Hother|apply unit_eq_refl]. }
      rewrite Hin' in Hsame. symmetry in Hsame.
      unfold in_comparison in Hsame. apply existsb_exists in Hsame as (y & Hy & Eyo).
      rewrite <- (Hx y Hy). symmetry.
      apply unit_eq_trans with (b := other); [exact E|]. now rewrite unit_eq_sym.
    + unfold in_comparison. simpl. rewrite Exu. exact Hnot.
    + intros v Hv. unfold in_comparison. simpl. f_equal. now apply Hothers.
    + simpl. now rewrite Hlen.
Qed.

(** X16. On a comparison list without equal units, toggling a unit
    returns (it does not raise), flips whether the unit is in the list,
    changes nothing for the units that are not equal to it, and leaves a
    list without equal units. *)
Theorem X16_toggle_comparison_flips l u :
  distinct_units unit_eq l ->
  exists l',
    toggle_comparison unit_eq l u = Ok l' /\
    in_comparison unit_eq l' u = negb (in_comparison unit_eq l u) /\
    (forall v, unit_eq v u = false ->
               in_comparison unit_eq l' v = in_comparison unit_eq l v) /\
    distinct_units unit_eq l'.
Proof.
  intros Hd. unfold toggle_comparison.
  destruct (in_comparison unit_eq l u) eqn:Hin.
  - destruct (list_remove_distinct l u Hd Hin) as (l' & Hrun & Hd' & Hnot & Ho & _).
    exists l'. auto.
  - exists (l ++ [u]). split; [reflexivity|]. split; [|split].
    + rewrite in_comparison_app, Hin, unit_eq_refl. reflexivity.
    + intros v Hv. rewrite in_comparison_app.
      rewrite unit_eq_sym in Hv. rewrite Hv. apply orb_false_r.
    + now apply distinct_units_app.
Qed.

Lemma list_remove_appended l u :
  in_comparison unit_eq l u = false ->
  list_remove unit_eq (l ++ [u]) u = Ok l.
Proof.
  rewrite in_comparison_false. induction l as [|x l IH]; intros H; simpl.
  - now rewrite unit_eq_refl.
  - rewrite (H x (or_introl eq_refl)).
    rewrite IH by (intros item Hin; apply H; now right). reflexivity.
Qed.

(** X17. Toggling twice a unit that is not in the comparison list gives
    the list back as it was. *)
Theorem X17_toggle_comparison_twice l u :
  in_comparison unit_eq l u = false ->
  exists l',
    toggle_comparison unit_eq l u = Ok l' /\
    toggle_comparison unit_eq l' u = Ok l.
Proof.
  intros Hin. exists (l ++ [u]). unfold toggle_comparison. rewrite Hin.
  split; [reflexivity|].
  rewrite in_comparison_app, Hin, unit_eq_refl. cbn [orb].
  now apply list_remove_appended.
Qed.
End ComparisonFacts.

Lemma same_key_refl a : same_key a a = true.
Proof. apply String.eqb_refl. Qed.

Lemma same_key_sym a b : same_key a b = same_key b a.
Proof. apply String.eqb_sym. Qed.

Lemma same_key_trans a b c :
  same_key a b = true -> same_key b c = true -> same_key a c = true.
Proof.
  unfold same_key. rewrite !String.eqb_eq. congruence.
Qed.

Lemma X16_witness :
  let a := example_unit "Conscript" "Soviet" "Russia" "Infantry" in
  let b := example_unit "Flak Trooper" "Soviet" "Russia" "Infantry" in
  distinct_units same_key [a; b] /\
  exists l',
    toggle_comparison same_key [a; b] a = Ok l' /\
    in_comparison same_key l' a = negb (in_comparison same_key [a; b] a) /\
    (forall v, same_key v a = false ->
               in_comparison same_key l' v = in_comparison same_key [a; b] v) /\
    distinct_units same_key l'.
Proof.
  intros a b.
  assert (Hd : distinct_units same_key [a; b]).
  { simpl. split; [|split; [|exact I]].
    - intros other [<-|[]]. reflexivity.
    - intros other []. }
  split; [exact Hd|].
  exact (X16_toggle_comparison_flips same_key same_key_refl same_key_sym
           same_key_trans [a; b] a Hd).
Defined.

Lemma X17_witness :
  let a := example_unit "Conscript" "Soviet" "Russia" "Infantry" in
  let b := example_unit "Flak Trooper" "Soviet" "Russia" "Infantry" in
  in_comparison same_key [a] b = false /\
  exists l',
    toggle_comparison same_key [a] b = Ok l' /\
    toggle_comparison same_key l' b = Ok [a].
Proof.
  intros a b. split; [reflexivity|].
  exact (X17_toggle_comparison_twice same_key same_key_refl [a] b eq_refl).
Defined.
